(** * VantageVision: the request handlers of [server.js], embedded and verified

    The service is a set of Express route handlers over two Mongoose
    collections ([Session], [Clip]) and three external services (Cloudinary
    video storage, the Gemini file manager, the Gemini generative models).

    The embedding is shallow.  Every [async] handler becomes a function in a
    small state-and-exception monad [M] over a [world] that holds the two
    collections, the temporary upload directory, the videos held by the
    storage service and the log of calls made to the external services.
    What the external services answer is not decided by the program: it is
    read from an [env], a script of answers indexed by the position of the
    call, over which every theorem quantifies.  The database is one of these
    services: each operation may be rejected, and then changes nothing.  The
    only loop without a bound in the source, the ingestion poll, runs on
    fuel; running out of fuel is the third outcome, [Pending], of a
    computation.

    Embedded: [generateWithFallback], and the handlers of
    [/api/create-session], [/api/sessions], [/api/session/:id],
    [/api/delete-session], [/api/search], [/api/update-clip],
    [/api/delete-clip], [/api/save-snapshot], [/api/clip-chat] and
    [/api/chat].  Requests are typed by the fields the handlers read,
    documents by their schemas, the analysis of a clip by the output format
    of the prompt; a request that carries a value of another type in one of
    these fields (a query object where an identifier is read), and model
    text that parses to a value that is not an object, are outside the
    model.  Left out: [/api/update-clip-data], whose effect on the
    stored analysis depends on how Mongoose tracks changes inside a field
    of type [Object]; the static pages; what is written to the console; the
    casts Mongoose applies to values that do not fit a schema; and
    concurrent requests.  A path of the upload directory can be written
    always and unlinked when it is there. *)

From Stdlib Require Import ZArith Ascii DecimalString DecimalPos DecimalZ.
From stdpp Require Import base option list gmap strings sorting.

Open Scope string_scope.
Open Scope list_scope.

(** ** JavaScript values the handlers branch on *)

Module Js.

(** [!!s] for a value that is a string or [undefined]. *)
Definition truthy (s : option string) : bool :=
  match s with
  | Some s => negb (String.eqb s "")
  | None => false
  end.

(** [a || d] for such a value and a string literal [d]. *)
Definition or_else (a : option string) (d : string) : string :=
  match a with
  | Some s => if String.eqb s "" then d else s
  | None => d
  end.

(** [`${a}`]: a template literal prints [undefined] by name. *)
Definition interpolate (a : option string) : string :=
  default "undefined" a.

(** [Date.now()] printed in a template literal. *)
Definition of_time (t : Z) : string :=
  NilZero.string_of_int (Z.to_int t).

(** [xs.join(sep)]. *)
Fixpoint join (sep : string) (xs : list string) : string :=
  match xs with
  | [] => ""
  | [x] => x
  | x :: rest => x +:+ sep +:+ join sep rest
  end.

(** [xs.findIndex(p)], with [None] for [-1]. *)
Fixpoint findIndex {A} (p : A -> bool) (xs : list A) : option nat :=
  match xs with
  | [] => None
  | x :: rest => if p x then Some 0 else S <$> findIndex p rest
  end.

End Js.

(** An [Error] object: what [throw] raises and what a rejected promise
    carries. *)
Record error := Error { message : string }.

(** ** Documents (the Mongoose schemas, server.js 86-102) *)

Record Turn := { role : string; text : string }.

Record PlayerProfile := {
  identifier : string;
  position : string;
  grade : string;
  notes : list string;
  weaknesses : list string;
  last_updated : Z
}.

(** The analysis payload, typed by the output format the prompt prescribes
    (server.js 322-343).  The fields the handler tests for presence are
    options; the parts it never reads are carried as raw text. *)
Record Formation := { o_formation : option string; d_formation : option string }.

Record ScoutingReport := { summary : option string; report_rest : list (string * string) }.

Record DetectedPlayer := {
  dp_identifier : string;
  dp_position : string;
  dp_grade : string;
  dp_observation : string;
  dp_weakness : option string
}.

Record Analysis := {
  a_title : option string;
  a_data : option Formation;
  a_tactical_breakdown : option (list (string * string));
  a_scouting_report : option ScoutingReport;
  a_players_detected : option (list DetectedPlayer)
}.

Module Session.
Record t := {
  _id : nat;
  sessionId : string;
  owner : string;
  title : string;
  type : string;
  sport : string;
  history : list Turn;
  roster : list PlayerProfile
}.

Definition set_history (f : list Turn -> list Turn) (s : t) : t :=
  {| _id := _id s; sessionId := sessionId s; owner := owner s; title := title s;
     type := type s; sport := sport s; history := f (history s); roster := roster s |}.

Definition set_roster (r : list PlayerProfile) (s : t) : t :=
  {| _id := _id s; sessionId := sessionId s; owner := owner s; title := title s;
     type := type s; sport := sport s; history := history s; roster := r |}.
End Session.

Module Clip.
Record t := {
  _id : nat;
  owner : string;
  sessionId : string;
  sport : string;
  title : option string;
  formation : option string;
  o_formation : option string;
  d_formation : option string;
  section : string;
  videoUrl : option string;
  publicId : option string;
  geminiFileUri : option string;
  fullData : option Analysis;
  chatHistory : list Turn;
  snapshots : list string;
  createdAt : Z
}.

Definition set_chatHistory (f : list Turn -> list Turn) (c : t) : t :=
  {| _id := _id c; owner := owner c; sessionId := sessionId c; sport := sport c;
     title := title c; formation := formation c; o_formation := o_formation c;
     d_formation := d_formation c; section := section c; videoUrl := videoUrl c;
     publicId := publicId c; geminiFileUri := geminiFileUri c; fullData := fullData c;
     chatHistory := f (chatHistory c); snapshots := snapshots c; createdAt := createdAt c |}.

Definition set_section (section : string) (c : t) : t :=
  {| _id := _id c; owner := owner c; sessionId := sessionId c; sport := sport c;
     title := title c; formation := formation c; o_formation := o_formation c;
     d_formation := d_formation c; section := section; videoUrl := videoUrl c;
     publicId := publicId c; geminiFileUri := geminiFileUri c; fullData := fullData c;
     chatHistory := chatHistory c; snapshots := snapshots c; createdAt := createdAt c |}.

Definition set_snapshots (f : list string -> list string) (c : t) : t :=
  {| _id := _id c; owner := owner c; sessionId := sessionId c; sport := sport c;
     title := title c; formation := formation c; o_formation := o_formation c;
     d_formation := d_formation c; section := section c; videoUrl := videoUrl c;
     publicId := publicId c; geminiFileUri := geminiFileUri c; fullData := fullData c;
     chatHistory := chatHistory c; snapshots := f (snapshots c); createdAt := createdAt c |}.
End Clip.

(** ** The external services *)

(** The states of an ingested file. *)
Inductive FileState := PROCESSING | ACTIVE | FAILED.

Global Instance FileState_eq_dec : EqDecision FileState.
Proof. solve_decision. Defined.

Record File := { state : FileState; uri : string }.

(** One part of a prompt: inline text or a reference to an ingested file. *)
Inductive Part :=
| TextPart (t : string)
| FilePart (mimeType fileUri : string).

(** What [model.generateContent] resolves to; [response_text] is
    [result.response.text()]. *)
Record GenResult := { response_text : string }.

Record CloudUpload := { secure_url : string; public_id : string }.

Record GeminiUpload := { file_name : string }.

(** The environment of the server: what the external services answer, and
    the library functions on text whose results the handlers only pass on.
    Calls to a service are numbered from 0 in the order it receives them. *)
Record env := {
  (** the [n]-th database operation is rejected with this error *)
  db_fault : nat -> option error;
  (** the [n]-th [generateContent], on this model and prompt *)
  generateContent : nat -> string -> list Part -> GenResult + error;
  (** the [n]-th [fileManager.getFile], of this file name *)
  getFile : nat -> string -> File + error;
  (** [cloudinary.uploader.upload] of this local path *)
  cloudinary_upload : string -> CloudUpload + error;
  (** the [n]-th [cloudinary.uploader.destroy], of this identifier *)
  cloudinary_destroy : nat -> string -> option error;
  (** [fileManager.uploadFile] of this local path with this media type *)
  gemini_upload : string -> string -> GeminiUpload + error;
  (** [JSON.parse] of text that is to be an analysis, read against the
      output format of the prompt; [None] when it throws *)
  JSON_parse : string -> option Analysis;
  (** [JSON.stringify] of an analysis, and of a roster *)
  JSON_stringify : Analysis -> string;
  JSON_stringify_roster : list PlayerProfile -> string;
  (** [s.toUpperCase()] *)
  toUpperCase : string -> string;
  (** [s.replace(/```json/g, '').replace(/```/g, '').trim()] *)
  strip_fences : string -> string
}.

(** ** The world a handler runs in *)

Record world := {
  sessions : list Session.t;
  clips : list Clip.t;
  next_id : nat;            (* the next ObjectId *)
  db_ops : nat;             (* database operations issued so far *)
  files : gset string;      (* paths present in the upload directory *)
  cdn : gset string;        (* identifiers of the videos the storage holds *)
  destroyed : list string;  (* video-delete requests issued, oldest first *)
  gen_log : list string;    (* models generateContent was called on, oldest first *)
  polls : nat;              (* fileManager.getFile calls so far *)
  now : Z                   (* the clock, in milliseconds *)
}.

Definition set_sessions (f : list Session.t -> list Session.t) (w : world) : world :=
  {| sessions := f (sessions w); clips := clips w; next_id := next_id w; db_ops := db_ops w;
     files := files w; cdn := cdn w; destroyed := destroyed w; gen_log := gen_log w;
     polls := polls w; now := now w |}.

Definition set_clips (f : list Clip.t -> list Clip.t) (w : world) : world :=
  {| sessions := sessions w; clips := f (clips w); next_id := next_id w; db_ops := db_ops w;
     files := files w; cdn := cdn w; destroyed := destroyed w; gen_log := gen_log w;
     polls := polls w; now := now w |}.

Definition set_next_id (f : nat -> nat) (w : world) : world :=
  {| sessions := sessions w; clips := clips w; next_id := f (next_id w); db_ops := db_ops w;
     files := files w; cdn := cdn w; destroyed := destroyed w; gen_log := gen_log w;
     polls := polls w; now := now w |}.

Definition set_db_ops (f : nat -> nat) (w : world) : world :=
  {| sessions := sessions w; clips := clips w; next_id := next_id w; db_ops := f (db_ops w);
     files := files w; cdn := cdn w; destroyed := destroyed w; gen_log := gen_log w;
     polls := polls w; now := now w |}.

Definition set_files (f : gset string -> gset string) (w : world) : world :=
  {| sessions := sessions w; clips := clips w; next_id := next_id w; db_ops := db_ops w;
     files := f (files w); cdn := cdn w; destroyed := destroyed w; gen_log := gen_log w;
     polls := polls w; now := now w |}.

Definition set_cdn (f : gset string -> gset string) (w : world) : world :=
  {| sessions := sessions w; clips := clips w; next_id := next_id w; db_ops := db_ops w;
     files := files w; cdn := f (cdn w); destroyed := destroyed w; gen_log := gen_log w;
     polls := polls w; now := now w |}.

Definition set_destroyed (f : list string -> list string) (w : world) : world :=
  {| sessions := sessions w; clips := clips w; next_id := next_id w; db_ops := db_ops w;
     files := files w; cdn := cdn w; destroyed := f (destroyed w); gen_log := gen_log w;
     polls := polls w; now := now w |}.

Definition set_gen_log (f : list string -> list string) (w : world) : world :=
  {| sessions := sessions w; clips := clips w; next_id := next_id w; db_ops := db_ops w;
     files := files w; cdn := cdn w; destroyed := destroyed w; gen_log := f (gen_log w);
     polls := polls w; now := now w |}.

Definition set_polls (f : nat -> nat) (w : world) : world :=
  {| sessions := sessions w; clips := clips w; next_id := next_id w; db_ops := db_ops w;
     files := files w; cdn := cdn w; destroyed := destroyed w; gen_log := gen_log w;
     polls := f (polls w); now := now w |}.

Definition set_now (f : Z -> Z) (w : world) : world :=
  {| sessions := sessions w; clips := clips w; next_id := next_id w; db_ops := db_ops w;
     files := files w; cdn := cdn w; destroyed := destroyed w; gen_log := gen_log w;
     polls := polls w; now := f (now w) |}.

(** ** The monad of handlers *)

(** A computation returns, throws, or is still awaiting when the fuel of the
    poll loop is spent. *)
Inductive outcome (A : Type) :=
| Ret (a : A)
| Throw (e : error)
| Pending.
Arguments Ret {A} a.
Arguments Throw {A} e.
Arguments Pending {A}.

Definition M (A : Type) : Type := world -> outcome A * world.

Definition ret {A} (a : A) : M A := fun w => (Ret a, w).

Definition bind {A B} (m : M A) (k : A -> M B) : M B := fun w =>
  match m w with
  | (Ret a, w') => k a w'
  | (Throw e, w') => (Throw e, w')
  | (Pending, w') => (Pending, w')
  end.

Notation "x <- m ;; k" := (bind m (fun x => k))
  (at level 20, m at level 99, k at level 200, only parsing).
Notation "m ;; k" := (bind m (fun _ => k))
  (at level 100, k at level 200, only parsing, right associativity).

Definition throw {A} (e : error) : M A := fun w => (Throw e, w).

(** [try { m } catch (e) { h e }] *)
Definition try_catch {A} (m : M A) (h : error -> M A) : M A := fun w =>
  match m w with
  | (Ret a, w') => (Ret a, w')
  | (Throw e, w') => h e w'
  | (Pending, w') => (Pending, w')
  end.

Definition gets {A} (f : world -> A) : M A := fun w => (Ret (f w), w).
Definition modify (f : world -> world) : M unit := fun w => (Ret tt, f w).

(** [for (const x of xs) { body x }] *)
Fixpoint for_of {A} (xs : list A) (body : A -> M unit) : M unit :=
  match xs with
  | [] => ret tt
  | x :: rest => body x ;; for_of rest body
  end.

(** ** Constants of the server *)

Definition nl : string := String "010"%char EmptyString.
Definition dq : string := String "034"%char EmptyString.
Definition q (s : string) : string := dq +:+ s +:+ dq.

Definition UPLOAD_DIR : string := "temp_uploads".

(** [MODEL_FALLBACK_LIST] (server.js 38-42) *)
Definition MODEL_FALLBACK_LIST : list string :=
  ["gemini-2.5-pro"; "gemini-2.5-flash"; "gemini-2.0-flash"].

(** [RUBRICS] (server.js 64-84) *)
Definition RUBRICS : list (string * string) :=
  [("team", "
    ELITE COORDINATOR DIAGNOSTICS:
    1. SITUATION: Down & Distance tendencies, Field Position (Red Zone vs Open Field).
    2. PRE-SNAP: Formational Tells (RB depth/width), Motion leverage, OL Stance (Heavy vs Light hands).
    3. SCHEME: Identify Concept (Mesh, Dagger, Duo) vs Coverage Shell (MOFO/MOFC).
    4. POST-SNAP: Identify the 'Conflict Player' in a bind. Who is the weak link?
    5. EXECUTION: Success Rate & Efficiency Grade.");
   ("qb", "MECHANICS: Base width, Kinetic Chain (Hips before Shoulder), Elbow height, Release time (<0.4s). EYE DISCIPLINE: Manipulating safeties vs Staring down targets.");
   ("rb", "VISION: Pressing the hole, Cutback lanes, Pad Level (Hammer vs Nail). PASS PRO: Scanning inside-out, Sturdy base.");
   ("wr", "ROUTE TECH: Release vs Press, Stacking the DB, Stem leverage, Sinking hips at break point, Late Hands catch technique.");
   ("te", "HYBRID PLAY: In-line blocking leverage (Power step), Seam recognition in Zone, Catching in traffic.");
   ("ol", "TRENCH WARFARE: First step explosiveness (no bucket steps), Punch timing, Anchor vs Bull Rush, Hand placement.");
   ("dl", "DISRUPTION: Get-off speed (snap anticipation), Hand combat (Swipe/Rip/Swim), Gap integrity vs Peeking.");
   ("lb", "SECOND LEVEL: Read steps (False steps?), Flow/Scrape over blocks, Shock & Shed technique, Coverage depth.");
   ("cb", "ISLAND DEFENSE: Press technique (Opening the gate too early), Phase maintenance, Eye discipline (Receiver hips vs QB eyes).");
   ("s", "LAST LINE: Pursuit angles (Inside-Out), Range from hash-to-sideline, Disguising coverages, Alley filling.");
   ("kp", "SPECIALISTS: Approach rhythm, Plant foot depth, Contact sweet-spot, Follow-through balance.");
   ("general", "INTANGIBLES: Motor/Effort, Football IQ, Situational Awareness, Speed.")].

(** [RUBRICS[key]] *)
Definition rubric (key : string) : option string :=
  snd <$> List.find (fun kv => String.eqb (fst kv) key) RUBRICS.

(** The closing paragraph of the analysis prompt (server.js 322-343). *)
Definition OUTPUT_FORMAT : string :=
  "    OUTPUT JSON (Strict Format):" +:+ nl
  +:+ "    { " +:+ nl
  +:+ "        " +:+ q "title" +:+ ": " +:+ q "Play Title" +:+ ", " +:+ nl
  +:+ "        " +:+ q "data" +:+ ": { " +:+ q "o_formation" +:+ ": " +:+ q "Set" +:+ ", " +:+ q "d_formation" +:+ ": " +:+ q "Shell" +:+ " }, " +:+ nl
  +:+ "        " +:+ q "tactical_breakdown" +:+ ": {" +:+ nl
  +:+ "            " +:+ q "concept" +:+ ": " +:+ q "Scheme" +:+ "," +:+ nl
  +:+ "            " +:+ q "box_count" +:+ ": " +:+ q "Count" +:+ "," +:+ nl
  +:+ "            " +:+ q "coverage_shell" +:+ ": " +:+ q "Cover X" +:+ "," +:+ nl
  +:+ "            " +:+ q "key_matchup" +:+ ": " +:+ q "1v1" +:+ nl
  +:+ "        }," +:+ nl
  +:+ "        " +:+ q "scouting_report" +:+ ": { " +:+ nl
  +:+ "            " +:+ q "summary" +:+ ": " +:+ q "Narrative. If a specific Rule was violated, mention it explicitly in CAPS." +:+ ", " +:+ nl
  +:+ "            " +:+ q "timeline" +:+ ": [{ " +:+ q "time" +:+ ": " +:+ q "0:00" +:+ ", " +:+ q "type" +:+ ": " +:+ q "Phase" +:+ ", " +:+ q "text" +:+ ": " +:+ q "Obs" +:+ " }]," +:+ nl
  +:+ "            " +:+ q "coaching_prescription" +:+ ": { " +:+ nl
  +:+ "                " +:+ q "fix" +:+ ": " +:+ q "Technical fix" +:+ ", " +:+ nl
  +:+ "                " +:+ q "drill" +:+ ": " +:+ q "Specific Drill Name" +:+ ", " +:+ nl
  +:+ "                " +:+ q "pro_tip" +:+ ": " +:+ q "Tip" +:+ " " +:+ nl
  +:+ "            }," +:+ nl
  +:+ "            " +:+ q "report_card" +:+ ": { " +:+ q "football_iq" +:+ ": " +:+ q "B" +:+ ", " +:+ q "technique" +:+ ": " +:+ q "C" +:+ ", " +:+ q "effort" +:+ ": " +:+ q "A" +:+ ", " +:+ q "overall" +:+ ": " +:+ q "B" +:+ " }" +:+ nl
  +:+ "        }," +:+ nl
  +:+ "        " +:+ q "players_detected" +:+ ": [ { " +:+ q "identifier" +:+ ": " +:+ q "Name" +:+ ", " +:+ q "position" +:+ ": " +:+ q "Pos" +:+ ", " +:+ q "grade" +:+ ": " +:+ q "B" +:+ ", " +:+ q "observation" +:+ ": " +:+ q "Note" +:+ ", " +:+ q "weakness" +:+ ": " +:+ q "Weak" +:+ " } ] " +:+ nl
  +:+ "    }".

(** The payload substituted for model output that does not parse
    (server.js 356-360). *)
Definition ANALYSIS_ERROR : Analysis :=
  {| a_title := Some "Analysis Error";
     a_data := Some {| o_formation := Some "Error"; d_formation := Some "Error" |};
     a_tactical_breakdown := None;
     a_scouting_report :=
       Some {| summary := Some "The AI analysis could not be processed. Please try again.";
               report_rest := [] |};
     a_players_detected := None |}.

(** ** Responses *)

Inductive body :=
| JsonError (error : string)                        (* { error } *)
| JsonSuccess                                       (* { success: true } *)
| JsonReply (reply : string)                        (* { reply } *)
| JsonAnalysis (reply : string) (newClip : Clip.t). (* { reply, newClip } *)

Record response := { status : nat; json : body }.

(** [res.json(b)] and [res.status(n).json(b)] *)
Definition res_json (b : body) : response := {| status := 200; json := b |}.
Definition res_status (n : nat) (b : body) : response := {| status := n; json := b |}.

(** ** Request bodies *)

Record Playbook := { name : option string }.

Record ChatBody := {
  cb_message : string;
  cb_sessionId : string;
  cb_fileData : option string;
  cb_mimeType : string;
  cb_sport : string;
  cb_position : string;
  cb_rules : list (string * string);
  cb_playbook : option Playbook
}.

Record ClipChatBody := { cc_clipId : nat; cc_message : string }.

(** ** Collections as lists of documents, in insertion order *)

(** The first document matching [q] is replaced by its image under [f]. *)
Fixpoint update_first {A} (q : A -> bool) (f : A -> A) (docs : list A) : list A :=
  match docs with
  | [] => []
  | d :: rest => if q d then f d :: rest else d :: update_first q f rest
  end.

(** The first document matching [q] is removed. *)
Fixpoint delete_first {A} (q : A -> bool) (docs : list A) : list A :=
  match docs with
  | [] => []
  | d :: rest => if q d then rest else d :: delete_first q rest
  end.

(** Every document matching [q] is removed. *)
Definition delete_all {A} (q : A -> bool) (docs : list A) : list A :=
  List.filter (fun d => negb (q d)) docs.

(** ** The server *)

Section Server.

Context (E : env).

(** *** Database operations

    Every operation is one round trip that the environment may reject; a
    rejected operation changes no document. *)

Definition db_op : M unit := fun w =>
  let w' := set_db_ops S w in
  match db_fault E (db_ops w) with
  | Some e => (Throw e, w')
  | None => (Ret tt, w')
  end.

Definition Session_findOne (q : Session.t -> bool) : M (option Session.t) :=
  db_op ;; gets (fun w => List.find q (sessions w)).

Definition Session_updateOne (q : Session.t -> bool) (f : Session.t -> Session.t) : M unit :=
  db_op ;; modify (set_sessions (update_first q f)).

Definition Session_deleteOne (q : Session.t -> bool) : M unit :=
  db_op ;; modify (set_sessions (delete_first q)).

(** [session.save()]: the stored document with the same [_id] is replaced. *)
Definition Session_save (s : Session.t) : M unit :=
  db_op ;;
  fun w =>
    if existsb (fun d => Session._id d =? Session._id s)%nat (sessions w)
    then (Ret tt,
          set_sessions (update_first (fun d => Session._id d =? Session._id s)%nat
                                     (fun _ => s)) w)
    else (Throw (Error "No document found for query"), w).

Definition Clip_create (mk : nat -> Clip.t) : M Clip.t :=
  db_op ;;
  fun w => let c := mk (next_id w) in
           (Ret c, set_next_id S (set_clips (fun docs => docs ++ [c]) w)).

Definition Clip_find (q : Clip.t -> bool) : M (list Clip.t) :=
  db_op ;; gets (fun w => List.filter q (clips w)).

Definition Clip_findOne (q : Clip.t -> bool) : M (option Clip.t) :=
  db_op ;; gets (fun w => List.find q (clips w)).

Definition Clip_updateOne (q : Clip.t -> bool) (f : Clip.t -> Clip.t) : M unit :=
  db_op ;; modify (set_clips (update_first q f)).

Definition Clip_deleteOne (q : Clip.t -> bool) : M unit :=
  db_op ;; modify (set_clips (delete_first q)).

Definition Clip_deleteMany (q : Clip.t -> bool) : M unit :=
  db_op ;; modify (set_clips (delete_all q)).

(** [clip.save()] *)
Definition Clip_save (c : Clip.t) : M unit :=
  db_op ;;
  fun w =>
    if existsb (fun d => Clip._id d =? Clip._id c)%nat (clips w)
    then (Ret tt,
          set_clips (update_first (fun d => Clip._id d =? Clip._id c)%nat
                                  (fun _ => c)) w)
    else (Throw (Error "No document found for query"), w).

(** *** The upload directory *)

Definition fs_writeFile (path : string) : M unit :=
  modify (set_files (fun fs => {[path]} ∪ fs)).

Definition fs_unlink (path : string) : M unit := fun w =>
  if bool_decide (path ∈ files w)
  then (Ret tt, set_files (fun fs => fs ∖ {[path]}) w)
  else (Throw (Error "ENOENT: no such file or directory"), w).

(** [p.catch(console.error)] *)
Definition catch_log (p : M unit) : M unit :=
  try_catch p (fun _ => ret tt).

(** *** Video storage *)

Definition cloudinary_uploader_upload (path : string) : M CloudUpload := fun w =>
  match cloudinary_upload E path with
  | inl cloud => (Ret cloud, set_cdn (fun vs => {[public_id cloud]} ∪ vs) w)
  | inr e => (Throw e, w)
  end.

Definition cloudinary_uploader_destroy (publicId : string) : M unit := fun w =>
  let w' := set_destroyed (fun log => log ++ [publicId]) w in
  match cloudinary_destroy E (length (destroyed w)) publicId with
  | Some e => (Throw e, w')
  | None => (Ret tt, set_cdn (fun vs => vs ∖ {[publicId]}) w')
  end.

(** *** File ingestion *)

Definition fileManager_uploadFile (path mimeType : string) : M GeminiUpload := fun w =>
  match gemini_upload E path mimeType with
  | inl up => (Ret up, w)
  | inr e => (Throw e, w)
  end.

Definition fileManager_getFile (name : string) : M File := fun w =>
  let w' := set_polls S w in
  match getFile E (polls w) name with
  | inl file => (Ret file, w')
  | inr e => (Throw e, w')
  end.

(** [await new Promise(r => setTimeout(r, ms))] *)
Definition sleep (ms : Z) : M unit := modify (set_now (fun t => (t + ms)%Z)).

(** [await Promise.all([a, b])]: both are started; when the first rejects
    the second still runs and its result is dropped. *)
Definition Promise_all2 {A B} (a : M A) (b : M B) : M (A * B) := fun w =>
  match a w with
  | (Ret x, w1) =>
      match b w1 with
      | (Ret y, w2) => (Ret (x, y), w2)
      | (Throw e, w2) => (Throw e, w2)
      | (Pending, w2) => (Pending, w2)
      end
  | (Throw e, w1) => (Throw e, snd (b w1))
  | (Pending, w1) => (Pending, w1)
  end.

(** *** [generateWithFallback] (server.js 44-61) *)

(** [genAI.getGenerativeModel({ model: modelName, ... }).generateContent(...)] *)
Definition model_generateContent (modelName : string) (parts : list Part) : M GenResult := fun w =>
  let w' := set_gen_log (fun log => log ++ [modelName]) w in
  match generateContent E (length (gen_log w)) modelName parts with
  | inl result => (Ret result, w')
  | inr e => (Throw e, w')
  end.

(** The [for] loop over the models still to try, with the value of
    [lastError] on entry, and the [throw] that follows it. *)
Fixpoint fallback_from (models : list string) (lastError : option error)
    (promptParts : list Part) : M GenResult :=
  match models with
  | [] =>
      throw (Error ("Analysis failed. Last error: "
                    +:+ Js.interpolate (message <$> lastError)))
  | modelName :: rest =>
      try_catch (model_generateContent modelName promptParts)
                (fun error => fallback_from rest (Some error) promptParts)
  end.

Definition generateWithFallback (promptParts : list Part) : M GenResult :=
  fallback_from MODEL_FALLBACK_LIST None promptParts.

(** *** [requireAuth] (server.js 104-107) *)

Definition requireAuth (userId : option string) (next : string -> M response) : M response :=
  match userId with
  | Some uid => if Js.truthy (Some uid) then next uid
                else ret (res_status 401 (JsonError "Unauthorized"))
  | None => ret (res_status 401 (JsonError "Unauthorized"))
  end.

(** *** [POST /api/delete-session] (server.js 140-153) *)

Definition delete_session (userId sessionId : string) : M response :=
  try_catch
    (Session_deleteOne (fun s => String.eqb (Session.sessionId s) sessionId
                                 && String.eqb (Session.owner s) userId) ;;
     clips <- Clip_find (fun c => String.eqb (Clip.sessionId c) sessionId
                                  && String.eqb (Clip.owner c) userId) ;;
     for_of clips (fun clip =>
       if Js.truthy (Clip.publicId clip)
       then cloudinary_uploader_destroy (default "" (Clip.publicId clip))
       else ret tt) ;;
     Clip_deleteMany (fun c => String.eqb (Clip.sessionId c) sessionId
                               && String.eqb (Clip.owner c) userId) ;;
     ret (res_json JsonSuccess))
    (fun e => ret (res_status 500 (JsonError "Delete failed"))).

(** *** [POST /api/update-clip] (server.js 164-169)

    [findOneAndUpdate], whose result the handler drops, changes the
    collection as [updateOne] does. *)

Definition update_clip (userId : string) (id : nat) (section : string) : M response :=
  try_catch
    (Clip_updateOne (fun c => (Clip._id c =? id)%nat && String.eqb (Clip.owner c) userId)
                    (Clip.set_section section) ;;
     ret (res_json JsonSuccess))
    (fun e => ret (res_status 500 (JsonError "Update failed"))).

(** *** [POST /api/save-snapshot] (server.js 214-219) *)

Definition save_snapshot (userId : string) (clipId : nat) (imageData : string) : M response :=
  try_catch
    (Clip_updateOne (fun c => (Clip._id c =? clipId)%nat && String.eqb (Clip.owner c) userId)
                    (Clip.set_snapshots (fun shots => shots ++ [imageData])) ;;
     ret (res_json JsonSuccess))
    (fun e => ret (res_status 500 (JsonError "Save failed"))).

(** *** [POST /api/delete-clip] (server.js 201-212) *)

Definition delete_clip (userId : string) (id : nat) : M response :=
  try_catch
    (clip <- Clip_findOne (fun c => (Clip._id c =? id)%nat
                                    && String.eqb (Clip.owner c) userId) ;;
     match clip with
     | Some clip =>
         (if Js.truthy (Clip.publicId clip)
          then cloudinary_uploader_destroy (default "" (Clip.publicId clip))
          else ret tt) ;;
         Clip_deleteOne (fun c => (Clip._id c =? id)%nat)
     | None => ret tt
     end ;;
     ret (res_json JsonSuccess))
    (fun e => ret (res_status 500 (JsonError "Delete failed"))).

(** *** [POST /api/clip-chat] (server.js 221-251) *)

Definition clip_chat_prompt (fullData : Analysis) (rosterContext historyText message : string)
    : string :=
  "
    ROLE: Elite Football Coordinator.
    CONTEXT: Clip Analysis.
    CLIP DATA: " +:+ JSON_stringify E fullData +:+ "
    ROSTER: " +:+ rosterContext +:+ "
    HISTORY: " +:+ historyText +:+ "
    QUESTION: " +:+ q message +:+ "
    INSTRUCTION: Concise, professional answer. Use **bold** for emphasis.
    ".

Definition clip_chat (userId : string) (req : ClipChatBody) : M response :=
  try_catch
    (clip <- Clip_findOne (fun c => (Clip._id c =? cc_clipId req)%nat
                                    && String.eqb (Clip.owner c) userId) ;;
     match clip with
     | None => ret (res_json (JsonReply "Analysis needed first."))
     | Some clip =>
         match Clip.fullData clip with
         | None => ret (res_json (JsonReply "Analysis needed first."))
         | Some fullData =>
             session <- Session_findOne (fun s =>
                          String.eqb (Session.sessionId s) (Clip.sessionId clip)
                          && String.eqb (Session.owner s) userId) ;;
             let rosterContext :=
               match session with
               | Some session => JSON_stringify_roster E (Session.roster session)
               | None => "[]"
               end in
             let chatHistory := Clip.chatHistory clip in
             let historyText :=
               Js.join nl (map (fun h => toUpperCase E (role h) +:+ ": " +:+ text h) chatHistory) in
             let prompt := clip_chat_prompt fullData rosterContext historyText (cc_message req) in
             result <- generateWithFallback [TextPart prompt] ;;
             let reply := response_text result in
             Clip_updateOne (fun c => (Clip._id c =? cc_clipId req)%nat)
               (Clip.set_chatHistory (fun log =>
                  log ++ [ {| role := "user"; text := cc_message req |};
                           {| role := "model"; text := reply |} ])) ;;
             ret (res_json (JsonReply reply))
         end
     end)
    (fun e => ret (res_status 500 (JsonError "Chat failed"))).

(** *** [POST /api/chat] (server.js 254-400) *)

(** [rulesContext] (server.js 261-267); [rules] is the list of entries of
    the object the request carries. *)
Definition rulesContext_of (rules : list (string * string)) : string :=
  if (0 <? length rules)%nat
  then fold_left
         (fun acc entry =>
            acc +:+ "- " +:+ toUpperCase E (fst entry) +:+ ": " +:+ snd entry +:+ nl)
         rules
         (nl +:+ "COORDINATOR RULES TO ENFORCE:" +:+ nl)
  else "".

(** [playbookContext] (server.js 269-272) *)
Definition playbookContext_of (playbook : option Playbook) : string :=
  match playbook with
  | Some pb =>
      if Js.truthy (name pb)
      then nl +:+ "REFERENCE PLAYBOOK: " +:+ Js.interpolate (name pb)
           +:+ " (Assume standard concepts apply unless specified)."
      else ""
  | None => ""
  end.

(** The text-only chat (server.js 275-281). *)
Definition chat_text (req : ChatBody) (rulesContext : string) : M response :=
  Session_updateOne (fun s => String.eqb (Session.sessionId s) (cb_sessionId req))
    (Session.set_history (fun h => h ++ [ {| role := "user"; text := cb_message req |} ])) ;;
  result <- generateWithFallback
              [TextPart ("ROLE: NFL Coach." +:+ nl +:+ "CONTEXT: " +:+ rulesContext +:+ nl
                         +:+ "USER: " +:+ cb_message req)] ;;
  let reply := response_text result in
  Session_updateOne (fun s => String.eqb (Session.sessionId s) (cb_sessionId req))
    (Session.set_history (fun h => h ++ [ {| role := "model"; text := reply |} ])) ;;
  ret (res_json (JsonReply reply)).

(** The document [Clip.create] is given when the upload begins
    (server.js 293-298); the schema supplies [createdAt]. *)
Definition placeholder_clip (userId : string) (req : ChatBody) (cloud : CloudUpload)
    (created : Z) (id : nat) : Clip.t :=
  {| Clip._id := id;
     Clip.owner := userId;
     Clip.sessionId := cb_sessionId req;
     Clip.sport := cb_sport req;
     Clip.title := Some "Analyzing...";
     Clip.formation := Some "...";
     Clip.o_formation := None;
     Clip.d_formation := None;
     Clip.section := "Inbox";
     Clip.videoUrl := Some (secure_url cloud);
     Clip.publicId := Some (public_id cloud);
     Clip.geminiFileUri := None;
     Clip.fullData := None;
     Clip.chatHistory := [];
     Clip.snapshots := [];
     Clip.createdAt := created |}.

(** Writing the temporary file, the two uploads and the placeholder
    (server.js 284-298). *)
Definition chat_upload (userId : string) (req : ChatBody) (tempPath : string)
    : M (GeminiUpload * Clip.t) :=
  fs_writeFile tempPath ;;
  both <- Promise_all2 (cloudinary_uploader_upload tempPath)
                       (fileManager_uploadFile tempPath (cb_mimeType req)) ;;
  let cloud := fst both in
  let uploaded := snd both in
  created <- gets now ;;
  savedClip <- Clip_create (placeholder_clip userId req cloud created) ;;
  ret (uploaded, savedClip).

(** The [while] loop of the ingestion poll (server.js 301-304), entered
    with the file last fetched. *)
Fixpoint poll_file (fuel : nat) (fileName : string) (file : File) : M File :=
  match state file with
  | PROCESSING =>
      match fuel with
      | 0 => fun w => (Pending, w)
      | S fuel' =>
          sleep 2000 ;;
          file' <- fileManager_getFile fileName ;;
          poll_file fuel' fileName file'
      end
  | _ => ret file
  end.

(** The poll and the check that follows it (server.js 300-305). *)
Definition await_ingestion (fuel : nat) (fileName : string) : M File :=
  file <- fileManager_getFile fileName ;;
  file <- poll_file fuel fileName file ;;
  if decide (state file = FAILED)
  then throw (Error "Video processing failed at Google.")
  else ret file.

(** [systemInstruction] (server.js 312-343) *)
Definition systemInstruction_of (position specificFocus rulesContext playbookContext
    rosterContext : string) : string :=
  nl +:+ "    ROLE: "
  +:+ (if String.eqb position "team" then "NFL Coordinator" else "Elite Position Coach")
  +:+ "." +:+ nl
  +:+ "    TASK: Analyze video clip. Focus: " +:+ specificFocus +:+ "." +:+ nl
  +:+ "    " +:+ nl
  +:+ "    " +:+ rulesContext +:+ nl
  +:+ "    " +:+ playbookContext +:+ nl
  +:+ nl
  +:+ "    ROSTER CONTEXT:" +:+ nl
  +:+ "    " +:+ rosterContext +:+ nl
  +:+ nl
  +:+ OUTPUT_FORMAT.

(** Loading the session, building the prompt and asking the models
    (server.js 307-348).  Reading [session.roster] of a missing session
    throws. *)
Definition chat_generate (userId : string) (req : ChatBody)
    (rulesContext playbookContext : string) (file : File) : M (Session.t * string) :=
  session <- Session_findOne (fun s => String.eqb (Session.sessionId s) (cb_sessionId req)
                                       && String.eqb (Session.owner s) userId) ;;
  match session with
  | None => throw (Error "Cannot read properties of null (reading 'roster')")
  | Some session =>
      let rosterContext :=
        Js.join nl (map (fun p => identifier p +:+ ": " +:+ Js.join ", " (weaknesses p))
                        (Session.roster session)) in
      let specificFocus :=
        Js.or_else (rubric (cb_position req)) (Js.interpolate (rubric "team")) in
      let systemInstruction :=
        systemInstruction_of (cb_position req) specificFocus rulesContext playbookContext
                             rosterContext in
      let prompt := [FilePart (cb_mimeType req) (uri file); TextPart systemInstruction] in
      result <- generateWithFallback prompt ;;
      ret (session, strip_fences E (response_text result))
  end.

(** [JSON.parse] with its local [catch] (server.js 350-361). *)
Definition parse_analysis (text : string) : Analysis :=
  match JSON_parse E text with
  | Some json =>
      match a_data json with
      | Some _ => json
      | None =>
          {| a_title := a_title json;
             a_data := Some {| o_formation := Some "Unknown"; d_formation := Some "Unknown" |};
             a_tactical_breakdown := a_tactical_breakdown json;
             a_scouting_report := a_scouting_report json;
             a_players_detected := a_players_detected json |}
      end
  | None => ANALYSIS_ERROR
  end.

(** [p.weakness ? [p.weakness] : []] (server.js 374); pushing
    [p.weakness] when it is truthy (server.js 369) appends the same list. *)
Definition weakness_of (p : DetectedPlayer) : list string :=
  match dp_weakness p with
  | Some weakness => if Js.truthy (Some weakness) then [weakness] else []
  | None => []
  end.

(** The body of the roster loop for one detected player
    (server.js 365-376); [today] is [new Date()]. *)
Definition merge_player (today : Z) (roster : list PlayerProfile) (p : DetectedPlayer)
    : list PlayerProfile :=
  match Js.findIndex (fun r => String.eqb (identifier r) (dp_identifier p)) roster with
  | Some idx =>
      alter (fun r =>
               {| identifier := identifier r;
                  position := position r;
                  grade := dp_grade p;
                  notes := notes r ++ [dp_observation p];
                  weaknesses := weaknesses r ++ weakness_of p;
                  last_updated := today |})
            idx roster
  | None =>
      roster ++ [ {| identifier := dp_identifier p;
                     position := dp_position p;
                     grade := dp_grade p;
                     notes := [dp_observation p];
                     weaknesses := weakness_of p;
                     last_updated := today |} ]
  end.

(** The roster loop (server.js 364-377). *)
Definition merge_roster (today : Z) (players : list DetectedPlayer)
    (roster : list PlayerProfile) : list PlayerProfile :=
  fold_left (merge_player today) players roster.

(** The guarded merge and [session.save()] (server.js 363-379). *)
Definition chat_merge (session : Session.t) (json : Analysis) : M unit :=
  match a_players_detected json with
  | Some (p :: rest) =>
      today <- gets now ;;
      Session_save (Session.set_roster
                      (merge_roster today (p :: rest) (Session.roster session)) session)
  | _ => ret tt
  end.

(** The fields the analysis sets on the clip (server.js 381-386). *)
Definition analysed_clip (savedClip : Clip.t) (json : Analysis) (data : Formation)
    (file : File) : Clip.t :=
  {| Clip._id := Clip._id savedClip;
     Clip.owner := Clip.owner savedClip;
     Clip.sessionId := Clip.sessionId savedClip;
     Clip.sport := Clip.sport savedClip;
     Clip.title := Some (Js.or_else (a_title json) "Untitled Clip");
     Clip.formation :=
       Some (Js.interpolate (o_formation data) +:+ " vs " +:+ Js.interpolate (d_formation data));
     Clip.o_formation := o_formation data;
     Clip.d_formation := d_formation data;
     Clip.section := Clip.section savedClip;
     Clip.videoUrl := Clip.videoUrl savedClip;
     Clip.publicId := Clip.publicId savedClip;
     Clip.geminiFileUri := Some (uri file);
     Clip.fullData := Some json;
     Clip.chatHistory := Clip.chatHistory savedClip;
     Clip.snapshots := Clip.snapshots savedClip;
     Clip.createdAt := Clip.createdAt savedClip |}.

(** Setting the fields and [savedClip.save()] (server.js 381-387). *)
Definition chat_persist (savedClip : Clip.t) (json : Analysis) (file : File) : M Clip.t :=
  match a_data json with
  | None => throw (Error "Cannot read properties of undefined (reading 'o_formation')")
  | Some data =>
      let savedClip := analysed_clip savedClip json data file in
      Clip_save savedClip ;;
      ret savedClip
  end.

(** The two history entries (server.js 389-390). *)
Definition chat_history (req : ChatBody) (json : Analysis) : M unit :=
  Session_updateOne (fun s => String.eqb (Session.sessionId s) (cb_sessionId req))
    (Session.set_history (fun h =>
       h ++ [ {| role := "user"; text := "Uploaded Video Analysis" |} ])) ;;
  Session_updateOne (fun s => String.eqb (Session.sessionId s) (cb_sessionId req))
    (Session.set_history (fun h =>
       h ++ [ {| role := "model"; text := JSON_stringify E json |} ])).

(** From the upload to the text of the model (server.js 284-348). *)
Definition chat_video_output (fuel : nat) (userId : string) (req : ChatBody)
    (rulesContext playbookContext tempPath : string)
    : M (Clip.t * File * Session.t * string) :=
  up <- chat_upload userId req tempPath ;;
  file <- await_ingestion fuel (file_name (fst up)) ;;
  gen <- chat_generate userId req rulesContext playbookContext file ;;
  ret (snd up, file, fst gen, snd gen).

(** From the text of the model to the response (server.js 350-393). *)
Definition chat_video_record (req : ChatBody) (tempPath : string)
    (savedClip : Clip.t) (file : File) (session : Session.t) (text : string) : M response :=
  let json := parse_analysis text in
  chat_merge session json ;;
  savedClip <- chat_persist savedClip json file ;;
  chat_history req json ;;
  catch_log (fs_unlink tempPath) ;;
  ret (res_json (JsonAnalysis (JSON_stringify E json) savedClip)).

Definition chat_video (fuel : nat) (userId : string) (req : ChatBody)
    (rulesContext playbookContext tempPath : string) : M response :=
  out <- chat_video_output fuel userId req rulesContext playbookContext tempPath ;;
  chat_video_record req tempPath (fst (fst (fst out))) (snd (fst (fst out)))
                    (snd (fst out)) (snd out).

(** The [catch] of the handler (server.js 395-399), with the value of
    [tempPath] when the exception arrives. *)
Definition chat_catch (tempPath : option string) (e : error) : M response :=
  match tempPath with
  | Some path => catch_log (fs_unlink path)
  | None => ret tt
  end ;;
  ret (res_status 500 (JsonError (Js.or_else (Some (message e)) "Analysis failed."))).

(** [path.join(UPLOAD_DIR, `upload_${Date.now()}.mp4`)] (server.js 285) *)
Definition tempPath_of (t : Z) : string :=
  UPLOAD_DIR +:+ "/upload_" +:+ Js.of_time t +:+ ".mp4".

(** The handler.  [tempPath] is [null] until the video branch assigns it,
    which it does before anything in that branch can throw. *)
Definition chat (fuel : nat) (userId : string) (req : ChatBody) : M response :=
  let rulesContext := rulesContext_of (cb_rules req) in
  let playbookContext := playbookContext_of (cb_playbook req) in
  if negb (Js.truthy (cb_fileData req))
  then try_catch (chat_text req rulesContext) (chat_catch None)
  else
    t <- gets now ;;
    let tempPath := tempPath_of t in
    try_catch (chat_video fuel userId req rulesContext playbookContext tempPath)
              (chat_catch (Some tempPath)).

End Server.

(** ** Vocabulary of the specifications *)

(** The world after [k] rounds of the poll loop: [k] sleeps of two seconds
    and [k] status queries. *)
Definition rounds (k : nat) (w : world) : world :=
  set_polls (fun n => n + k) (set_now (fun t => (t + 2000 * Z.of_nat k)%Z) w).

(** The world after the first status query and [k] rounds of the loop. *)
Definition waited (k : nat) (w : world) : world := rounds k (set_polls S w).

(** The [i]-th status query from world [w] on answers "still processing". *)
Definition processing_at (E : env) (fileName : string) (w : world) (i : nat) : Prop :=
  exists file, getFile E (polls w + i) fileName = inl file /\ state file = PROCESSING.

(** The identifiers a video-delete is due for: those of the clips that carry
    a stored video identifier, in the order of the clips. *)
Definition stored_videos (docs : list Clip.t) : list string :=
  docs ≫= fun clip => if Js.truthy (Clip.publicId clip)
                      then [default "" (Clip.publicId clip)]
                      else [].

(** The filter [{ sessionId, owner: userId }] on clips. *)
Definition clip_of (sessionId userId : string) (c : Clip.t) : bool :=
  String.eqb (Clip.sessionId c) sessionId && String.eqb (Clip.owner c) userId.

(** The clip a request names, as its owner sees it: the result of the
    lookup [{ _id: clipId, owner: userId }]. *)
Definition own_clip (clipId : nat) (userId : string) (w : world) : option Clip.t :=
  List.find (fun c => (Clip._id c =? clipId)%nat && String.eqb (Clip.owner c) userId) (clips w).

(** From world [w] on, the [i]-th call to a model fails whatever it is asked. *)
Definition fails_at (E : env) (w : world) (i : nat) : Prop :=
  forall modelName parts,
    exists e, generateContent E (length (gen_log w) + i) modelName parts = inr e.

(** From world [w] on, the [i]-th call to a model answers [result]. *)
Definition answers_at (E : env) (w : world) (i : nat) (result : GenResult) : Prop :=
  forall modelName parts,
    generateContent E (length (gen_log w) + i) modelName parts = inl result.

(** The question and the reply, as [clip-chat] appends them. *)
Definition exchange (question reply : string) (c : Clip.t) : Clip.t :=
  Clip.set_chatHistory
    (fun log => log ++ [ {| role := "user"; text := question |};
                         {| role := "model"; text := reply |} ]) c.

(** What a handler of clips must not lose track of: the clip documents,
    the videos in storage and the video-deletes requested. *)
Definition media (w : world) : list Clip.t * gset string * list string :=
  (clips w, cdn w, destroyed w).

(** Running [m] leaves the projection [f] of the world as it was, however
    [m] ends. *)
Definition preserves {X A} (f : world -> X) (m : M A) : Prop :=
  forall w, f (snd (m w)) = f w.

(** The projection [f] does not look at the sessions, the counters of
    calls, the log of model calls or the clock. *)
Definition media_only {X} (f : world -> X) : Prop :=
  (forall g w, f (set_db_ops g w) = f w)
  /\ (forall g w, f (set_sessions g w) = f w)
  /\ (forall g w, f (set_gen_log g w) = f w)
  /\ (forall g w, f (set_polls g w) = f w)
  /\ (forall g w, f (set_now g w) = f w).

(** Running [m] never leaves the caller waiting: it returns or throws. *)
Definition settles {A} (m : M A) : Prop :=
  forall w, fst (m w) <> Pending.

(** Every clip in the collection was created before the next identifier. *)
Definition fresh_ids (w : world) : Prop :=
  forall c, c ∈ clips w -> Clip._id c < next_id w.

(** The body of the [try] of the video branch, for the request [req] that
    arrives in world [w]. *)
Definition video_flow (E : env) (fuel : nat) (userId : string) (req : ChatBody)
    (w : world) : M response :=
  chat_video E fuel userId req (rulesContext_of E (cb_rules req))
             (playbookContext_of (cb_playbook req)) (tempPath_of (now w)).

(** The reading of "a failure after the placeholder was created leaves the
    placeholder in the collection": whenever the upload of this request
    succeeds and a later step throws, the request is answered with status
    500 and the placeholder document is among the clips. *)
Definition placeholder_kept (E : env) (fuel : nat) (userId : string) (req : ChatBody)
    (w : world) : Prop :=
  forall uploaded savedClip w1 e wt,
    chat_upload E userId req (tempPath_of (now w)) w = (Ret (uploaded, savedClip), w1) ->
    video_flow E fuel userId req w w = (Throw e, wt) ->
    exists r w',
      chat E fuel userId req w = (Ret r, w') /\ status r = 500 /\ savedClip ∈ clips w'.

(** The failure [e] of the video flow of [req], which leaves the world
    [wt], is that of a step that comes before [savedClip.save()] has
    succeeded: the ingestion poll (server.js 300-305), the lookup of the
    session and the call of the models (307-346), the save of the roster
    (363-379), or the save of the clip itself (381-387).  [w1] is the world
    in which the upload has left [uploaded] and [savedClip]. *)
Definition fails_before_save (E : env) (fuel : nat) (userId : string) (req : ChatBody)
    (uploaded : GeminiUpload) (savedClip : Clip.t) (w1 : world) (e : error) (wt : world)
    : Prop :=
  await_ingestion E fuel (file_name uploaded) w1 = (Throw e, wt)
  \/ exists file w2,
       await_ingestion E fuel (file_name uploaded) w1 = (Ret file, w2)
       /\ (chat_generate E userId req (rulesContext_of E (cb_rules req))
                         (playbookContext_of (cb_playbook req)) file w2 = (Throw e, wt)
           \/ exists session text w3,
                chat_generate E userId req (rulesContext_of E (cb_rules req))
                              (playbookContext_of (cb_playbook req)) file w2
                = (Ret (session, text), w3)
                /\ (chat_merge E session (parse_analysis E text) w3 = (Throw e, wt)
                    \/ exists w4,
                         chat_merge E session (parse_analysis E text) w3 = (Ret tt, w4)
                         /\ chat_persist E savedClip (parse_analysis E text) file w4
                            = (Throw e, wt))).

(** The failure [e] is that of one of the two history appends
    (server.js 389-390): every step before them has succeeded, on the
    ingested [file] and the [text] of the model, and [savedClip.save()] has
    stored [clip]. *)
Definition fails_after_save (E : env) (fuel : nat) (userId : string) (req : ChatBody)
    (uploaded : GeminiUpload) (savedClip : Clip.t) (w1 : world) (e : error) (wt : world)
    (file : File) (text : string) (clip : Clip.t) : Prop :=
  exists w2 session w3 w4 w5,
    await_ingestion E fuel (file_name uploaded) w1 = (Ret file, w2)
    /\ chat_generate E userId req (rulesContext_of E (cb_rules req))
                     (playbookContext_of (cb_playbook req)) file w2
       = (Ret (session, text), w3)
    /\ chat_merge E session (parse_analysis E text) w3 = (Ret tt, w4)
    /\ chat_persist E savedClip (parse_analysis E text) file w4 = (Ret clip, w5)
    /\ chat_history E req (parse_analysis E text) w5 = (Throw e, wt).

(** The documents that do not belong to [userId]. *)
Definition theirs (userId : string) (w : world) : list Session.t * list Clip.t :=
  (List.filter (fun s => negb (String.eqb (Session.owner s) userId)) (sessions w),
   List.filter (fun c => negb (String.eqb (Clip.owner c) userId)) (clips w)).

(** The documents of the other users are the same in [w'] as in [w]. *)
Definition others_untouched (userId : string) (w w' : world) : Prop :=
  theirs userId w' = theirs userId w.

(** No two clips share an [_id]. *)
Definition unique_ids (w : world) : Prop := NoDup (Clip._id <$> clips w).

(** ** Scenarios

    Concrete environments and worlds on which the handlers are run. *)

Module Scenario.

(** [s.toUpperCase()] on the letters [a] to [z]. *)
Fixpoint upper (s : string) : string :=
  match s with
  | EmptyString => EmptyString
  | String c rest =>
      let n := nat_of_ascii c in
      String (if (97 <=? n)%nat && (n <=? 122)%nat then ascii_of_nat (n - 32) else c)
             (upper rest)
  end.

(** The text of a JSON object with the given members. *)
Definition object (members : list string) : string := "{" +:+ Js.join "," members +:+ "}".
Definition member (key value : string) : string := q key +:+ ":" +:+ value.
Definition array (items : list string) : string := "[" +:+ Js.join "," items +:+ "]".

(** The members that are present, each printed by [print]. *)
Definition present {A} (key : string) (print : A -> string) (v : option A) : list string :=
  match v with
  | Some a => [member key (print a)]
  | None => []
  end.

(** [JSON.stringify] of an analysis whose strings need no escape. *)
Definition stringify (a : Analysis) : string :=
  object
    (present "title" q (a_title a)
     ++ present "data"
          (fun d => object (present "o_formation" q (o_formation d)
                            ++ present "d_formation" q (d_formation d)))
          (a_data a)
     ++ present "tactical_breakdown"
          (fun kvs => object (map (fun kv => member (fst kv) (snd kv)) kvs))
          (a_tactical_breakdown a)
     ++ present "scouting_report"
          (fun r => object (present "summary" q (summary r)
                            ++ map (fun kv => member (fst kv) (snd kv)) (report_rest r)))
          (a_scouting_report a)
     ++ present "players_detected"
          (fun ps => array (map (fun p =>
             object ([member "identifier" (q (dp_identifier p));
                      member "position" (q (dp_position p));
                      member "grade" (q (dp_grade p));
                      member "observation" (q (dp_observation p))]
                     ++ present "weakness" q (dp_weakness p))) ps))
          (a_players_detected a)).

(** The roster as the prompt of [clip-chat] shows it; identifiers and dates
    of the entries are not printed. *)
Definition stringify_roster (roster : list PlayerProfile) : string :=
  array (map (fun r =>
    object [member "identifier" (q (identifier r));
            member "position" (q (position r));
            member "grade" (q (grade r));
            member "notes" (array (map q (notes r)));
            member "weaknesses" (array (map q (weaknesses r)))]) roster).

(** An analysis the model may return, and its text. *)
Definition mesh : Analysis :=
  {| a_title := Some "Mesh vs Cover 3"; a_data := None; a_tactical_breakdown := None;
     a_scouting_report := None; a_players_detected := None |}.

Definition mesh_text : string := stringify mesh.

(** An environment given by its three scripts.  The storage service accepts
    every request and stores the upload of a path [p] under [p];
    [JSON.parse] accepts the text [mesh_text] and no other; the texts at
    hand have no code fence and no space around them. *)
Definition scripted (faults : nat -> option error)
    (gen : nat -> string -> GenResult + error) (poll : nat -> File + error) : env :=
  {| db_fault := faults;
     generateContent := fun n modelName _ => gen n modelName;
     getFile := fun n _ => poll n;
     cloudinary_upload := fun path =>
       inl {| secure_url := "https://cdn/" +:+ path; public_id := "vantage_vision/" +:+ path |};
     cloudinary_destroy := fun _ _ => None;
     gemini_upload := fun _ _ => inl {| file_name := "files/abc" |};
     JSON_parse := fun t => if String.eqb t mesh_text then Some mesh else None;
     JSON_stringify := stringify;
     JSON_stringify_roster := stringify_roster;
     toUpperCase := upper;
     strip_fences := fun s => s |}.

Definition no_fault : nat -> option error := fun _ => None.
Definition active : nat -> File + error :=
  fun _ => inl {| state := ACTIVE; uri := "gemini://files/abc" |}.

(** The first two models fail, the third answers with a piece of advice. *)
Definition advice : string := "Four Verticals.".

Definition third_answers : nat -> string -> GenResult + error :=
  fun n _ =>
    match n with
    | 0 => inr (Error "503 overloaded")
    | 1 => inr (Error "429 quota")
    | _ => inl {| response_text := advice |}
    end.

(** The first model answers with the analysis [mesh]. *)
Definition analysed : nat -> string -> GenResult + error :=
  fun _ _ => inl {| response_text := mesh_text |}.

(** No model answers. *)
Definition none_answers : nat -> string -> GenResult + error :=
  fun n modelName => inr (Error (modelName +:+ " unavailable")).

(** The file is reported as processing twice, then as failed. *)
Definition fails_after_two : nat -> File + error :=
  fun n =>
    match n with
    | 0 | 1 => inl {| state := PROCESSING; uri := "gemini://files/abc" |}
    | _ => inl {| state := FAILED; uri := "gemini://files/abc" |}
    end.

(** The file is reported as processing for ever. *)
Definition stuck : nat -> File + error :=
  fun _ => inl {| state := PROCESSING; uri := "gemini://files/abc" |}.

(** A roster of one quarterback, a detected player already on it and one
    who is not. *)
Definition squad : list PlayerProfile :=
  [ {| identifier := "QB #12"; position := "QB"; grade := "B";
       notes := ["Holds the ball"]; weaknesses := ["Footwork"]; last_updated := 1000 |} ].

Definition known : DetectedPlayer :=
  {| dp_identifier := "QB #12"; dp_position := "QB"; dp_grade := "A";
     dp_observation := "Late read"; dp_weakness := Some "Eyes" |}.

Definition fresh : DetectedPlayer :=
  {| dp_identifier := "WR #80"; dp_position := "WR"; dp_grade := "C";
     dp_observation := "Rounded break"; dp_weakness := None |}.

(** A clip with the given identity, owner, session, stored video and
    analysis, in the default section. *)
Definition clip_doc (id : nat) (owner sessionId : string) (publicId : option string)
    (fullData : option Analysis) : Clip.t :=
  {| Clip._id := id; Clip.owner := owner; Clip.sessionId := sessionId;
     Clip.sport := "football"; Clip.title := Some "Play"; Clip.formation := Some "...";
     Clip.o_formation := None; Clip.d_formation := None; Clip.section := "Inbox";
     Clip.videoUrl := None; Clip.publicId := publicId; Clip.geminiFileUri := None;
     Clip.fullData := fullData; Clip.chatHistory := []; Clip.snapshots := [];
     Clip.createdAt := 1000 |}.

Definition session_doc (id : nat) (owner sessionId : string) : Session.t :=
  {| Session._id := id; Session.sessionId := sessionId; Session.owner := owner;
     Session.title := "New Session"; Session.type := "team"; Session.sport := "football";
     Session.history := []; Session.roster := squad |}.

(** Two users.  [user_a] owns the session [sess_1] with an analysed clip and
    a clip without analysis and without stored video; [user_b] owns the
    session [sess_2] and a clip that carries the session identifier of
    [user_a]. *)
Definition library : world :=
  {| sessions := [session_doc 1 "user_a" "sess_1"; session_doc 2 "user_b" "sess_2"];
     clips := [clip_doc 3 "user_a" "sess_1" (Some "vantage_vision/a1") (Some ANALYSIS_ERROR);
               clip_doc 4 "user_a" "sess_1" None None;
               clip_doc 5 "user_b" "sess_1" (Some "vantage_vision/b1") None];
     next_id := 6; db_ops := 0; files := ∅;
     cdn := {["vantage_vision/a1"]} ∪ {["vantage_vision/b1"]};
     destroyed := []; gen_log := []; polls := 0; now := 1700000000000 |}.

(** Only the database operation number [n] is rejected. *)
Definition fault_at (n : nat) : nat -> option error :=
  fun i => if (i =? n)%nat then Some (Error "connection lost") else None.

(** The model answers at once with text that is not JSON. *)
Definition garbled : nat -> string -> GenResult + error :=
  fun _ _ => inl {| response_text := "I cannot watch videos" |}.

(** A video sent by [user_a] to the session [sess_1], and a text message
    sent to the same session. *)
Definition video_request : ChatBody :=
  {| cb_message := ""; cb_sessionId := "sess_1"; cb_fileData := Some "AAAA";
     cb_mimeType := "video/mp4"; cb_sport := "football"; cb_position := "qb";
     cb_rules := []; cb_playbook := None |}.

Definition text_request : ChatBody :=
  {| cb_message := "What beats Cover 3?"; cb_sessionId := "sess_1"; cb_fileData := None;
     cb_mimeType := ""; cb_sport := "football"; cb_position := "team";
     cb_rules := []; cb_playbook := None |}.

(** The environment in which nothing fails on the way to the third model. *)
Definition quiet : env := scripted no_fault third_answers active.

(** The model answers with text that is not JSON; no model answers; the
    database rejects its fourth operation. *)
Definition garbled_env : env := scripted no_fault garbled active.
Definition silent_env : env := scripted no_fault none_answers active.
Definition flaky_env : env := scripted (fault_at 3) analysed active.

(** What the storage service answers to the upload of [video_request], and
    the placeholder the handler creates for it in [library]. *)
Definition stored : CloudUpload :=
  {| secure_url := "https://cdn/temp_uploads/upload_1700000000000.mp4";
     public_id := "vantage_vision/temp_uploads/upload_1700000000000.mp4" |}.

Definition pending_clip : Clip.t :=
  placeholder_clip "user_a" video_request stored 1700000000000 6.

Definition empty_world : world :=
  {| sessions := []; clips := []; next_id := 0; db_ops := 0; files := ∅; cdn := ∅;
     destroyed := []; gen_log := []; polls := 0; now := 1700000000000 |}.

End Scenario.

(** ** The handlers of sessions and the search

    [create-session], [sessions], [session/:id] and [search]
    (server.js 114-138 and 155-162) send documents instead of a status
    line. *)

(** One entry of the list of sessions: [{ id, title, type }]. *)
Record SessionItem := { item_id : string; item_title : string; item_type : string }.

Inductive data :=
| DataError (error : string)                                     (* { error } *)
| DataSession (session : Session.t)                              (* the document *)
| DataSessions (items : list SessionItem)                        (* [{ id, title, type }] *)
| DataView (history : list Turn) (roster : list PlayerProfile)   (* { history, roster } *)
| DataClips (clips : list Clip.t).                               (* the documents *)

Record data_response := { d_status : nat; d_json : data }.

Definition send (b : data) : data_response := {| d_status := 200; d_json := b |}.
Definition send_status (n : nat) (b : data) : data_response := {| d_status := n; d_json := b |}.

(** The body of [create-session]. *)
Record CreateBody := { cr_title : option string; cr_type : option string }.

(** [.sort({ _id: -1 })]: the later document first. *)
Definition newer_first (a b : Session.t) : Prop := Session._id b <= Session._id a.

Global Instance newer_first_dec a b : Decision (newer_first a b).
Proof. unfold newer_first. apply _. Defined.

(** [.sort({ section: 1, createdAt: -1 })]: by section in the order of the
    bytes of the strings, and within a section the later clip first.  The
    order in which the database returns clips that agree on both keys is
    not fixed by the query; the sort below keeps them as they are stored. *)
Definition by_section (a b : Clip.t) : Prop :=
  match String.compare (Clip.section a) (Clip.section b) with
  | Lt => True
  | Eq => (Clip.createdAt b <= Clip.createdAt a)%Z
  | Gt => False
  end.

Global Instance by_section_dec a b : Decision (by_section a b).
Proof. unfold by_section. destruct (String.compare _ _); apply _. Defined.

Definition item_of (s : Session.t) : SessionItem :=
  {| item_id := Session.sessionId s; item_title := Session.title s;
     item_type := Session.type s |}.

(** The filter of [sessions]: [{ owner }], and [type] when the query
    carries one. *)
Definition listed (userId : string) (type : option string) (s : Session.t) : bool :=
  String.eqb (Session.owner s) userId
  && (if Js.truthy type then String.eqb (Session.type s) (default "" type) else true).

(** The filter [{ owner, sessionId }] of [search]. *)
Definition searched (userId sessionId : string) (c : Clip.t) : bool :=
  String.eqb (Clip.owner c) userId && String.eqb (Clip.sessionId c) sessionId.

(** The document [Session.create] is given (server.js 116-119). *)
Definition new_session (userId : string) (req : CreateBody) (t : Z) (id : nat) : Session.t :=
  {| Session._id := id;
     Session.sessionId := "sess_" +:+ Js.of_time t;
     Session.owner := userId;
     Session.title := Js.or_else (cr_title req) "New Session";
     Session.type := Js.or_else (cr_type req) "team";
     Session.sport := "football";
     Session.history := [];
     Session.roster := [] |}.

Section Sessions.

Context (E : env).

Definition Session_create (mk : nat -> Session.t) : M Session.t :=
  db_op E ;;
  fun w => let s := mk (next_id w) in
           (Ret s, set_next_id S (set_sessions (fun docs => docs ++ [s]) w)).

Definition Session_find (q : Session.t -> bool) : M (list Session.t) :=
  db_op E ;; gets (fun w => List.filter q (sessions w)).

(** *** [POST /api/create-session] (server.js 114-122) *)

Definition create_session (userId : string) (req : CreateBody) : M data_response :=
  try_catch
    (t <- gets now ;;
     session <- Session_create (new_session userId req t) ;;
     ret (send (DataSession session)))
    (fun e => ret (send_status 500 (DataError (message e)))).

(** *** [GET /api/sessions] (server.js 124-131) *)

Definition list_sessions (userId : string) (type : option string) : M data_response :=
  try_catch
    (sessions <- Session_find (listed userId type) ;;
     let sessions := merge_sort newer_first sessions in
     ret (send (DataSessions (map item_of sessions))))
    (fun e => ret (send (DataSessions []))).

(** *** [GET /api/session/:id] (server.js 133-138) *)

Definition get_session (userId id : string) : M data_response :=
  try_catch
    (session <- Session_findOne E (fun s => String.eqb (Session.sessionId s) id
                                            && String.eqb (Session.owner s) userId) ;;
     ret (send (DataView (from_option Session.history [] session)
                         (from_option Session.roster [] session))))
    (fun e => ret (send (DataView [] []))).

(** *** [GET /api/search] (server.js 155-162) *)

Definition search (userId : string) (sessionId : option string) : M data_response :=
  try_catch
    (if negb (Js.truthy sessionId)
     then ret (send (DataClips []))
     else
       clips <- Clip_find E (searched userId (default "" sessionId)) ;;
       ret (send (DataClips (merge_sort by_section clips))))
    (fun e => ret (send (DataClips []))).

End Sessions.

(** ** The steps of the handlers, by name *)

(** The body of the loop of [delete-session] over the clips of the session
    (server.js 147). *)
Definition destroy_video (E : env) (clip : Clip.t) : M unit :=
  if Js.truthy (Clip.publicId clip)
  then cloudinary_uploader_destroy E (default "" (Clip.publicId clip))
  else ret tt.

(** The filter [{ sessionId, owner: userId }] on sessions. *)
Definition session_of (sessionId userId : string) (s : Session.t) : bool :=
  String.eqb (Session.sessionId s) sessionId && String.eqb (Session.owner s) userId.

(** ** Outages

    Environments in which one of the external services rejects every
    request; the rest is as in the environment given. *)

Module Outage.

Definition storage_rejects_delete (E : env) : env :=
  {| db_fault := db_fault E; generateContent := generateContent E; getFile := getFile E;
     cloudinary_upload := cloudinary_upload E;
     cloudinary_destroy := fun _ _ => Some (Error "storage unavailable");
     gemini_upload := gemini_upload E; JSON_parse := JSON_parse E;
     JSON_stringify := JSON_stringify E; JSON_stringify_roster := JSON_stringify_roster E;
     toUpperCase := toUpperCase E; strip_fences := strip_fences E |}.

Definition storage_rejects_upload (E : env) : env :=
  {| db_fault := db_fault E; generateContent := generateContent E; getFile := getFile E;
     cloudinary_upload := fun _ => inr (Error "storage unavailable");
     cloudinary_destroy := cloudinary_destroy E;
     gemini_upload := gemini_upload E; JSON_parse := JSON_parse E;
     JSON_stringify := JSON_stringify E; JSON_stringify_roster := JSON_stringify_roster E;
     toUpperCase := toUpperCase E; strip_fences := strip_fences E |}.

Definition ingestion_rejects_upload (E : env) : env :=
  {| db_fault := db_fault E; generateContent := generateContent E; getFile := getFile E;
     cloudinary_upload := cloudinary_upload E;
     cloudinary_destroy := cloudinary_destroy E;
     gemini_upload := fun _ _ => inr (Error "ingestion unavailable");
     JSON_parse := JSON_parse E;
     JSON_stringify := JSON_stringify E; JSON_stringify_roster := JSON_stringify_roster E;
     toUpperCase := toUpperCase E; strip_fences := strip_fences E |}.

End Outage.

(** The filter [{ sessionId }] of the history appends of [chat]
    (server.js 276, 279, 389, 390). *)
Definition session_named (sessionId : string) (s : Session.t) : bool :=
  String.eqb (Session.sessionId s) sessionId.

(** [$push: { history: turn }] *)
Definition push_turn (turn : Turn) (s : Session.t) : Session.t :=
  Session.set_history (fun h => h ++ [turn]) s.

(** The prompt of the text-only chat (server.js 277). *)
Definition text_prompt (E : env) (req : ChatBody) : list Part :=
  [TextPart ("ROLE: NFL Coach." +:+ nl +:+ "CONTEXT: " +:+ rulesContext_of E (cb_rules req)
             +:+ nl +:+ "USER: " +:+ cb_message req)].

(** The world when the two uploads of a video are done and its placeholder
    is created (server.js 286-298). *)
Definition uploaded_world (userId : string) (req : ChatBody) (cloud : CloudUpload)
    (w : world) : world :=
  set_next_id S
    (set_clips (fun docs => docs ++ [placeholder_clip userId req cloud (now w) (next_id w)])
       (set_db_ops S
          (set_cdn (fun vs => {[public_id cloud]} ∪ vs)
             (set_files (fun fs => {[tempPath_of (now w)]} ∪ fs) w)))).

(** The uploads of the video of [req] are accepted, the placeholder is
    created, and the ingested file is reported as [file], not in
    processing any more, after [k] rounds of the poll loop. *)
Definition ingested (E : env) (fuel : nat) (req : ChatBody) (w : world)
    (cloud : CloudUpload) (file : File) (k : nat) : Prop :=
  exists uploaded,
    cloudinary_upload E (tempPath_of (now w)) = inl cloud
    /\ gemini_upload E (tempPath_of (now w)) (cb_mimeType req) = inl uploaded
    /\ db_fault E (db_ops w) = None
    /\ k <= fuel
    /\ (forall i, i < k -> processing_at E (file_name uploaded) w i)
    /\ getFile E (polls w + k) (file_name uploaded) = inl file
    /\ state file = ACTIVE.

(** The sessions after the guarded roster merge and [session.save()]
    (server.js 363-379) of the session document [session]. *)
Definition roster_saved (today : Z) (session : Session.t) (json : Analysis)
    (docs : list Session.t) : list Session.t :=
  match a_players_detected json with
  | Some (p :: rest) =>
      update_first (fun d => (Session._id d =? Session._id session)%nat)
        (fun _ => Session.set_roster
                    (merge_roster today (p :: rest) (Session.roster session)) session)
        docs
  | _ => docs
  end.

(** The two history entries of an analysed video (server.js 389-390). *)
Definition analysis_logged (E : env) (sessionId : string) (json : Analysis)
    (docs : list Session.t) : list Session.t :=
  update_first (session_named sessionId)
    (push_turn {| role := "model"; text := JSON_stringify E json |})
    (update_first (session_named sessionId)
       (push_turn {| role := "user"; text := "Uploaded Video Analysis" |}) docs).

(** ** A clip with players

    An environment in which nothing fails and the first model answers with
    an analysis that names two players, one of them on the roster. *)

Module Film.

Definition scouted : Analysis :=
  {| a_title := None;
     a_data := Some {| o_formation := Some "Shotgun"; d_formation := Some "Cover 3" |};
     a_tactical_breakdown := None;
     a_scouting_report := None;
     a_players_detected := Some [Scenario.known; Scenario.fresh] |}.

Definition scouted_text : string := Scenario.stringify scouted.

Definition scouting_env : env :=
  {| db_fault := Scenario.no_fault;
     generateContent := fun _ _ _ => inl {| response_text := scouted_text |};
     getFile := fun n _ => Scenario.active n;
     cloudinary_upload := fun path =>
       inl {| secure_url := "https://cdn/" +:+ path; public_id := "vantage_vision/" +:+ path |};
     cloudinary_destroy := fun _ _ => None;
     gemini_upload := fun _ _ => inl {| file_name := "files/abc" |};
     JSON_parse := fun t => if String.eqb t scouted_text then Some scouted else None;
     JSON_stringify := Scenario.stringify;
     JSON_stringify_roster := Scenario.stringify_roster;
     toUpperCase := Scenario.upper;
     strip_fences := fun s => s |}.

(** A second session of [user_a], created after the others, and clips
    filed in two sections at different times. *)
Definition practice : Session.t :=
  {| Session._id := 7; Session.sessionId := "sess_7"; Session.owner := "user_a";
     Session.title := "Practice"; Session.type := "qb"; Session.sport := "football";
     Session.history := []; Session.roster := [] |}.

Definition filed (id : nat) (owner section : string) (createdAt : Z) : Clip.t :=
  {| Clip._id := id; Clip.owner := owner; Clip.sessionId := "sess_1";
     Clip.sport := "football"; Clip.title := Some "Play"; Clip.formation := Some "...";
     Clip.o_formation := None; Clip.d_formation := None; Clip.section := section;
     Clip.videoUrl := None; Clip.publicId := None; Clip.geminiFileUri := None;
     Clip.fullData := None; Clip.chatHistory := []; Clip.snapshots := [];
     Clip.createdAt := createdAt |}.

Definition season : world :=
  {| sessions := [Scenario.session_doc 1 "user_a" "sess_1";
                  Scenario.session_doc 2 "user_b" "sess_2"; practice];
     clips := [filed 3 "user_a" "Inbox" 1000; filed 4 "user_a" "Inbox" 2000;
               filed 5 "user_b" "Blitz" 1500; filed 8 "user_a" "Blitz" 500];
     next_id := 9; db_ops := 0; files := ∅; cdn := ∅;
     destroyed := []; gen_log := []; polls := 0; now := 1700000000000 |}.

End Film.

(** * Verification *)

(** ** The monad *)

Section MonadFacts.

Context {A B : Type}.

Lemma bind_ret_inv (m : M A) (k : A -> M B) w b w' :
  bind m k w = (Ret b, w') ->
  exists a w1, m w = (Ret a, w1) /\ k a w1 = (Ret b, w').
Proof.
  unfold bind. destruct (m w) as [[a|e|] w1]; intros H; try discriminate.
  by exists a, w1.
Qed.

Lemma bind_ret_eq (m : M A) (k : A -> M B) w a w1 :
  m w = (Ret a, w1) -> bind m k w = k a w1.
Proof. unfold bind. by intros ->. Qed.

Lemma bind_throw_eq (m : M A) (k : A -> M B) w e w1 :
  m w = (Throw e, w1) -> bind m k w = (Throw e, w1).
Proof. unfold bind. by intros ->. Qed.

Lemma bind_pending_eq (m : M A) (k : A -> M B) w w1 :
  m w = (Pending, w1) -> bind m k w = (Pending, w1).
Proof. unfold bind. by intros ->. Qed.

Lemma bind_throw_inv (m : M A) (k : A -> M B) w e w' :
  bind m k w = (Throw e, w') ->
  m w = (Throw e, w') \/ exists a w1, m w = (Ret a, w1) /\ k a w1 = (Throw e, w').
Proof.
  unfold bind. destruct (m w) as [[a|e1|] w1]; intros H.
  - right. by exists a, w1.
  - injection H as -> ->. by left.
  - discriminate.
Qed.

(** A run whose outcome is known, written as a pair. *)
Lemma run_eq (p : outcome A * world) (o : outcome A) : fst p = o -> p = (o, snd p).
Proof. intros <-. apply surjective_pairing. Qed.

Lemma bind_assoc {C} (m : M A) (k : A -> M B) (h : B -> M C) w :
  bind (bind m k) h w = bind m (fun a => bind (k a) h) w.
Proof. unfold bind. by destruct (m w) as [[a|e|] w1]. Qed.

End MonadFacts.

(** ** [generateWithFallback] *)

Section Fallback.

Context (E : env).

Lemma set_gen_log_app (w : world) (xs ys : list string) :
  set_gen_log (fun log => log ++ ys) (set_gen_log (fun log => log ++ xs) w)
  = set_gen_log (fun log => log ++ xs ++ ys) w.
Proof. unfold set_gen_log; simpl. by rewrite <- app_assoc. Qed.

Lemma set_gen_log_nil (w : world) : set_gen_log (fun log => log ++ []) w = w.
Proof. destruct w; unfold set_gen_log; simpl. by rewrite app_nil_r. Qed.

(** The loop stops at the first model that answers: it has then called
    the models before it and that one, once each and in order. *)
Lemma fallback_from_success models lastError parts w n result :
  (forall i modelName, i < n -> models !! i = Some modelName ->
     exists e, generateContent E (length (gen_log w) + i) modelName parts = inr e) ->
  (exists modelName, models !! n = Some modelName /\
     generateContent E (length (gen_log w) + n) modelName parts = inl result) ->
  fallback_from E models lastError parts w
  = (Ret result, set_gen_log (fun log => log ++ take (S n) models) w).
Proof.
  revert lastError w n. induction models as [|m rest IH]; intros lastError w n Hfail Hok.
  - destruct Hok as (? & Hm & _). by rewrite lookup_nil in Hm.
  - simpl. unfold try_catch, model_generateContent.
    destruct n as [|n].
    + destruct Hok as (m' & Hm & Hok). simpl in Hm. injection Hm as <-.
      rewrite Nat.add_0_r in Hok. rewrite Hok. by rewrite take_0.
    + destruct (Hfail 0 m) as [e He]; [lia|done|].
      rewrite Nat.add_0_r in He. rewrite He.
      rewrite (IH (Some e) _ n).
      * by rewrite set_gen_log_app.
      * intros i m' Hi Hm'. destruct (Hfail (S i) m') as [e' He']; [lia|done|].
        exists e'. simpl. rewrite length_app. simpl.
        by replace (length (gen_log w) + 1 + i) with (length (gen_log w) + S i) by lia.
      * destruct Hok as (m' & Hm' & Hok). exists m'. split; [done|].
        simpl. rewrite length_app. simpl.
        by replace (length (gen_log w) + 1 + n) with (length (gen_log w) + S n) by lia.
Qed.

(** When no model answers the loop has called each of them once, in
    order, and throws the message of the failure it saw last. *)
Lemma fallback_from_failure models lastError parts w :
  (forall i modelName, models !! i = Some modelName ->
     exists e, generateContent E (length (gen_log w) + i) modelName parts = inr e) ->
  exists final,
    fallback_from E models lastError parts w
    = (Throw (Error ("Analysis failed. Last error: " +:+ Js.interpolate (message <$> final))),
       set_gen_log (fun log => log ++ models) w)
    /\ match last models with
       | Some modelName =>
           final = match generateContent E (length (gen_log w) + (length models - 1))
                                         modelName parts with
                   | inr e => Some e
                   | inl _ => None
                   end
       | None => final = lastError
       end.
Proof.
  revert lastError w. induction models as [|m rest IH]; intros lastError w Hfail.
  - exists lastError. simpl. unfold throw. by rewrite set_gen_log_nil.
  - simpl fallback_from. unfold try_catch, model_generateContent.
    destruct (Hfail 0 m) as [e He]; [done|].
    rewrite Nat.add_0_r in He. rewrite He.
    destruct (IH (Some e) (set_gen_log (fun log => log ++ [m]) w)) as (final & Hrun & Hlast).
    { intros i m' Hm'. destruct (Hfail (S i) m') as [e' He']; [done|].
      exists e'. simpl. rewrite length_app. simpl.
      by replace (length (gen_log w) + 1 + i) with (length (gen_log w) + S i) by lia. }
    exists final. split.
    + by rewrite Hrun, set_gen_log_app.
    + destruct rest as [|m2 rest'].
      * simpl in *. subst final. rewrite Nat.add_0_r, He. reflexivity.
      * change (last (m :: m2 :: rest')) with (last (m2 :: rest')).
        destruct (last (m2 :: rest')) as [ml|] eqn:Hl; [|by apply last_None in Hl].
        rewrite Hlast. simpl. rewrite length_app. simpl.
        by replace (length (gen_log w) + 1 + (length rest' - 0))
          with (length (gen_log w) + S (length rest')) by lia.
Qed.

(** Whatever the models answer, the loop ends, and all it changes in the
    world is the log of the calls it made. *)
Lemma fallback_from_frame models : forall lastError parts w,
  exists called,
    snd (fallback_from E models lastError parts w)
    = set_gen_log (fun log => log ++ called) w
    /\ fst (fallback_from E models lastError parts w) <> Pending.
Proof.
  induction models as [|m rest IH]; intros lastError parts w.
  - exists []. simpl. by rewrite set_gen_log_nil.
  - simpl. unfold try_catch, model_generateContent.
    destruct (generateContent E _ m parts) as [result|e].
    + exists [m]. by simpl.
    + destruct (IH (Some e) parts (set_gen_log (fun log => log ++ [m]) w))
        as (called & Hw & Hout).
      exists (m :: called). rewrite Hw, set_gen_log_app. by split.
Qed.

Lemma generateWithFallback_frame parts w :
  exists called,
    snd (generateWithFallback E parts w) = set_gen_log (fun log => log ++ called) w
    /\ fst (generateWithFallback E parts w) <> Pending.
Proof. apply fallback_from_frame. Qed.

End Fallback.

(** C2.  [generateWithFallback] tries the configured models in their fixed
    order, one call each.  If the first [n] calls fail and the next one
    answers, it returns exactly that answer and the calls made are those
    [n + 1] models and no others; if every call fails it has called each
    model once and throws [Analysis failed. Last error: ] followed by the
    message of the failure of the last model. *)
Theorem generateWithFallback_spec (E : env) (promptParts : list Part) (w : world) :
  let attempt i :=
    generateContent E (length (gen_log w) + i) (nth i MODEL_FALLBACK_LIST "") promptParts in
  (forall n result,
      n < length MODEL_FALLBACK_LIST ->
      (forall i, i < n -> exists e, attempt i = inr e) ->
      attempt n = inl result ->
      generateWithFallback E promptParts w
      = (Ret result, set_gen_log (fun log => log ++ take (S n) MODEL_FALLBACK_LIST) w))
  /\ (forall e,
      (forall i, i < length MODEL_FALLBACK_LIST -> exists e', attempt i = inr e') ->
      attempt (length MODEL_FALLBACK_LIST - 1) = inr e ->
      generateWithFallback E promptParts w
      = (Throw (Error ("Analysis failed. Last error: " +:+ message e)),
         set_gen_log (fun log => log ++ MODEL_FALLBACK_LIST) w)).
Proof.
  intros attempt. split.
  - intros n result Hn Hfail Hok. unfold generateWithFallback.
    apply fallback_from_success.
    + intros i m Hi Hm. destruct (Hfail i Hi) as [e He]. exists e.
      unfold attempt in He. by rewrite (nth_lookup_Some _ _ _ _ Hm) in He.
    + destruct (lookup_lt_is_Some_2 MODEL_FALLBACK_LIST n Hn) as [m Hm].
      exists m. split; [done|].
      unfold attempt in Hok. by rewrite (nth_lookup_Some _ _ _ _ Hm) in Hok.
  - intros e Hfail Hlast. unfold generateWithFallback.
    destruct (fallback_from_failure E MODEL_FALLBACK_LIST None promptParts w)
      as (final & Hrun & Hfinal).
    + intros i m Hm. destruct (Hfail i) as [e' He'].
      { apply lookup_lt_is_Some_1. by exists m. }
      exists e'. unfold attempt in He'. by rewrite (nth_lookup_Some _ _ _ _ Hm) in He'.
    + rewrite Hrun. simpl in Hfinal. unfold attempt in Hlast. simpl in Hlast.
      rewrite Hlast in Hfinal. by subst final.
Qed.

(** The specification applied: the third model answers after two failures,
    and three failures are reported with the message of the third. *)
Lemma generateWithFallback_spec_witness :
  generateWithFallback (Scenario.scripted Scenario.no_fault Scenario.third_answers Scenario.active)
    [TextPart "hello"] Scenario.empty_world
  = (Ret {| response_text := Scenario.advice |},
     set_gen_log (fun log => log ++ MODEL_FALLBACK_LIST) Scenario.empty_world)
  /\ generateWithFallback (Scenario.scripted Scenario.no_fault Scenario.none_answers Scenario.active)
       [TextPart "hello"] Scenario.empty_world
     = (Throw (Error "Analysis failed. Last error: gemini-2.0-flash unavailable"),
        set_gen_log (fun log => log ++ MODEL_FALLBACK_LIST) Scenario.empty_world).
Proof.
  split.
  - apply (proj1 (generateWithFallback_spec _ _ _) 2 {| response_text := Scenario.advice |}).
    + simpl. lia.
    + intros [|[|i]] Hi; simpl; eauto. lia.
    + reflexivity.
  - apply (proj2 (generateWithFallback_spec _ _ _) (Error "gemini-2.0-flash unavailable")).
    + intros i _. simpl. eauto.
    + reflexivity.
Defined.

(** ** The ingestion poll *)

Section Poll.

Context (E : env) (fileName : string).

(** Closes a goal about a status query with a hypothesis about the same
    query whose position is written differently. *)
Local Ltac same_query :=
  simpl in *;
  match goal with
  | H : getFile _ ?a _ = _ |- getFile _ ?b _ = _ =>
      replace b with a by lia; exact H
  end.

Lemma rounds_0 w : rounds 0 w = w.
Proof.
  destruct w. unfold rounds, set_polls, set_now. simpl.
  f_equal; lia.
Qed.

Lemma rounds_S k w :
  rounds k (set_polls S (set_now (fun t => (t + 2000)%Z) w)) = rounds (S k) w.
Proof.
  unfold rounds, set_polls, set_now. simpl.
  f_equal; lia.
Qed.

(** One turn of the loop on a file that is still processing. *)
Lemma poll_file_turn fuel file file' w :
  state file = PROCESSING ->
  getFile E (polls w) fileName = inl file' ->
  poll_file E (S fuel) fileName file w
  = poll_file E fuel fileName file' (set_polls S (set_now (fun t => (t + 2000)%Z) w)).
Proof.
  intros Hst Hget. simpl. rewrite Hst.
  unfold bind, sleep, modify, fileManager_getFile. simpl. by rewrite Hget.
Qed.

(** The loop does not return while the answers are "processing": after
    [fuel] rounds it is still waiting. *)
Lemma poll_file_pending fuel : forall file w,
  state file = PROCESSING ->
  (forall i, i < fuel -> processing_at E fileName w i) ->
  poll_file E fuel fileName file w = (Pending, rounds fuel w).
Proof.
  induction fuel as [|fuel IH]; intros file w Hst Hproc.
  - simpl. rewrite Hst. by rewrite rounds_0.
  - destruct (Hproc 0) as (file' & Hget & Hst'); [lia|].
    rewrite Nat.add_0_r in Hget.
    rewrite (poll_file_turn _ _ _ _ Hst Hget).
    rewrite IH; [by rewrite rounds_S|done|].
    intros i Hi. destruct (Hproc (S i)) as (f & Hf & Hs); [lia|].
    exists f. split; [same_query|done].
Qed.

(** The loop returns the first file whose state is not "processing",
    after as many rounds as there were "processing" answers. *)
Lemma poll_file_leaves k : forall fuel file w file',
  k < fuel ->
  state file = PROCESSING ->
  (forall i, i < k -> processing_at E fileName w i) ->
  getFile E (polls w + k) fileName = inl file' ->
  state file' <> PROCESSING ->
  poll_file E fuel fileName file w = (Ret file', rounds (S k) w).
Proof.
  induction k as [|k IH]; intros fuel file w file' Hk Hst Hproc Hget Hst'.
  - destruct fuel as [|fuel]; [lia|].
    rewrite Nat.add_0_r in Hget.
    rewrite (poll_file_turn _ _ _ _ Hst Hget).
    rewrite <- rounds_S, rounds_0.
    destruct fuel; simpl; by destruct (state file').
  - destruct fuel as [|fuel]; [lia|].
    destruct (Hproc 0) as (file1 & Hget1 & Hst1); [lia|].
    rewrite Nat.add_0_r in Hget1.
    rewrite (poll_file_turn _ _ _ _ Hst Hget1).
    rewrite (IH fuel file1 _ file'); [by rewrite rounds_S|lia|done| | |done].
    + intros i Hi. destruct (Hproc (S i)) as (f & Hf & Hs); [lia|].
      exists f. split; [same_query|done].
    + same_query.
Qed.

(** Whenever the loop returns, the file it returns has left "processing",
    and every round before was spent on a "processing" answer. *)
Lemma poll_file_ret fuel : forall file w file' w',
  poll_file E fuel fileName file w = (Ret file', w') ->
  state file' <> PROCESSING /\
  exists k, k <= fuel /\ w' = rounds k w /\
            (forall i, i + 1 < k -> processing_at E fileName w i) /\
            (k = 0 -> file' = file) /\
            (0 < k -> state file = PROCESSING /\
                      getFile E (polls w + (k - 1)) fileName = inl file').
Proof.
  induction fuel as [|fuel IH]; intros file w file' w' Hrun.
  - simpl in Hrun. destruct (state file) eqn:Hst; try discriminate;
      injection Hrun as <- <-; (split; [congruence|]);
      exists 0; rewrite rounds_0; repeat split; auto; lia.
  - destruct (decide (state file = PROCESSING)) as [Hst|Hst].
    + destruct (getFile E (polls w) fileName) as [file1|e] eqn:Hget.
      * rewrite (poll_file_turn _ _ _ _ Hst Hget) in Hrun.
        apply IH in Hrun as (Hne & k & Hk & -> & Hproc & Hzero & Hpos).
        split; [done|]. exists (S k). rewrite rounds_S.
        split; [lia|]. split; [done|]. split; [|split; [lia|]].
        -- intros [|i] Hi.
           ++ destruct k as [|k]; [lia|].
              destruct Hpos as [Hst1 _]; [lia|].
              exists file1. rewrite Nat.add_0_r. by split.
           ++ destruct (Hproc i) as (f & Hf & Hs); [lia|].
              exists f. split; [same_query|done].
        -- intros _. split; [done|].
           destruct k as [|k].
           ++ rewrite (Hzero eq_refl). simpl. by rewrite Nat.add_0_r.
           ++ destruct Hpos as [_ Hf]; [lia|]. same_query.
      * simpl in Hrun. rewrite Hst in Hrun.
        unfold bind, sleep, modify, fileManager_getFile in Hrun. simpl in Hrun.
        rewrite Hget in Hrun. discriminate.
    + assert (poll_file E (S fuel) fileName file w = (Ret file, w)) as Heq.
      { simpl. by destruct (state file). }
      rewrite Heq in Hrun. injection Hrun as <- <-.
      split; [done|]. exists 0. rewrite rounds_0. repeat split; auto; lia.
Qed.

Lemma poll_file_done fuel file w :
  state file <> PROCESSING -> poll_file E fuel fileName file w = (Ret file, w).
Proof. intros Hst. destruct fuel; simpl; by destruct (state file). Qed.

Lemma fileManager_getFile_ok file w :
  getFile E (polls w) fileName = inl file ->
  fileManager_getFile E fileName w = (Ret file, set_polls S w).
Proof. intros Hget. unfold fileManager_getFile. by rewrite Hget. Qed.

Lemma await_ingestion_leaves fuel k file w :
  k <= fuel ->
  (forall i, i < k -> processing_at E fileName w i) ->
  getFile E (polls w + k) fileName = inl file ->
  state file <> PROCESSING ->
  await_ingestion E fuel fileName w
  = (if decide (state file = FAILED)
     then Throw (Error "Video processing failed at Google.")
     else Ret file,
     waited k w).
Proof.
  intros Hk Hproc Hget Hst. unfold await_ingestion, waited.
  destruct k as [|k].
  - rewrite Nat.add_0_r in Hget.
    rewrite (bind_ret_eq _ _ _ _ _ (fileManager_getFile_ok _ _ Hget)).
    rewrite (bind_ret_eq _ _ _ _ _ (poll_file_done fuel _ _ Hst)).
    rewrite rounds_0. by destruct (decide (state file = FAILED)).
  - destruct (Hproc 0) as (file0 & Hget0 & Hst0); [lia|].
    rewrite Nat.add_0_r in Hget0.
    rewrite (bind_ret_eq _ _ _ _ _ (fileManager_getFile_ok _ _ Hget0)).
    assert (poll_file E fuel fileName file0 (set_polls S w)
            = (Ret file, rounds (S k) (set_polls S w))) as Hpoll.
    { apply poll_file_leaves; [lia|done| |same_query|done].
      intros i Hi. destruct (Hproc (S i)) as (f & Hf & Hs); [lia|].
      exists f. split; [same_query|done]. }
    rewrite (bind_ret_eq _ _ _ _ _ Hpoll).
    by destruct (decide (state file = FAILED)).
Qed.

Lemma await_ingestion_pending fuel w :
  (forall i, i <= fuel -> processing_at E fileName w i) ->
  await_ingestion E fuel fileName w = (Pending, waited fuel w).
Proof.
  intros Hproc. unfold await_ingestion, waited.
  destruct (Hproc 0) as (file0 & Hget0 & Hst0); [lia|].
  rewrite Nat.add_0_r in Hget0.
  rewrite (bind_ret_eq _ _ _ _ _ (fileManager_getFile_ok _ _ Hget0)).
  apply bind_pending_eq, poll_file_pending; [done|].
  intros i Hi. destruct (Hproc (S i)) as (f & Hf & Hs); [lia|].
  exists f. split; [same_query|done].
Qed.

Lemma await_ingestion_ret fuel w file w' :
  await_ingestion E fuel fileName w = (Ret file, w') ->
  state file = ACTIVE /\
  exists k, k <= fuel /\ w' = waited k w /\
            (forall i, i < k -> processing_at E fileName w i) /\
            getFile E (polls w + k) fileName = inl file.
Proof.
  unfold await_ingestion, waited. intros Hrun.
  apply bind_ret_inv in Hrun as (file0 & w0 & Hget & Hrun).
  apply bind_ret_inv in Hrun as (file1 & w1 & Hpoll & Hrun).
  unfold fileManager_getFile in Hget.
  destruct (getFile E (polls w) fileName) as [f0|] eqn:Hget0; [|discriminate].
  injection Hget as -> <-.
  destruct (decide (state file1 = FAILED)) as [|Hnf]; [discriminate|].
  injection Hrun as -> ->.
  apply poll_file_ret in Hpoll as (Hne & k & Hk & -> & Hproc & Hzero & Hpos).
  split; [by destruct (state file)|].
  exists k. split; [done|]. split; [done|].
  destruct k as [|k].
  - rewrite (Hzero eq_refl), Nat.add_0_r. split; [intros; lia|done].
  - destruct Hpos as [Hst0 Hf]; [lia|]. split; [|same_query].
    intros [|i] Hi.
    + exists file0. rewrite Nat.add_0_r. by split.
    + destruct (Hproc i) as (f & Hf' & Hs); [lia|].
      exists f. split; [same_query|done].
Qed.

(** The loop is left waiting only by answers that are all "processing". *)
Lemma poll_file_pending_inv fuel : forall file w w',
  poll_file E fuel fileName file w = (Pending, w') ->
  state file = PROCESSING /\ forall i, i < fuel -> processing_at E fileName w i.
Proof.
  induction fuel as [|fuel IH]; intros file w w' Hrun.
  - simpl in Hrun. destruct (state file) eqn:Hst; try discriminate.
    split; [done|]. intros; lia.
  - destruct (decide (state file = PROCESSING)) as [Hst|Hst].
    + split; [done|].
      destruct (getFile E (polls w) fileName) as [file1|e] eqn:Hget.
      * rewrite (poll_file_turn _ _ _ _ Hst Hget) in Hrun.
        apply IH in Hrun as (Hst1 & Hproc).
        intros [|i] Hi.
        -- exists file1. rewrite Nat.add_0_r. by split.
        -- destruct (Hproc i) as (f & Hf & Hs); [lia|].
           exists f. split; [same_query|done].
      * simpl in Hrun. rewrite Hst in Hrun.
        unfold bind, sleep, modify, fileManager_getFile in Hrun. simpl in Hrun.
        rewrite Hget in Hrun. discriminate.
    + rewrite (poll_file_done _ _ _ Hst) in Hrun. discriminate.
Qed.

Lemma await_ingestion_pending_inv fuel w w' :
  await_ingestion E fuel fileName w = (Pending, w') ->
  forall i, i <= fuel -> processing_at E fileName w i.
Proof.
  unfold await_ingestion, bind. unfold fileManager_getFile at 1.
  destruct (getFile E (polls w) fileName) as [file0|] eqn:Hget0; [|discriminate].
  destruct (poll_file E fuel fileName file0 (set_polls S w)) as [[file|e|] w1] eqn:Hpoll;
    [by case_decide|discriminate|].
  intros _. apply poll_file_pending_inv in Hpoll as (Hst0 & Hproc).
  intros [|i] Hi.
  - exists file0. rewrite Nat.add_0_r. by split.
  - destruct (Hproc i) as (f & Hf & Hs); [lia|].
    exists f. split; [same_query|done].
Qed.

End Poll.

(** C7.  The ingestion poll has no bound on its attempts.  It stops at the
    first answer that is not "processing", after one sleep of two seconds
    per "processing" answer, and throws at once when that answer is
    "failed"; it returns only a file that has left "processing"; and as long
    as the answers stay "processing" it is still waiting, whatever the
    number of rounds it is given. *)
Theorem await_ingestion_spec (E : env) (fileName : string) (w : world) :
  (forall fuel k file,
      k <= fuel ->
      (forall i, i < k -> processing_at E fileName w i) ->
      getFile E (polls w + k) fileName = inl file ->
      state file <> PROCESSING ->
      await_ingestion E fuel fileName w
      = (if decide (state file = FAILED)
         then Throw (Error "Video processing failed at Google.")
         else Ret file,
         waited k w))
  /\ (forall fuel,
      (forall i, i <= fuel -> processing_at E fileName w i) ->
      await_ingestion E fuel fileName w = (Pending, waited fuel w))
  /\ (forall fuel file w',
      await_ingestion E fuel fileName w = (Ret file, w') ->
      state file = ACTIVE /\
      exists k, k <= fuel /\ w' = waited k w /\
                (forall i, i < k -> processing_at E fileName w i) /\
                getFile E (polls w + k) fileName = inl file).
Proof.
  split; [|split].
  - intros fuel k file. apply await_ingestion_leaves.
  - intros fuel. apply await_ingestion_pending.
  - intros fuel file w'. apply await_ingestion_ret.
Qed.

(** The specification applied: two "processing" answers and then "failed"
    make the poll throw after two sleeps; answers that stay "processing"
    leave it waiting after seven rounds; an "active" answer is returned. *)
Lemma await_ingestion_spec_witness :
  await_ingestion
    (Scenario.scripted Scenario.no_fault Scenario.third_answers Scenario.fails_after_two)
    5 "files/abc" Scenario.empty_world
  = (Throw (Error "Video processing failed at Google."), waited 2 Scenario.empty_world)
  /\ await_ingestion
       (Scenario.scripted Scenario.no_fault Scenario.third_answers Scenario.stuck)
       7 "files/abc" Scenario.empty_world
     = (Pending, waited 7 Scenario.empty_world)
  /\ state {| state := ACTIVE; uri := "gemini://files/abc" |} = ACTIVE.
Proof.
  split; [|split].
  - apply (proj1 (await_ingestion_spec _ _ _) 5 2
             {| state := FAILED; uri := "gemini://files/abc" |}).
    + lia.
    + intros [|[|i]] Hi; [eexists; split; reflexivity..|lia].
    + reflexivity.
    + discriminate.
  - apply (proj1 (proj2 (await_ingestion_spec _ _ _)) 7).
    intros i _. eexists; split; reflexivity.
  - apply (proj2 (proj2 (await_ingestion_spec
                           (Scenario.scripted Scenario.no_fault Scenario.third_answers
                                              Scenario.active)
                           "files/abc" Scenario.empty_world))
             3 _ (waited 0 Scenario.empty_world)).
    reflexivity.
Defined.

(** ** The roster merge *)

Section Roster.

Implicit Types (roster : list PlayerProfile) (p : DetectedPlayer).

Lemma findIndex_Some {A} (q : A -> bool) (l : list A) (idx : nat) :
  Js.findIndex q l = Some idx ->
  exists x, l !! idx = Some x /\ q x = true /\
            forall j y, j < idx -> l !! j = Some y -> q y = false.
Proof.
  revert idx. induction l as [|a l IH]; intros idx; simpl; [done|].
  destruct (q a) eqn:Hq.
  - intros [= <-]. exists a. repeat split; [done|]. intros; lia.
  - destruct (Js.findIndex q l) as [i|] eqn:Hfind; simpl; [|done].
    intros [= <-]. destruct (IH i eq_refl) as (x & Hx & Hqx & Hbefore).
    exists x. repeat split; [done..|].
    intros [|j] y Hj; simpl; [by intros [= <-]|].
    apply Hbefore. lia.
Qed.

Lemma findIndex_None {A} (q : A -> bool) (l : list A) :
  Js.findIndex q l = None <-> forall x, x ∈ l -> q x = false.
Proof.
  induction l as [|a l IH]; simpl.
  - split; [|done]. intros _ x Hx. by apply elem_of_nil in Hx.
  - destruct (q a) eqn:Hq.
    + split; [done|]. intros H. specialize (H a (list_elem_of_here _ _)). congruence.
    + destruct (Js.findIndex q l) as [i|]; simpl.
      * split; [done|]. intros H.
        assert (Some i = None) as Hn; [|done].
        apply IH. intros x Hx. apply H. by apply list_elem_of_further.
      * split; [|done]. intros _ x [->|Hx]%elem_of_cons; [done|].
        by apply IH.
Qed.

Lemma merge_roster_snoc today roster seen p :
  merge_roster today (seen ++ [p]) roster
  = merge_player today (merge_roster today seen roster) p.
Proof. unfold merge_roster. by rewrite fold_left_app. Qed.

Lemma merge_player_identifiers today roster p :
  identifier <$> merge_player today roster p
  = if decide (dp_identifier p ∈ identifier <$> roster)
    then identifier <$> roster
    else (identifier <$> roster) ++ [dp_identifier p].
Proof.
  unfold merge_player.
  destruct (Js.findIndex _ roster) as [idx|] eqn:Hfind.
  - apply findIndex_Some in Hfind as (r & Hr & Hq & _).
    apply String.eqb_eq in Hq.
    rewrite decide_True.
    + rewrite (list_fmap_alter identifier _ id); [by rewrite list_alter_id|].
      by apply Forall_forall.
    + rewrite <- Hq. apply list_elem_of_fmap_2. by eapply list_elem_of_lookup_2.
  - rewrite decide_False.
    + by rewrite fmap_app.
    + intros (r & Hid & Hr)%list_elem_of_fmap.
      rewrite findIndex_None in Hfind. specialize (Hfind r Hr).
      apply String.eqb_neq in Hfind. congruence.
Qed.

Lemma merge_player_NoDup today roster p :
  NoDup (identifier <$> roster) -> NoDup (identifier <$> merge_player today roster p).
Proof.
  intros Hnd. rewrite merge_player_identifiers. case_decide; [done|].
  apply NoDup_app. repeat split; [done| |apply NoDup_singleton].
  intros x Hx ->%list_elem_of_singleton. done.
Qed.

Lemma merge_roster_NoDup today players : forall roster,
  NoDup (identifier <$> roster) -> NoDup (identifier <$> merge_roster today players roster).
Proof.
  unfold merge_roster. induction players as [|p players IH]; intros roster Hnd; simpl; [done|].
  by apply IH, merge_player_NoDup.
Qed.

End Roster.

(** C5.  The roster loop, at the moment it reaches a detected player [p]
    with the roster [current] the players before it have left.  If
    [current] holds an entry with the identifier of [p], the first such
    entry gets the observation appended to its notes, the weakness appended
    to its weaknesses when there is one, the grade of [p] and the date of
    the merge; every other entry is untouched and the roster keeps its
    length.  If no entry has that identifier, one entry carrying the fields
    of [p] is appended.  A roster without duplicate identifiers stays so. *)
Theorem merge_roster_spec (today : Z) (roster : list PlayerProfile)
    (seen : list DetectedPlayer) (p : DetectedPlayer) :
  let current := merge_roster today seen roster in
  let merged := merge_roster today (seen ++ [p]) roster in
  ((exists r, r ∈ current /\ identifier r = dp_identifier p) ->
   exists idx r,
     current !! idx = Some r /\ identifier r = dp_identifier p
     /\ (forall j r', j < idx -> current !! j = Some r' -> identifier r' <> dp_identifier p)
     /\ merged !! idx = Some {| identifier := identifier r;
                                position := position r;
                                grade := dp_grade p;
                                notes := notes r ++ [dp_observation p];
                                weaknesses := weaknesses r ++ weakness_of p;
                                last_updated := today |}
     /\ (forall j, j <> idx -> merged !! j = current !! j)
     /\ length merged = length current)
  /\ ((forall r, r ∈ current -> identifier r <> dp_identifier p) ->
      merged = current ++ [ {| identifier := dp_identifier p;
                               position := dp_position p;
                               grade := dp_grade p;
                               notes := [dp_observation p];
                               weaknesses := weakness_of p;
                               last_updated := today |} ])
  /\ weakness_of p = match dp_weakness p with
                     | Some weakness => if decide (weakness = "") then [] else [weakness]
                     | None => []
                     end
  /\ (NoDup (identifier <$> roster) -> NoDup (identifier <$> merged)).
Proof.
  intros current merged. subst merged. rewrite merge_roster_snoc. fold current.
  repeat split.
  - intros (r0 & Hin & Hid). unfold merge_player.
    destruct (Js.findIndex _ current) as [idx|] eqn:Hfind.
    + apply findIndex_Some in Hfind as (r & Hr & Hq & Hbefore).
      apply String.eqb_eq in Hq.
      exists idx, r. split; [done|]. split; [done|]. split; [|split; [|split]].
      * intros j r' Hj Hr'. specialize (Hbefore j r' Hj Hr').
        by apply String.eqb_neq in Hbefore.
      * by rewrite list_lookup_alter_eq, Hr.
      * intros j Hj. by rewrite list_lookup_alter_ne.
      * apply length_alter.
    + rewrite findIndex_None in Hfind. specialize (Hfind r0 Hin).
      apply String.eqb_neq in Hfind. congruence.
  - intros Hnone. unfold merge_player.
    destruct (Js.findIndex _ current) as [idx|] eqn:Hfind; [|done].
    apply findIndex_Some in Hfind as (r & Hr & Hq & _).
    apply String.eqb_eq in Hq. destruct (Hnone r); [|done].
    by eapply list_elem_of_lookup_2.
  - unfold weakness_of. destruct (dp_weakness p) as [wk|]; [|done]. simpl.
    destruct (String.eqb_spec wk ""); by case_decide.
  - intros Hnd. by apply merge_player_NoDup, merge_roster_NoDup.
Qed.

(** The specification applied to a roster of one quarterback: merging him
    again keeps one entry, merging a receiver appends one. *)
Lemma merge_roster_spec_witness :
  length (merge_roster 2000 [Scenario.known] Scenario.squad) = 1
  /\ merge_roster 2000 [Scenario.fresh] Scenario.squad
     = Scenario.squad ++ [ {| identifier := "WR #80"; position := "WR"; grade := "C";
                              notes := ["Rounded break"]; weaknesses := [];
                              last_updated := 2000 |} ]
  /\ NoDup (identifier <$> merge_roster 2000 [Scenario.known] Scenario.squad).
Proof.
  destruct (merge_roster_spec 2000 Scenario.squad [] Scenario.known) as (Hmatch & _ & _ & Hnd).
  destruct (merge_roster_spec 2000 Scenario.squad [] Scenario.fresh) as (_ & Hfresh & _ & _).
  split; [|split].
  - destruct Hmatch as (idx & r & _ & _ & _ & _ & _ & Hlen); [|exact Hlen].
    eexists. split; [apply list_elem_of_here|reflexivity].
  - apply Hfresh. intros r Hr. apply list_elem_of_singleton in Hr. subst r. discriminate.
  - apply Hnd. apply NoDup_singleton.
Defined.

(** ** The primitive operations, as functions of the world *)

Section Primitives.

Context (E : env).

Lemma db_op_run w :
  db_op E w
  = (match db_fault E (db_ops w) with Some e => Throw e | None => Ret tt end,
     set_db_ops S w).
Proof. unfold db_op. by destruct (db_fault E (db_ops w)). Qed.

Lemma db_bind_run {A} (k : M A) w :
  bind (db_op E) (fun _ => k) w
  = match db_fault E (db_ops w) with
    | Some e => (Throw e, set_db_ops S w)
    | None => k (set_db_ops S w)
    end.
Proof. unfold bind. rewrite db_op_run. by destruct (db_fault E (db_ops w)). Qed.

Lemma Session_deleteOne_ret q w u w' :
  Session_deleteOne E q w = (Ret u, w') ->
  db_fault E (db_ops w) = None /\ w' = set_sessions (delete_first q) (set_db_ops S w).
Proof.
  unfold Session_deleteOne. rewrite db_bind_run.
  destruct (db_fault E (db_ops w)); [done|]. by intros [= <- <-].
Qed.

Lemma Session_findOne_ret q w r w' :
  Session_findOne E q w = (Ret r, w') ->
  db_fault E (db_ops w) = None /\ r = List.find q (sessions w) /\ w' = set_db_ops S w.
Proof.
  unfold Session_findOne. rewrite db_bind_run.
  destruct (db_fault E (db_ops w)); [done|]. by intros [= <- <-].
Qed.

Lemma Session_updateOne_ret q f w u w' :
  Session_updateOne E q f w = (Ret u, w') ->
  db_fault E (db_ops w) = None /\ w' = set_sessions (update_first q f) (set_db_ops S w).
Proof.
  unfold Session_updateOne. rewrite db_bind_run.
  destruct (db_fault E (db_ops w)); [done|]. by intros [= <- <-].
Qed.

Lemma Clip_find_ret q w r w' :
  Clip_find E q w = (Ret r, w') ->
  db_fault E (db_ops w) = None /\ r = List.filter q (clips w) /\ w' = set_db_ops S w.
Proof.
  unfold Clip_find. rewrite db_bind_run.
  destruct (db_fault E (db_ops w)); [done|]. by intros [= <- <-].
Qed.

Lemma Clip_findOne_ret q w r w' :
  Clip_findOne E q w = (Ret r, w') ->
  db_fault E (db_ops w) = None /\ r = List.find q (clips w) /\ w' = set_db_ops S w.
Proof.
  unfold Clip_findOne. rewrite db_bind_run.
  destruct (db_fault E (db_ops w)); [done|]. by intros [= <- <-].
Qed.

Lemma Clip_updateOne_ret q f w u w' :
  Clip_updateOne E q f w = (Ret u, w') ->
  db_fault E (db_ops w) = None /\ w' = set_clips (update_first q f) (set_db_ops S w).
Proof.
  unfold Clip_updateOne. rewrite db_bind_run.
  destruct (db_fault E (db_ops w)); [done|]. by intros [= <- <-].
Qed.

Lemma Clip_deleteMany_ret q w u w' :
  Clip_deleteMany E q w = (Ret u, w') ->
  db_fault E (db_ops w) = None /\ w' = set_clips (delete_all q) (set_db_ops S w).
Proof.
  unfold Clip_deleteMany. rewrite db_bind_run.
  destruct (db_fault E (db_ops w)); [done|]. by intros [= <- <-].
Qed.

Lemma Clip_findOne_bind {A} q (k : option Clip.t -> M A) w :
  bind (Clip_findOne E q) k w
  = match db_fault E (db_ops w) with
    | Some e => (Throw e, set_db_ops S w)
    | None => k (List.find q (clips w)) (set_db_ops S w)
    end.
Proof.
  unfold Clip_findOne, bind at 1. rewrite db_bind_run.
  by destruct (db_fault E (db_ops w)).
Qed.

Lemma Session_findOne_bind {A} q (k : option Session.t -> M A) w :
  bind (Session_findOne E q) k w
  = match db_fault E (db_ops w) with
    | Some e => (Throw e, set_db_ops S w)
    | None => k (List.find q (sessions w)) (set_db_ops S w)
    end.
Proof.
  unfold Session_findOne, bind at 1. rewrite db_bind_run.
  by destruct (db_fault E (db_ops w)).
Qed.

Lemma Clip_updateOne_bind {A} q f (k : unit -> M A) w :
  bind (Clip_updateOne E q f) k w
  = match db_fault E (db_ops w) with
    | Some e => (Throw e, set_db_ops S w)
    | None => k tt (set_clips (update_first q f) (set_db_ops S w))
    end.
Proof.
  unfold Clip_updateOne, bind at 1. rewrite db_bind_run.
  by destruct (db_fault E (db_ops w)).
Qed.

Lemma Session_updateOne_bind {A} q f (k : unit -> M A) w :
  bind (Session_updateOne E q f) k w
  = match db_fault E (db_ops w) with
    | Some e => (Throw e, set_db_ops S w)
    | None => k tt (set_sessions (update_first q f) (set_db_ops S w))
    end.
Proof.
  unfold Session_updateOne, bind at 1. rewrite db_bind_run.
  by destruct (db_fault E (db_ops w)).
Qed.

(** The loop of video-deletes over the clips of a session leaves the
    collections alone and requests one delete per stored video, in order. *)
Lemma destroy_loop_ret docs : forall w u w',
  for_of docs (fun clip =>
    if Js.truthy (Clip.publicId clip)
    then cloudinary_uploader_destroy E (default "" (Clip.publicId clip))
    else ret tt) w = (Ret u, w') ->
  clips w' = clips w /\ sessions w' = sessions w
  /\ destroyed w' = destroyed w ++ stored_videos docs.
Proof.
  induction docs as [|clip docs IH]; intros w u w' Hrun; simpl in Hrun.
  - injection Hrun as _ <-. by rewrite app_nil_r.
  - apply bind_ret_inv in Hrun as (u1 & w1 & Hone & Hrest).
    apply IH in Hrest as (-> & -> & ->).
    unfold stored_videos. rewrite bind_cons. fold (stored_videos docs).
    destruct (Js.truthy (Clip.publicId clip)).
    + unfold cloudinary_uploader_destroy in Hone.
      destruct (cloudinary_destroy E _ _); [done|].
      injection Hone as _ <-. simpl. by rewrite <- app_assoc.
    + by injection Hone as _ <-.
Qed.

End Primitives.

(** ** Deleting a session *)

(** C4.  When [POST /api/delete-session] answers with success, no clip of
    that session and owner is left in the collection, the clips that are
    left are exactly the other ones, and one video-delete has been requested
    for each clip of the session that carried a stored video identifier,
    and for nothing else. *)
Theorem delete_session_spec (E : env) (userId sessionId : string) (w w' : world) :
  delete_session E userId sessionId w = (Ret (res_json JsonSuccess), w') ->
  (forall c, c ∈ clips w' -> ~ (Clip.sessionId c = sessionId /\ Clip.owner c = userId))
  /\ clips w' = List.filter (fun c => negb (clip_of sessionId userId c)) (clips w)
  /\ destroyed w'
     = destroyed w ++ stored_videos (List.filter (clip_of sessionId userId) (clips w))
  /\ (forall c publicId,
        c ∈ clips w -> Clip.sessionId c = sessionId -> Clip.owner c = userId ->
        Clip.publicId c = Some publicId -> publicId <> "" ->
        publicId ∈ destroyed w').
Proof.
  intros Hrun. unfold delete_session, try_catch in Hrun.
  match type of Hrun with
  | match ?body w with _ => _ end = _ => destruct (body w) as [[r|e|] w1] eqn:Hbody
  end; [|discriminate..].
  injection Hrun as -> <-.
  apply bind_ret_inv in Hbody as (u1 & wa & Hdel & Hbody).
  apply bind_ret_inv in Hbody as (found & wb & Hfind & Hbody).
  apply bind_ret_inv in Hbody as (u3 & wc & Hloop & Hbody).
  apply bind_ret_inv in Hbody as (u4 & wd & Hmany & Hbody).
  injection Hbody as <-.
  apply Session_deleteOne_ret in Hdel as (_ & ->).
  apply Clip_find_ret in Hfind as (_ & -> & ->).
  apply destroy_loop_ret in Hloop as (Hclips & _ & Hdestroyed).
  apply Clip_deleteMany_ret in Hmany as (_ & ->).
  simpl in *. fold (clip_of sessionId userId) in *.
  rewrite Hclips. unfold delete_all.
  split; [|split; [done|split; [done|]]].
  - intros c Hc [Hs Ho].
    apply list_elem_of_In, filter_In in Hc as [_ Hc].
    unfold clip_of in Hc. by rewrite Hs, Ho, !String.eqb_refl in Hc.
  - intros c publicId Hc Hs Ho Hp Hne. rewrite Hdestroyed.
    apply elem_of_app. right. unfold stored_videos.
    apply list_elem_of_bind. exists c. split.
    + rewrite Hp. simpl. destruct (String.eqb_spec publicId ""); [done|].
      apply list_elem_of_here.
    + apply list_elem_of_In, filter_In. split; [by apply list_elem_of_In|].
      unfold clip_of. by rewrite Hs, Ho, !String.eqb_refl.
Qed.

(** The specification applied: [user_a] deletes [sess_1]; the clip of
    [user_b] is all that is left and one video-delete was requested. *)
Lemma delete_session_spec_witness :
  clips (snd (delete_session Scenario.quiet "user_a" "sess_1" Scenario.library))
  = [Scenario.clip_doc 5 "user_b" "sess_1" (Some "vantage_vision/b1") None]
  /\ destroyed (snd (delete_session Scenario.quiet "user_a" "sess_1" Scenario.library))
     = ["vantage_vision/a1"]
  /\ "vantage_vision/a1"
     ∈ destroyed (snd (delete_session Scenario.quiet "user_a" "sess_1" Scenario.library)).
Proof.
  destruct (delete_session_spec Scenario.quiet "user_a" "sess_1" Scenario.library
              (snd (delete_session Scenario.quiet "user_a" "sess_1" Scenario.library))
              eq_refl)
    as (_ & Hleft & Hdestroyed & Hissued).
  split; [exact Hleft|]. split; [exact Hdestroyed|].
  apply (Hissued (Scenario.clip_doc 3 "user_a" "sess_1" (Some "vantage_vision/a1")
                                    (Some ANALYSIS_ERROR)) "vantage_vision/a1");
    [apply list_elem_of_here|reflexivity..|discriminate].
Defined.

(** ** Chatting about a clip *)

Section ClipChat.

Context (E : env) (userId : string) (req : ClipChatBody).

Lemma generateWithFallback_down parts w :
  (forall i, i < length MODEL_FALLBACK_LIST -> fails_at E w i) ->
  exists e, generateWithFallback E parts w
            = (Throw e, set_gen_log (fun log => log ++ MODEL_FALLBACK_LIST) w).
Proof.
  intros Hdown.
  destruct (fallback_from_failure E MODEL_FALLBACK_LIST None parts w) as (final & Hrun & _).
  - intros i m Hm. apply Hdown. apply lookup_lt_is_Some_1. by exists m.
  - eexists. apply Hrun.
Qed.

Lemma generateWithFallback_up parts w n result :
  n < length MODEL_FALLBACK_LIST ->
  (forall i, i < n -> fails_at E w i) ->
  answers_at E w n result ->
  generateWithFallback E parts w
  = (Ret result, set_gen_log (fun log => log ++ take (S n) MODEL_FALLBACK_LIST) w).
Proof.
  intros Hn Hfail Hok. apply fallback_from_success.
  - intros i m Hi _. by apply Hfail.
  - destruct (lookup_lt_is_Some_2 MODEL_FALLBACK_LIST n Hn) as [m Hm].
    exists m. split; [done|]. apply Hok.
Qed.

(** Every run of the handler leaves the clips as they were or appends the
    question and the reply to the chat log of the clip named. *)
Lemma clip_chat_clips w out w' :
  clip_chat E userId req w = (out, w') ->
  sessions w' = sessions w
  /\ (clips w' = clips w
      \/ exists reply clip,
           own_clip (cc_clipId req) userId w = Some clip
           /\ out = Ret (res_json (JsonReply reply))
           /\ clips w' = update_first (fun c => (Clip._id c =? cc_clipId req)%nat)
                                      (exchange (cc_message req) reply) (clips w)).
Proof.
  unfold own_clip, clip_chat, try_catch. rewrite Clip_findOne_bind.
  destruct (db_fault E (db_ops w)); [intros [= <- <-]; by auto|].
  destruct (List.find _ (clips w)) as [clip|]; [|intros [= <- <-]; by auto].
  destruct (Clip.fullData clip) as [fullData|]; [|intros [= <- <-]; by auto].
  rewrite Session_findOne_bind. simpl.
  destruct (db_fault E (S (db_ops w))); [intros [= <- <-]; by auto|].
  unfold bind at 1.
  match goal with
  | |- context [generateWithFallback E ?parts ?w1] =>
      destruct (generateWithFallback_frame E parts w1) as (called & Hw & _);
      destruct (generateWithFallback E parts w1) as [[result|e|] w2]
  end; simpl in Hw; subst w2; [|intros [= <- <-]; by auto..].
  rewrite Clip_updateOne_bind. simpl.
  destruct (db_fault E (S (S (db_ops w)))); [intros [= <- <-]; by auto|].
  intros [= <- <-]. split; [done|]. right. by exists (response_text result), clip.
Qed.

End ClipChat.

(** C8.  When the lookup of the clip answers and the clip, as its owner
    sees it, has no analysis stored (or is not there at all),
    [POST /api/clip-chat] replies [Analysis needed first.] and the world is
    left untouched but for the one database operation: no model was called.
    Conversely, in every run in which a model was called the clip exists for
    the caller and carries an analysis. *)
Theorem clip_chat_short_circuit (E : env) (userId : string) (req : ClipChatBody) (w : world) :
  (db_fault E (db_ops w) = None ->
   (forall c, own_clip (cc_clipId req) userId w = Some c -> Clip.fullData c = None) ->
   clip_chat E userId req w
   = (Ret (res_json (JsonReply "Analysis needed first.")), set_db_ops S w)
   /\ gen_log (snd (clip_chat E userId req w)) = gen_log w)
  /\ (forall out w',
      clip_chat E userId req w = (out, w') ->
      gen_log w' <> gen_log w ->
      exists c fullData,
        own_clip (cc_clipId req) userId w = Some c /\ Clip.fullData c = Some fullData).
Proof.
  unfold own_clip, clip_chat, try_catch. rewrite Clip_findOne_bind. split.
  - intros -> Hnone.
    destruct (List.find _ (clips w)) as [clip|]; [|done].
    by rewrite (Hnone clip eq_refl).
  - intros out w'.
    destruct (db_fault E (db_ops w)); [intros [= <- <-] Hne; by destruct Hne|].
    destruct (List.find _ (clips w)) as [clip|]; [|intros [= <- <-] Hne; by destruct Hne].
    destruct (Clip.fullData clip) as [fullData|] eqn:Hdata;
      [|intros [= <- <-] Hne; by destruct Hne].
    intros _ _. by exists clip, fullData.
Qed.

(** C10.  [POST /api/clip-chat] changes the chat log of a clip in one step
    or not at all: in every run the clips are left as they were, or the
    answer is a reply and the question and that reply have been appended
    together.  When the clip is there with its analysis and every model
    fails, the answer is the error [Chat failed] with status 500, each model
    has been tried once and the clips are unchanged.  When the first [n]
    calls fail and the next one answers, that answer is the reply and both
    turns are appended. *)
Theorem clip_chat_atomic (E : env) (userId : string) (req : ClipChatBody) (w : world) :
  (forall out w',
      clip_chat E userId req w = (out, w') ->
      clips w' = clips w
      \/ exists reply,
           out = Ret (res_json (JsonReply reply))
           /\ clips w' = update_first (fun c => (Clip._id c =? cc_clipId req)%nat)
                                      (exchange (cc_message req) reply) (clips w))
  /\ (forall c fullData,
      own_clip (cc_clipId req) userId w = Some c ->
      Clip.fullData c = Some fullData ->
      db_fault E (db_ops w) = None ->
      db_fault E (S (db_ops w)) = None ->
      (forall i, i < length MODEL_FALLBACK_LIST -> fails_at E w i) ->
      exists w',
        clip_chat E userId req w = (Ret (res_status 500 (JsonError "Chat failed")), w')
        /\ clips w' = clips w
        /\ gen_log w' = gen_log w ++ MODEL_FALLBACK_LIST)
  /\ (forall c fullData n result,
      own_clip (cc_clipId req) userId w = Some c ->
      Clip.fullData c = Some fullData ->
      (forall i, i < 3 -> db_fault E (db_ops w + i) = None) ->
      n < length MODEL_FALLBACK_LIST ->
      (forall i, i < n -> fails_at E w i) ->
      answers_at E w n result ->
      exists w',
        clip_chat E userId req w = (Ret (res_json (JsonReply (response_text result))), w')
        /\ clips w' = update_first (fun c => (Clip._id c =? cc_clipId req)%nat)
                                   (exchange (cc_message req) (response_text result))
                                   (clips w)).
Proof.
  split; [|split].
  - intros out w' Hrun.
    destruct (clip_chat_clips E userId req w out w' Hrun)
      as [_ [Hsame|(reply & clip & _ & Hout & Hboth)]]; [by left|].
    right. by exists reply.
  - intros c fullData Hc Hdata Hdb0 Hdb1 Hdown.
    unfold own_clip in Hc. unfold clip_chat, try_catch.
    rewrite Clip_findOne_bind, Hdb0, Hc, Hdata, Session_findOne_bind. simpl. rewrite Hdb1.
    match goal with
    | |- context [bind (generateWithFallback E ?parts) ?k ?w1] =>
        destruct (generateWithFallback_down E parts w1) as [e He]; [exact Hdown|];
        rewrite (bind_throw_eq _ k _ _ _ He)
    end.
    eexists. split; [reflexivity|]. by simpl.
  - intros c fullData n result Hc Hdata Hdb Hn Hfail Hok.
    unfold own_clip in Hc. unfold clip_chat, try_catch.
    pose proof (Hdb 0 ltac:(lia)) as Hdb0. rewrite Nat.add_0_r in Hdb0.
    pose proof (Hdb 1 ltac:(lia)) as Hdb1. rewrite Nat.add_1_r in Hdb1.
    pose proof (Hdb 2 ltac:(lia)) as Hdb2.
    replace (db_ops w + 2) with (S (S (db_ops w))) in Hdb2 by lia.
    rewrite Clip_findOne_bind, Hdb0, Hc, Hdata, Session_findOne_bind. simpl. rewrite Hdb1.
    match goal with
    | |- context [bind (generateWithFallback E ?parts) ?k ?w1] =>
        rewrite (bind_ret_eq _ k _ _ _
                   (generateWithFallback_up E parts w1 n result Hn Hfail Hok))
    end.
    rewrite Clip_updateOne_bind. simpl. rewrite Hdb2.
    eexists. split; [reflexivity|]. by simpl.
Qed.

(** The specification applied: [user_a] asks about the clip without
    analysis, and about the analysed clip. *)
Lemma clip_chat_short_circuit_witness :
  (clip_chat Scenario.quiet "user_a" {| cc_clipId := 4; cc_message := "Why?" |} Scenario.library
   = (Ret (res_json (JsonReply "Analysis needed first.")), set_db_ops S Scenario.library)
   /\ gen_log (snd (clip_chat Scenario.quiet "user_a" {| cc_clipId := 4; cc_message := "Why?" |}
                              Scenario.library))
      = gen_log Scenario.library)
  /\ exists c fullData,
       own_clip 3 "user_a" Scenario.library = Some c /\ Clip.fullData c = Some fullData.
Proof.
  split.
  - apply (proj1 (clip_chat_short_circuit Scenario.quiet "user_a"
                    {| cc_clipId := 4; cc_message := "Why?" |} Scenario.library)).
    + reflexivity.
    + intros c [= <-]. reflexivity.
  - apply (proj2 (clip_chat_short_circuit Scenario.quiet "user_a"
                    {| cc_clipId := 3; cc_message := "Why?" |} Scenario.library)
             _ _ eq_refl).
    discriminate.
Defined.

(** The specification applied to the analysed clip of [user_a]: with no
    model answering the clips are unchanged; with the third model answering
    both turns are appended. *)
Lemma clip_chat_atomic_witness :
  (exists w',
     clip_chat (Scenario.scripted Scenario.no_fault Scenario.none_answers Scenario.active)
               "user_a" {| cc_clipId := 3; cc_message := "Why?" |} Scenario.library
     = (Ret (res_status 500 (JsonError "Chat failed")), w')
     /\ clips w' = clips Scenario.library
     /\ gen_log w' = gen_log Scenario.library ++ MODEL_FALLBACK_LIST)
  /\ (exists w',
     clip_chat Scenario.quiet "user_a" {| cc_clipId := 3; cc_message := "Why?" |}
               Scenario.library
     = (Ret (res_json (JsonReply Scenario.advice)), w')
     /\ clips w' = update_first (fun c => (Clip._id c =? 3)%nat)
                                (exchange "Why?" Scenario.advice)
                                (clips Scenario.library)).
Proof.
  split.
  - apply (proj1 (proj2 (clip_chat_atomic _ "user_a"
                           {| cc_clipId := 3; cc_message := "Why?" |} Scenario.library))
             (Scenario.clip_doc 3 "user_a" "sess_1" (Some "vantage_vision/a1")
                                (Some ANALYSIS_ERROR))
             ANALYSIS_ERROR);
      try reflexivity.
    intros i _ modelName parts. eexists. reflexivity.
  - apply (proj2 (proj2 (clip_chat_atomic Scenario.quiet "user_a"
                           {| cc_clipId := 3; cc_message := "Why?" |} Scenario.library))
             (Scenario.clip_doc 3 "user_a" "sess_1" (Some "vantage_vision/a1")
                                (Some ANALYSIS_ERROR))
             ANALYSIS_ERROR 2 {| response_text := Scenario.advice |});
      try reflexivity.
    + simpl. lia.
    + intros [|[|i]] Hi modelName parts; [eexists; reflexivity..|lia].
    + intros modelName parts. reflexivity.
Defined.

(** ** What the steps of a handler leave alone *)

Section Frames.

Context (E : env) {X : Type} (f : world -> X).

Lemma preserves_ret {A} (a : A) : preserves f (ret a).
Proof. by intros w. Qed.

Lemma preserves_throw {A} e : preserves f (@throw A e).
Proof. by intros w. Qed.

Lemma preserves_gets {A} (g : world -> A) : preserves f (gets g).
Proof. by intros w. Qed.

Lemma preserves_bind {A B} (m : M A) (k : A -> M B) :
  preserves f m -> (forall a, preserves f (k a)) -> preserves f (bind m k).
Proof.
  intros Hm Hk w. unfold bind. specialize (Hm w).
  destruct (m w) as [[a|e|] w1]; simpl in *; [|done..].
  rewrite <- Hm. apply Hk.
Qed.

Lemma preserves_try_catch {A} (m : M A) (h : error -> M A) :
  preserves f m -> (forall e, preserves f (h e)) -> preserves f (try_catch m h).
Proof.
  intros Hm Hh w. unfold try_catch. specialize (Hm w).
  destruct (m w) as [[a|e|] w1]; simpl in *; [done| |done].
  rewrite <- Hm. apply Hh.
Qed.

Context (Hf : media_only f).

Lemma preserves_db_op : preserves f (db_op E).
Proof. intros w. rewrite db_op_run. simpl. apply Hf. Qed.

Lemma preserves_Session_findOne q : preserves f (Session_findOne E q).
Proof.
  apply preserves_bind; [apply preserves_db_op|]. intros _. apply preserves_gets.
Qed.

Lemma preserves_Session_updateOne q g : preserves f (Session_updateOne E q g).
Proof.
  apply preserves_bind; [apply preserves_db_op|]. intros _ w. simpl. apply Hf.
Qed.

Lemma preserves_Session_save s : preserves f (Session_save E s).
Proof.
  apply preserves_bind; [apply preserves_db_op|]. intros _ w.
  cbv beta. destruct (existsb _ (sessions w)); simpl; [apply Hf|done].
Qed.

Lemma preserves_getFile fileName : preserves f (fileManager_getFile E fileName).
Proof.
  intros w. unfold fileManager_getFile.
  destruct (getFile E (polls w) fileName); simpl; apply Hf.
Qed.

Lemma preserves_sleep ms : preserves f (sleep ms).
Proof. intros w. simpl. apply Hf. Qed.

Lemma preserves_poll_file fuel fileName : forall file, preserves f (poll_file E fuel fileName file).
Proof.
  induction fuel as [|fuel IH]; intros file; simpl; destruct (state file);
    try apply preserves_ret; [by intros w|].
  apply preserves_bind; [apply preserves_sleep|]. intros _.
  apply preserves_bind; [apply preserves_getFile|]. intros file'. apply IH.
Qed.

Lemma preserves_await_ingestion fuel fileName :
  preserves f (await_ingestion E fuel fileName).
Proof.
  apply preserves_bind; [apply preserves_getFile|]. intros file0.
  apply preserves_bind; [apply preserves_poll_file|]. intros file.
  case_decide; [apply preserves_throw|apply preserves_ret].
Qed.

Lemma preserves_generateWithFallback parts : preserves f (generateWithFallback E parts).
Proof.
  intros w. destruct (generateWithFallback_frame E parts w) as (called & -> & _).
  apply Hf.
Qed.

Lemma preserves_chat_generate userId req rulesContext playbookContext file :
  preserves f (chat_generate E userId req rulesContext playbookContext file).
Proof.
  apply preserves_bind; [apply preserves_Session_findOne|]. intros [session|].
  - apply preserves_bind; [apply preserves_generateWithFallback|]. intros result.
    apply preserves_ret.
  - apply preserves_throw.
Qed.

Lemma preserves_chat_merge session json : preserves f (chat_merge E session json).
Proof.
  unfold chat_merge. destruct (a_players_detected json) as [[|p rest]|];
    try apply preserves_ret.
  apply preserves_bind; [apply preserves_gets|]. intros today.
  apply preserves_Session_save.
Qed.

Lemma preserves_chat_history req json : preserves f (chat_history E req json).
Proof.
  apply preserves_bind; [apply preserves_Session_updateOne|]. intros _.
  apply preserves_Session_updateOne.
Qed.

Lemma preserves_chat_text req rulesContext : preserves f (chat_text E req rulesContext).
Proof.
  apply preserves_bind; [apply preserves_Session_updateOne|]. intros _.
  apply preserves_bind; [apply preserves_generateWithFallback|]. intros result.
  apply preserves_bind; [apply preserves_Session_updateOne|]. intros _.
  apply preserves_ret.
Qed.

End Frames.

Lemma media_only_media : media_only media.
Proof. by repeat split. Qed.

Lemma media_only_clips : media_only clips.
Proof. by repeat split. Qed.

Lemma media_only_files : media_only files.
Proof. by repeat split. Qed.

(** ** The video branch of [POST /api/chat] *)

Section ChatVideo.

Context (E : env) (userId : string) (req : ChatBody).

Lemma update_first_fresh {A} (q : A -> bool) (g : A -> A) (docs : list A) (x : A) :
  (forall d, d ∈ docs -> q d = false) -> q x = true ->
  update_first q g (docs ++ [x]) = docs ++ [g x].
Proof.
  intros Hdocs Hx. induction docs as [|d docs IH]; simpl.
  - by rewrite Hx.
  - rewrite (Hdocs d (list_elem_of_here _ _)). f_equal. apply IH.
    intros d' Hd'. apply Hdocs. by apply list_elem_of_further.
Qed.

Lemma existsb_snoc {A} (q : A -> bool) (docs : list A) (x : A) :
  q x = true -> existsb q (docs ++ [x]) = true.
Proof. intros Hx. rewrite existsb_app. simpl. rewrite Hx. by destruct (existsb q docs). Qed.

(** [p.catch(console.error)] of an unlink always resolves, and the path is
    gone afterwards. *)
Lemma unlink_logged path w :
  fst (catch_log (fs_unlink path) w) = Ret tt
  /\ (path ∉ files (snd (catch_log (fs_unlink path) w)))
  /\ media (snd (catch_log (fs_unlink path) w)) = media w
  /\ sessions (snd (catch_log (fs_unlink path) w)) = sessions w.
Proof.
  unfold catch_log, try_catch, fs_unlink.
  destruct (bool_decide (path ∈ files w)) eqn:Hin; simpl.
  - split; [done|]. split; [|done].
    intros [_ Hout]%elem_of_difference. apply Hout. by apply elem_of_singleton.
  - apply bool_decide_eq_false in Hin. by split.
Qed.

(** The [catch] of the handler answers 500 with the message of the error
    and leaves no temporary file. *)
Lemma chat_catch_run path e w :
  exists w',
    chat_catch (Some path) e w
    = (Ret (res_status 500 (JsonError (Js.or_else (Some (message e)) "Analysis failed."))), w')
    /\ (path ∉ files w') /\ media w' = media w /\ sessions w' = sessions w.
Proof.
  unfold chat_catch, bind.
  destruct (unlink_logged path w) as (Hret & Hgone & Hmedia & Hsess).
  destruct (catch_log (fs_unlink path) w) as [out w1]. simpl in *. subst out.
  by exists w1.
Qed.

(** What a successful upload leaves behind (server.js 284-298). *)
Lemma chat_upload_ret tempPath w uploaded savedClip w1 :
  chat_upload E userId req tempPath w = (Ret (uploaded, savedClip), w1) ->
  exists cloud,
    cloudinary_upload E tempPath = inl cloud
    /\ gemini_upload E tempPath (cb_mimeType req) = inl uploaded
    /\ db_fault E (db_ops w) = None
    /\ savedClip = placeholder_clip userId req cloud (now w) (next_id w)
    /\ w1 = set_next_id S
              (set_clips (fun docs => docs ++ [savedClip])
                 (set_db_ops S
                    (set_cdn (fun vs => {[public_id cloud]} ∪ vs)
                       (set_files (fun fs => {[tempPath]} ∪ fs) w)))).
Proof.
  unfold chat_upload, fs_writeFile, modify, Promise_all2, cloudinary_uploader_upload,
    fileManager_uploadFile, Clip_create, gets, bind. simpl.
  destruct (cloudinary_upload E tempPath) as [cloud|];
    [|by destruct (gemini_upload E tempPath (cb_mimeType req))].
  destruct (gemini_upload E tempPath (cb_mimeType req)) as [up|]; [|done].
  rewrite db_op_run. simpl.
  destruct (db_fault E (db_ops w)); [done|].
  intros [= <- <- <-]. by exists cloud.
Qed.

Lemma settles_ret {A} (a : A) : settles (ret a).
Proof. by intros w. Qed.

Lemma settles_throw {A} e : settles (@throw A e).
Proof. by intros w. Qed.

Lemma settles_bind {A B} (m : M A) (k : A -> M B) :
  settles m -> (forall a, settles (k a)) -> settles (bind m k).
Proof.
  intros Hm Hk w. unfold bind. specialize (Hm w).
  destruct (m w) as [[a|e|] w1]; simpl in *; [apply Hk|done..].
Qed.

Lemma settles_db_op : settles (db_op E).
Proof. intros w. rewrite db_op_run. simpl. by destruct (db_fault E (db_ops w)). Qed.

Lemma settles_Session_updateOne q g : settles (Session_updateOne E q g).
Proof. apply settles_bind; [apply settles_db_op|]. by intros _ w. Qed.

Lemma settles_Session_save s : settles (Session_save E s).
Proof.
  apply settles_bind; [apply settles_db_op|]. intros _ w. cbv beta.
  by destruct (existsb _ (sessions w)).
Qed.

Lemma settles_chat_merge session json : settles (chat_merge E session json).
Proof.
  unfold chat_merge. destruct (a_players_detected json) as [[|p rest]|];
    try apply settles_ret.
  apply settles_bind; [by intros w|]. intros today. apply settles_Session_save.
Qed.

Lemma settles_chat_history json : settles (chat_history E req json).
Proof.
  apply settles_bind; [apply settles_Session_updateOne|]. intros _.
  apply settles_Session_updateOne.
Qed.

Lemma Clip_save_run c w :
  Clip_save E c w
  = match db_fault E (db_ops w) with
    | Some e => (Throw e, set_db_ops S w)
    | None =>
        if existsb (fun d => (Clip._id d =? Clip._id c)%nat) (clips w)
        then (Ret tt, set_clips (update_first (fun d => (Clip._id d =? Clip._id c)%nat)
                                              (fun _ => c))
                                (set_db_ops S w))
        else (Throw (Error "No document found for query"), set_db_ops S w)
    end.
Proof.
  unfold Clip_save. rewrite db_bind_run. by destruct (db_fault E (db_ops w)).
Qed.

(** After a successful upload, whatever the poll and the models do, the
    clips, the stored videos and the video-deletes stay as the upload left
    them, and the clip handed on is the placeholder. *)
Lemma chat_video_output_after_upload fuel rulesContext playbookContext tempPath
    w uploaded savedClip w1 out w2 :
  chat_upload E userId req tempPath w = (Ret (uploaded, savedClip), w1) ->
  chat_video_output E fuel userId req rulesContext playbookContext tempPath w = (out, w2) ->
  media w2 = media w1
  /\ forall c file session text, out = Ret (c, file, session, text) -> c = savedClip.
Proof.
  intros Hup. unfold chat_video_output. rewrite (bind_ret_eq _ _ _ _ _ Hup). simpl.
  unfold bind at 1.
  pose proof (preserves_await_ingestion E media media_only_media fuel (file_name uploaded) w1)
    as Hawait.
  destruct (await_ingestion E fuel (file_name uploaded) w1) as [[file|e|] wa];
    simpl in Hawait; [|intros [= <- <-]; by split..].
  unfold bind at 1.
  pose proof (preserves_chat_generate E media media_only_media userId req rulesContext
                playbookContext file wa) as Hgen.
  destruct (chat_generate E userId req rulesContext playbookContext file wa)
    as [[gen|e|] wb]; simpl in Hgen; intros [= <- <-];
    (split; [congruence|]); [|done..].
  by intros c file' session text [= <- _ _ _].
Qed.

(** Every way the second half of the video branch can end
    (server.js 350-393). *)
Lemma chat_video_record_cases tempPath savedClip file session text w2 out w' :
  chat_video_record E req tempPath savedClip file session text w2 = (out, w') ->
  cdn w' = cdn w2 /\ destroyed w' = destroyed w2
  /\ match out with
     | Ret r =>
         exists data,
           a_data (parse_analysis E text) = Some data
           /\ r = res_json (JsonAnalysis
                              (JSON_stringify E (parse_analysis E text))
                              (analysed_clip savedClip (parse_analysis E text) data file))
           /\ clips w'
              = update_first (fun d => (Clip._id d =? Clip._id savedClip)%nat)
                  (fun _ => analysed_clip savedClip (parse_analysis E text) data file)
                  (clips w2)
           /\ (tempPath ∉ files w')
     | Throw e =>
         clips w' = clips w2
         \/ exists data w3 w4,
              a_data (parse_analysis E text) = Some data
              /\ clips w'
                 = update_first (fun d => (Clip._id d =? Clip._id savedClip)%nat)
                     (fun _ => analysed_clip savedClip (parse_analysis E text) data file)
                     (clips w2)
              /\ chat_history E req (parse_analysis E text) w3 = (Throw e, w4)
     | Pending => False
     end.
Proof.
  unfold chat_video_record. set (json := parse_analysis E text).
  unfold bind at 1.
  pose proof (preserves_chat_merge E media media_only_media session json w2) as Hmerge.
  pose proof (settles_chat_merge session json w2) as Hsettle.
  destruct (chat_merge E session json w2) as [[u|e|] w3]; simpl in Hmerge, Hsettle;
    [|intros [= <- <-]; injection Hmerge as Hc Hv Hd; repeat split; auto|done].
  injection Hmerge as Hc3 Hv3 Hd3.
  unfold chat_persist. destruct (a_data json) as [data|] eqn:Hdata;
    [|unfold bind, throw; intros [= <- <-]; repeat split; auto].
  unfold bind at 1 2. rewrite Clip_save_run.
  destruct (db_fault E (db_ops w3));
    [intros [= <- <-]; simpl; repeat split; auto|].
  destruct (existsb _ (clips w3));
    [|intros [= <- <-]; simpl; repeat split; auto].
  simpl. unfold bind at 1.
  match goal with
  | |- context [chat_history E req json ?w4] =>
      pose proof (preserves_chat_history E media media_only_media req json w4) as Hhist;
      pose proof (settles_chat_history json w4) as Hsettle';
      destruct (chat_history E req json w4) as [[u5|e|] w5] eqn:Hrun;
      simpl in Hhist, Hsettle'; [| |done]
  end; injection Hhist as Hc5 Hv5 Hd5.
  - unfold bind.
    destruct (unlink_logged tempPath w5) as (Hret & Hgone & Hmedia & _).
    destruct (catch_log (fs_unlink tempPath) w5) as [o6 w6]. simpl in *. subst o6.
    injection Hmedia as Hc6 Hv6 Hd6.
    intros [= <- <-]. split; [congruence|]. split; [congruence|].
    exists data. repeat split; [|done]. congruence.
  - intros [= <- <-]. split; [congruence|]. split; [congruence|].
    right. exists data. do 2 eexists. split; [done|]. split; [congruence|]. exact Hrun.
Qed.

Lemma chat_video_eq fuel w :
  Js.truthy (cb_fileData req) = true ->
  chat E fuel userId req w
  = try_catch (chat_video E fuel userId req (rulesContext_of E (cb_rules req))
                          (playbookContext_of (cb_playbook req)) (tempPath_of (now w)))
              (chat_catch (Some (tempPath_of (now w)))) w.
Proof. intros Hfile. unfold chat. by rewrite Hfile. Qed.

(** With model text that does not parse and the database answering, the
    second half of the video branch returns the error payload. *)
Lemma chat_video_record_error tempPath savedClip file session text w2 :
  JSON_parse E text = None ->
  (forall i, i < 3 -> db_fault E (db_ops w2 + i) = None) ->
  existsb (fun d => (Clip._id d =? Clip._id savedClip)%nat) (clips w2) = true ->
  exists w',
    chat_video_record E req tempPath savedClip file session text w2
    = (Ret (res_json (JsonAnalysis
                        (JSON_stringify E ANALYSIS_ERROR)
                        (analysed_clip savedClip ANALYSIS_ERROR
                           {| o_formation := Some "Error"; d_formation := Some "Error" |}
                           file))),
       w').
Proof.
  intros Hparse Hdb Hex.
  pose proof (Hdb 0 ltac:(lia)) as Hdb0. rewrite Nat.add_0_r in Hdb0.
  pose proof (Hdb 1 ltac:(lia)) as Hdb1. rewrite Nat.add_1_r in Hdb1.
  pose proof (Hdb 2 ltac:(lia)) as Hdb2.
  replace (db_ops w2 + 2) with (S (S (db_ops w2))) in Hdb2 by lia.
  unfold chat_video_record, parse_analysis. rewrite Hparse.
  unfold chat_merge, chat_persist, chat_history. simpl.
  unfold bind at 1 2 3. simpl. rewrite Clip_save_run, Hdb0.
  change (Clip._id (analysed_clip savedClip ANALYSIS_ERROR _ file))
    with (Clip._id savedClip).
  rewrite Hex. simpl. rewrite bind_assoc, Session_updateOne_bind. simpl. rewrite Hdb1.
  rewrite Session_updateOne_bind. simpl. rewrite Hdb2.
  unfold bind.
  match goal with
  | |- context [catch_log (fs_unlink tempPath) ?w5] =>
      destruct (unlink_logged tempPath w5) as (Hret & _);
      destruct (catch_log (fs_unlink tempPath) w5) as [o6 w6]
  end.
  simpl in Hret. subst o6. by eexists.
Qed.

Lemma settles_chat_upload tempPath : settles (chat_upload E userId req tempPath).
Proof.
  intros w.
  unfold chat_upload, fs_writeFile, modify, Promise_all2, cloudinary_uploader_upload,
    fileManager_uploadFile, Clip_create, gets, bind. simpl.
  destruct (cloudinary_upload E tempPath) as [cloud|];
    destruct (gemini_upload E tempPath (cb_mimeType req)) as [up|]; simpl; try done.
  rewrite db_op_run. simpl. by destruct (db_fault E (db_ops w)).
Qed.

Lemma settles_chat_generate rulesContext playbookContext file :
  settles (chat_generate E userId req rulesContext playbookContext file).
Proof.
  unfold chat_generate. apply settles_bind.
  - apply settles_bind; [apply settles_db_op|]. by intros _ w.
  - intros [session|]; [|apply settles_throw].
    apply settles_bind; [|intros result; apply settles_ret].
    intros w. by destruct (generateWithFallback_frame E
      [FilePart (cb_mimeType req) (uri file);
       TextPart (systemInstruction_of (cb_position req)
                   (Js.or_else (rubric (cb_position req)) (Js.interpolate (rubric "team")))
                   rulesContext playbookContext
                   (Js.join nl (map (fun p => identifier p +:+ ": "
                                              +:+ Js.join ", " (weaknesses p))
                                    (Session.roster session))))] w) as (called & _ & Hout).
Qed.

(** The video branch is left waiting only by the poll. *)
Lemma chat_video_pending fuel rulesContext playbookContext tempPath w w' :
  chat_video E fuel userId req rulesContext playbookContext tempPath w = (Pending, w') ->
  exists fileName w1 w2,
    polls w1 = polls w /\ await_ingestion E fuel fileName w1 = (Pending, w2).
Proof.
  unfold chat_video, bind at 1.
  destruct (chat_video_output E fuel userId req rulesContext playbookContext tempPath w)
    as [[[[[c file] session] text]|e|] wo] eqn:Hout; [|discriminate|].
  - intros Hrecord. simpl in Hrecord.
    by apply chat_video_record_cases in Hrecord as (_ & _ & ?).
  - intros _. unfold chat_video_output, bind at 1 in Hout.
    pose proof (settles_chat_upload tempPath w) as Hup.
    destruct (chat_upload E userId req tempPath w) as [[[uploaded c]|e|] w1] eqn:Hupload;
      [|discriminate|done].
    apply chat_upload_ret in Hupload as (cloud & _ & _ & _ & _ & Hw1).
    simpl in Hout. unfold bind at 1 in Hout.
    destruct (await_ingestion E fuel (file_name uploaded) w1) as [[file|e|] wa] eqn:Hawait;
      [|discriminate|].
    + unfold bind in Hout.
      pose proof (settles_chat_generate rulesContext playbookContext file wa) as Hgen.
      destruct (chat_generate E userId req rulesContext playbookContext file wa)
        as [[gen|e|] wb]; [discriminate..|done].
    + exists (file_name uploaded), w1, wa. split; [by rewrite Hw1|done].
Qed.

End ChatVideo.

(** C6.  A video request that is answered, with success or with an error,
    leaves no temporary file: whenever [POST /api/chat] with a video
    completes, it completes with a response and the path it wrote the
    upload to is absent from the upload directory.  And it does complete,
    unless the status of the ingested file is "processing" at every one of
    the polls it is given the time for. *)
Theorem chat_temp_file_removed (E : env) (fuel : nat) (userId : string) (req : ChatBody)
    (w : world) :
  Js.truthy (cb_fileData req) = true ->
  (forall out w',
      chat E fuel userId req w = (out, w') ->
      out <> Pending ->
      (exists r, out = Ret r) /\ (tempPath_of (now w) ∉ files w'))
  /\ ((forall fileName, exists k, k <= fuel /\ ~ processing_at E fileName w k) ->
      exists r w',
        chat E fuel userId req w = (Ret r, w') /\ (tempPath_of (now w) ∉ files w')).
Proof.
  intros Hfile.
  assert (forall out w',
             chat E fuel userId req w = (out, w') ->
             out <> Pending ->
             (exists r, out = Ret r) /\ (tempPath_of (now w) ∉ files w')) as Hdone.
  { intros out w' Hrun Hdone. rewrite chat_video_eq in Hrun by done.
    unfold try_catch in Hrun.
    match type of Hrun with
    | match ?body w with _ => _ end = _ => destruct (body w) as [[r|e|] w1] eqn:Hvideo
    end.
    - injection Hrun as <- <-. split; [by eexists|].
      apply bind_ret_inv in Hvideo as (o & w2 & _ & Hrecord).
      by apply chat_video_record_cases in Hrecord as (_ & _ & data & _ & _ & _ & Hgone).
    - destruct (chat_catch_run (tempPath_of (now w)) e w1) as (w'' & Hcatch & Hgone & _).
      rewrite Hcatch in Hrun. injection Hrun as <- <-. split; [by eexists|done].
    - by injection Hrun as <- <-. }
  split; [exact Hdone|].
  intros Hleaves.
  destruct (chat E fuel userId req w) as [out w'] eqn:Hrun.
  destruct (Hdone out w' eq_refl) as ([r ->] & Hgone); [|by exists r, w'].
  intros ->. rewrite chat_video_eq in Hrun by done. unfold try_catch in Hrun.
  match type of Hrun with
  | match ?body w with _ => _ end = _ => destruct (body w) as [[r|e|] w1] eqn:Hvideo
  end; [discriminate| |].
  - destruct (chat_catch_run (tempPath_of (now w)) e w1) as (w'' & Hcatch & _).
    rewrite Hcatch in Hrun. discriminate.
  - apply chat_video_pending in Hvideo as (fileName & wa & wb & Hpolls & Hawait).
    destruct (Hleaves fileName) as (k & Hk & Hnot). apply Hnot.
    destruct (await_ingestion_pending_inv E fileName fuel wa wb Hawait k Hk)
      as (f & Hf & Hs).
    exists f. split; [by rewrite <- Hpolls|done].
Qed.

(** C3.  When the video flow reaches the parse with model text that is not
    valid JSON, and the three database operations that follow are answered,
    [POST /api/chat] responds with status 200; the reply is the fixed error
    payload, titled [Analysis Error] with formations [Error] and the generic
    summary, and that payload is what the clip of the request now holds in
    the collection. *)
Theorem chat_malformed_output (E : env) (fuel : nat) (userId : string) (req : ChatBody)
    (w : world) (savedClip : Clip.t) (file : File) (session : Session.t) (text : string)
    (w2 : world) :
  Js.truthy (cb_fileData req) = true ->
  fresh_ids w ->
  chat_video_output E fuel userId req (rulesContext_of E (cb_rules req))
    (playbookContext_of (cb_playbook req)) (tempPath_of (now w)) w
  = (Ret (savedClip, file, session, text), w2) ->
  JSON_parse E text = None ->
  (forall i, i < 3 -> db_fault E (db_ops w2 + i) = None) ->
  exists clip w',
    chat E fuel userId req w
    = (Ret (res_json (JsonAnalysis (JSON_stringify E ANALYSIS_ERROR) clip)), w')
    /\ clip = analysed_clip savedClip ANALYSIS_ERROR
                {| o_formation := Some "Error"; d_formation := Some "Error" |} file
    /\ Clip.title clip = Some "Analysis Error"
    /\ Clip.o_formation clip = Some "Error"
    /\ Clip.d_formation clip = Some "Error"
    /\ Clip.formation clip = Some "Error vs Error"
    /\ Clip.fullData clip = Some ANALYSIS_ERROR
    /\ (summary <$> a_scouting_report ANALYSIS_ERROR)
       = Some (Some "The AI analysis could not be processed. Please try again.")
    /\ clips w' = clips w ++ [clip].
Proof.
  intros Hfile Hfresh Hout Hparse Hdb.
  pose proof Hout as Hup. apply bind_ret_inv in Hup as ([uploaded c0] & w1 & Hup & _).
  destruct (chat_video_output_after_upload E userId req _ _ _ _ _ _ _ _ _ _ Hup Hout)
    as (Hmedia & Hsame).
  specialize (Hsame _ _ _ _ eq_refl). subst c0.
  destruct (chat_upload_ret E userId req _ _ _ _ _ Hup) as (cloud & _ & _ & _ & Hc0 & Hw1).
  assert (clips w2 = clips w ++ [savedClip]) as Hclips.
  { injection Hmedia as -> _ _. by rewrite Hw1. }
  assert (Clip._id savedClip = next_id w) as Hid by (by rewrite Hc0).
  destruct (chat_video_record_error E req (tempPath_of (now w)) savedClip file session text w2)
    as (w' & Hrecord); [done..| |].
  { rewrite Hclips. apply existsb_snoc, Nat.eqb_refl. }
  eexists. exists w'. split.
  - rewrite chat_video_eq by done. unfold try_catch, chat_video.
    rewrite (bind_ret_eq _ _ _ _ _ Hout). simpl. by rewrite Hrecord.
  - repeat split.
    apply chat_video_record_cases in Hrecord as (_ & _ & data & Hdata & _ & Hsaved & _).
    unfold parse_analysis in Hdata, Hsaved. rewrite Hparse in Hdata, Hsaved.
    injection Hdata as <-. rewrite Hsaved, Hclips.
    rewrite update_first_fresh; [done| |apply Nat.eqb_refl].
    intros d Hd. apply Nat.eqb_neq. specialize (Hfresh d Hd). lia.
Qed.

(** The steps of the video flow after the upload, one by one. *)

Section FailureStages.

Context (E : env) (fuel : nat) (userId : string) (req : ChatBody).

Lemma chat_video_output_steps rulesContext playbookContext tempPath w uploaded savedClip w1
    out wt :
  chat_upload E userId req tempPath w = (Ret (uploaded, savedClip), w1) ->
  chat_video_output E fuel userId req rulesContext playbookContext tempPath w = (out, wt) ->
  match out with
  | Ret o =>
      exists w2,
        fst (fst (fst o)) = savedClip
        /\ await_ingestion E fuel (file_name uploaded) w1 = (Ret (snd (fst (fst o))), w2)
        /\ chat_generate E userId req rulesContext playbookContext (snd (fst (fst o))) w2
           = (Ret (snd (fst o), snd o), wt)
  | Throw e =>
      await_ingestion E fuel (file_name uploaded) w1 = (Throw e, wt)
      \/ exists file w2,
           await_ingestion E fuel (file_name uploaded) w1 = (Ret file, w2)
           /\ chat_generate E userId req rulesContext playbookContext file w2 = (Throw e, wt)
  | Pending => True
  end.
Proof.
intros Hup. unfold chat_video_output. rewrite (bind_ret_eq _ _ _ _ _ Hup). cbn [fst snd].
unfold bind at 1.
destruct (await_ingestion E fuel (file_name uploaded) w1) as [[file|e|] w2] eqn:Hawait;
  [|by intros [= <- <-]; left|by intros [= <- <-]].
unfold bind.
destruct (chat_generate E userId req rulesContext playbookContext file w2)
  as [[[session text]|e|] w3] eqn:Hgen.
- intros [= <- <-]. cbn. by exists w2.
- intros [= <- <-]. right. by exists file, w2.
- by intros [= <- <-].
Qed.

Lemma chat_persist_cases savedClip json file v out v' :
  chat_persist E savedClip json file v = (out, v') ->
  match out with
  | Ret clip =>
      exists data,
        a_data json = Some data
        /\ clip = analysed_clip savedClip json data file
        /\ clips v' = update_first (fun d => (Clip._id d =? Clip._id savedClip)%nat)
                                   (fun _ => clip) (clips v)
  | Throw _ => clips v' = clips v
  | Pending => False
  end.
Proof.
unfold chat_persist. destruct (a_data json) as [data|]; [|by intros [= <- <-]].
unfold bind. rewrite Clip_save_run.
destruct (db_fault E (db_ops v)); [by intros [= <- <-]|].
change (Clip._id (analysed_clip savedClip json data file)) with (Clip._id savedClip).
destruct (existsb _ (clips v)); intros [= <- <-]; [|done].
by exists data.
Qed.

Lemma chat_video_record_throw tempPath savedClip file session text w3 e wt :
  chat_video_record E req tempPath savedClip file session text w3 = (Throw e, wt) ->
  (chat_merge E session (parse_analysis E text) w3 = (Throw e, wt) /\ clips wt = clips w3)
  \/ exists w4,
       chat_merge E session (parse_analysis E text) w3 = (Ret tt, w4)
       /\ ((chat_persist E savedClip (parse_analysis E text) file w4 = (Throw e, wt)
            /\ clips wt = clips w3)
           \/ exists clip w5 data,
                chat_persist E savedClip (parse_analysis E text) file w4 = (Ret clip, w5)
                /\ chat_history E req (parse_analysis E text) w5 = (Throw e, wt)
                /\ a_data (parse_analysis E text) = Some data
                /\ clip = analysed_clip savedClip (parse_analysis E text) data file
                /\ clips wt = update_first (fun d => (Clip._id d =? Clip._id savedClip)%nat)
                                           (fun _ => clip) (clips w3)).
Proof.
unfold chat_video_record. set (json := parse_analysis E text). intros Hrun.
pose proof (preserves_chat_merge E clips media_only_clips session json w3) as Hmerge.
apply bind_throw_inv in Hrun as [Hm|([] & w4 & Hm & Hrun)];
  rewrite Hm in Hmerge; cbn in Hmerge; [by left|].
right. exists w4. split; [done|].
apply bind_throw_inv in Hrun as [Hp|(clip & w5 & Hp & Hrun)].
- left. split; [done|]. apply chat_persist_cases in Hp. congruence.
- right.
  destruct (chat_persist_cases _ _ _ _ _ _ Hp) as (data & Hdata & Hclip & Hsaved).
  pose proof (preserves_chat_history E clips media_only_clips req json w5) as Hhistory.
  apply bind_throw_inv in Hrun as [Hh|([] & w6 & Hh & Hrun)].
  + rewrite Hh in Hhistory. cbn in Hhistory.
    exists clip, w5, data. split_and!; try done. congruence.
  + exfalso. unfold bind in Hrun.
    destruct (unlink_logged tempPath w6) as (Hret & _).
    destruct (catch_log (fs_unlink tempPath) w6) as [o w7]. cbn in Hret. subst o.
    discriminate Hrun.
Qed.

End FailureStages.

(** C9, as the code has it.  When the upload of a video request has
    succeeded and a later step of the flow throws, [POST /api/chat] answers
    with status 500 and the message of the error; the video stays in
    storage and no video-delete is requested; and the clip created for the
    request stays in the collection.  Which clip it is depends on the step
    that failed.  When the failure is that of the ingestion poll, of the
    session lookup or the models, of the save of the roster or of the save
    of the clip, the collection holds the placeholder, titled
    [Analyzing...] and without analysis.  When every one of these steps
    has succeeded and the failure is that of a history append, the
    collection holds in its place the clip that was saved, with the
    analysis of the text of the model. *)
Theorem chat_failure_keeps_clip (E : env) (fuel : nat) (userId : string) (req : ChatBody)
    (w : world) (uploaded : GeminiUpload) (savedClip : Clip.t) (w1 : world)
    (e : error) (wt : world) :
  Js.truthy (cb_fileData req) = true ->
  fresh_ids w ->
  chat_upload E userId req (tempPath_of (now w)) w = (Ret (uploaded, savedClip), w1) ->
  video_flow E fuel userId req w w = (Throw e, wt) ->
  exists w',
    chat E fuel userId req w
    = (Ret (res_status 500 (JsonError (Js.or_else (Some (message e)) "Analysis failed."))), w')
    /\ destroyed w' = destroyed w
    /\ (exists publicId, Clip.publicId savedClip = Some publicId /\ publicId ∈ cdn w')
    /\ Clip.title savedClip = Some "Analyzing..."
    /\ Clip.formation savedClip = Some "..."
    /\ Clip.fullData savedClip = None
    /\ ((fails_before_save E fuel userId req uploaded savedClip w1 e wt
         /\ clips w' = clips w ++ [savedClip])
        \/ exists file text clip data,
             fails_after_save E fuel userId req uploaded savedClip w1 e wt file text clip
             /\ a_data (parse_analysis E text) = Some data
             /\ clip = analysed_clip savedClip (parse_analysis E text) data file
             /\ Clip.fullData clip = Some (parse_analysis E text)
             /\ clips w' = clips w ++ [clip]).
Proof.
  intros Hfile Hfresh Hup Hthrow. unfold video_flow in Hthrow.
  destruct (chat_upload_ret E userId req _ _ _ _ _ Hup) as (cloud & _ & _ & _ & Hc0 & Hw1).
  destruct (chat_catch_run (tempPath_of (now w)) e wt) as (w' & Hcatch & _ & Hmedia' & _).
  injection Hmedia' as Hc' Hv' Hd'.
  assert (Clip._id savedClip = next_id w) as Hid by (by rewrite Hc0).
  assert (media w1 = (clips w ++ [savedClip], {[public_id cloud]} ∪ cdn w, destroyed w))
    as Hm1 by (by rewrite Hw1).
  assert (Hreplace : forall clip,
    update_first (fun d => (Clip._id d =? Clip._id savedClip)%nat) (fun _ => clip)
                 (clips w ++ [savedClip])
    = clips w ++ [clip]).
  { intros clip. rewrite update_first_fresh; [done| |apply Nat.eqb_refl].
    intros d Hd. apply Nat.eqb_neq. specialize (Hfresh d Hd). lia. }
  exists w'. split.
  { rewrite chat_video_eq by done. unfold try_catch. by rewrite Hthrow. }
  assert (cdn wt = {[public_id cloud]} ∪ cdn w /\ destroyed wt = destroyed w
          /\ ((fails_before_save E fuel userId req uploaded savedClip w1 e wt
               /\ clips wt = clips w ++ [savedClip])
              \/ exists file text clip data,
                   fails_after_save E fuel userId req uploaded savedClip w1 e wt file text clip
                   /\ a_data (parse_analysis E text) = Some data
                   /\ clip = analysed_clip savedClip (parse_analysis E text) data file
                   /\ Clip.fullData clip = Some (parse_analysis E text)
                   /\ clips wt = clips w ++ [clip])) as (Hv & Hd & Hc).
  { apply bind_throw_inv in Hthrow as [Hout|(o & w3 & Hout & Hrecord)].
    - destruct (chat_video_output_after_upload E userId req _ _ _ _ _ _ _ _ _ _ Hup Hout)
        as (Hm & _).
      rewrite Hm1 in Hm. injection Hm as Hcw Hvw Hdw.
      split; [done|]. split; [done|]. left. split; [|done].
      pose proof (chat_video_output_steps E fuel userId req _ _ _ _ _ _ _ _ _ Hup Hout)
        as [Hawait|(file & w2 & Hawait & Hgen)].
      + by left.
      + right. exists file, w2. split; [done|]. by left.
    - destruct (chat_video_output_after_upload E userId req _ _ _ _ _ _ _ _ _ _ Hup Hout)
        as (Hm & _).
      destruct (chat_video_output_steps E fuel userId req _ _ _ _ _ _ _ _ _ Hup Hout)
        as (w2 & Hsame & Hawait & Hgen).
      destruct o as [[[c file] session] text]. cbn [fst snd] in *. subst c.
      rewrite Hm1 in Hm. injection Hm as Hc3 Hv3 Hd3.
      destruct (chat_video_record_cases E req _ _ _ _ _ _ _ _ Hrecord) as (Hvt & Hdt & _).
      split; [congruence|]. split; [congruence|].
      apply chat_video_record_throw in Hrecord
        as [[Hmerge Hct]|(w4 & Hmerge & [[Hpersist Hct]|(clip & w5 & data & Hpersist
                                                        & Hhistory & Hdata & Hclip & Hct)])].
      + left. split; [|congruence].
        right. exists file, w2. split; [done|]. right. exists session, text, w3.
        split; [done|]. by left.
      + left. split; [|congruence].
        right. exists file, w2. split; [done|]. right. exists session, text, w3.
        split; [done|]. right. by exists w4.
      + right. exists file, text, clip, data. split_and!; try done.
        * by exists w2, session, w3, w4, w5.
        * by rewrite Hclip.
        * by rewrite Hct, Hc3, Hreplace. }
  split; [congruence|]. split.
  { exists (public_id cloud). split; [by rewrite Hc0|]. rewrite Hv', Hv.
    apply elem_of_union. left. by apply elem_of_singleton. }
  split; [by rewrite Hc0|]. split; [by rewrite Hc0|]. split; [by rewrite Hc0|].
  rewrite Hc'. exact Hc.
Qed.

Lemma library_fresh_ids : fresh_ids Scenario.library.
Proof.
  intros c Hc. apply list_elem_of_In in Hc. simpl in Hc.
  destruct Hc as [<-|[<-|[<-|[]]]]; simpl; lia.
Qed.

(** The specification applied to the video of [user_a]: once with a model
    that answers, once with no model answering. *)
Lemma chat_temp_file_removed_witness :
  ((exists r, fst (chat Scenario.garbled_env 0 "user_a" Scenario.video_request Scenario.library)
              = Ret r)
   /\ (tempPath_of (now Scenario.library)
       ∉ files (snd (chat Scenario.garbled_env 0 "user_a" Scenario.video_request
                          Scenario.library))))
  /\ (exists r w',
        chat Scenario.silent_env 0 "user_a" Scenario.video_request Scenario.library
        = (Ret r, w')
        /\ (tempPath_of (now Scenario.library) ∉ files w')).
Proof.
  split.
  - apply (proj1 (chat_temp_file_removed Scenario.garbled_env 0 "user_a"
                    Scenario.video_request Scenario.library eq_refl));
      [apply surjective_pairing|].
    replace (fst (chat Scenario.garbled_env 0 "user_a" Scenario.video_request
                       Scenario.library))
      with (Ret (res_json (JsonAnalysis (Scenario.stringify ANALYSIS_ERROR)
                             (analysed_clip Scenario.pending_clip ANALYSIS_ERROR
                                {| o_formation := Some "Error"; d_formation := Some "Error" |}
                                {| state := ACTIVE; uri := "gemini://files/abc" |}))))
      by reflexivity.
    discriminate.
  - apply (proj2 (chat_temp_file_removed Scenario.silent_env 0 "user_a"
                    Scenario.video_request Scenario.library eq_refl)).
    intros fileName. exists 0. split; [lia|].
    intros (file & Hfile & Hstate). injection Hfile as <-. discriminate.
Defined.

(** The specification applied: the model answers the video of [user_a]
    with prose. *)
Lemma chat_malformed_output_witness :
  exists clip w',
    chat Scenario.garbled_env 0 "user_a" Scenario.video_request Scenario.library
    = (Ret (res_json (JsonAnalysis (Scenario.stringify ANALYSIS_ERROR) clip)), w')
    /\ Clip.title clip = Some "Analysis Error"
    /\ Clip.formation clip = Some "Error vs Error"
    /\ clips w' = clips Scenario.library ++ [clip].
Proof.
  destruct (chat_malformed_output Scenario.garbled_env 0 "user_a" Scenario.video_request
              Scenario.library Scenario.pending_clip
              {| state := ACTIVE; uri := "gemini://files/abc" |}
              (Scenario.session_doc 1 "user_a" "sess_1")
              "I cannot watch videos"
              (snd (chat_video_output Scenario.garbled_env 0 "user_a" Scenario.video_request
                      (rulesContext_of Scenario.garbled_env (cb_rules Scenario.video_request))
                      (playbookContext_of (cb_playbook Scenario.video_request))
                      (tempPath_of (now Scenario.library)) Scenario.library)))
    as (clip & w' & Hrun & _ & Htitle & _ & _ & Hformation & _ & _ & Hclips).
  - reflexivity.
  - apply library_fresh_ids.
  - apply run_eq. reflexivity.
  - reflexivity.
  - intros i _. reflexivity.
  - exists clip, w'. auto.
Defined.

(** The specification applied to the video of [user_a]: once no model
    answers, and the placeholder stays; once the database rejects the first
    history append, and the saved clip stays. *)
Lemma chat_failure_keeps_clip_witness :
  (exists w',
     chat Scenario.silent_env 0 "user_a" Scenario.video_request Scenario.library
     = (Ret (res_status 500
               (JsonError "Analysis failed. Last error: gemini-2.0-flash unavailable")), w')
     /\ destroyed w' = destroyed Scenario.library
     /\ clips w' = clips Scenario.library ++ [Scenario.pending_clip])
  /\ (exists clip w',
        chat Scenario.flaky_env 0 "user_a" Scenario.video_request Scenario.library
        = (Ret (res_status 500 (JsonError "connection lost")), w')
        /\ Clip.fullData clip <> None
        /\ clips w' = clips Scenario.library ++ [clip]).
Proof.
  split.
  - destruct (chat_failure_keeps_clip Scenario.silent_env 0 "user_a" Scenario.video_request
                Scenario.library {| file_name := "files/abc" |} Scenario.pending_clip
                (snd (chat_upload Scenario.silent_env "user_a" Scenario.video_request
                        (tempPath_of (now Scenario.library)) Scenario.library))
                (Error "Analysis failed. Last error: gemini-2.0-flash unavailable")
                (snd (video_flow Scenario.silent_env 0 "user_a" Scenario.video_request
                        Scenario.library Scenario.library)))
      as (w' & Hrun & Hdestroyed & _ & _ & _ & _ & Hclips).
    + reflexivity.
    + apply library_fresh_ids.
    + apply run_eq. reflexivity.
    + apply run_eq. reflexivity.
    + exists w'. split; [exact Hrun|]. split; [exact Hdestroyed|].
      destruct Hclips as [[_ Hclips]|(file & text & clip & data & Hafter & _)];
        [exact Hclips|].
      exfalso. destruct Hafter as (w2 & session & w3 & w4 & w5 & Hawait & Hgen & _).
      assert (Hfile : await_ingestion Scenario.silent_env 0 "files/abc"
                        (snd (chat_upload Scenario.silent_env "user_a" Scenario.video_request
                                (tempPath_of (now Scenario.library)) Scenario.library))
                      = (Ret {| state := ACTIVE; uri := "gemini://files/abc" |},
                         snd (await_ingestion Scenario.silent_env 0 "files/abc"
                                (snd (chat_upload Scenario.silent_env "user_a"
                                        Scenario.video_request
                                        (tempPath_of (now Scenario.library))
                                        Scenario.library)))))
        by (apply run_eq; reflexivity).
      cbn [file_name] in Hawait. rewrite Hfile in Hawait. injection Hawait as <- <-.
      apply (f_equal fst) in Hgen. discriminate Hgen.
  - destruct (chat_failure_keeps_clip Scenario.flaky_env 0 "user_a" Scenario.video_request
                Scenario.library {| file_name := "files/abc" |} Scenario.pending_clip
                (snd (chat_upload Scenario.flaky_env "user_a" Scenario.video_request
                        (tempPath_of (now Scenario.library)) Scenario.library))
                (Error "connection lost")
                (snd (video_flow Scenario.flaky_env 0 "user_a" Scenario.video_request
                        Scenario.library Scenario.library)))
      as (w' & Hrun & _ & _ & _ & _ & _ & Hclips).
    + reflexivity.
    + apply library_fresh_ids.
    + apply run_eq. reflexivity.
    + apply run_eq. reflexivity.
    + destruct Hclips as [[_ Hclips]|(file & text & clip & data & _ & _ & _ & Hfull
                                      & Hclips)].
      * exfalso.
        assert (Hsaved : Clip.title
                           <$> clips (snd (chat Scenario.flaky_env 0 "user_a"
                                             Scenario.video_request Scenario.library))
                         <> Clip.title <$> clips Scenario.library ++ [Scenario.pending_clip])
          by (vm_compute; discriminate).
        apply Hsaved. rewrite Hrun. cbn [snd]. by rewrite Hclips.
      * exists clip, w'. split; [exact Hrun|]. split; [|exact Hclips].
        rewrite Hfull. discriminate.
Defined.

(** C9, as the specification states it, fails: when the database rejects the first
    history append, the request of [user_a] is answered with status 500 and
    the placeholder is no longer in the collection, the clip having been
    saved with its analysis just before. *)
Lemma placeholder_kept_counterexample :
  ~ placeholder_kept Scenario.flaky_env 0 "user_a" Scenario.video_request Scenario.library.
Proof.
  intros Hkept.
  destruct (Hkept {| file_name := "files/abc" |} Scenario.pending_clip
              (snd (chat_upload Scenario.flaky_env "user_a" Scenario.video_request
                      (tempPath_of (now Scenario.library)) Scenario.library))
              (Error "connection lost")
              (snd (video_flow Scenario.flaky_env 0 "user_a" Scenario.video_request
                      Scenario.library Scenario.library))
              (run_eq _ _ eq_refl) (run_eq _ _ eq_refl))
    as (r & w' & Hrun & _ & Hin).
  assert (w' = snd (chat Scenario.flaky_env 0 "user_a" Scenario.video_request
                         Scenario.library)) as -> by (by rewrite Hrun).
  clear Hrun Hkept.
  apply (list_elem_of_fmap_2 Clip.title) in Hin. vm_compute in Hin.
  apply list_elem_of_In in Hin. simpl in Hin.
  destruct Hin as [Heq|[Heq|[Heq|[Heq|[]]]]]; discriminate Heq.
Qed.

(** C1 fails on the text branch of [POST /api/chat]: [user_b] sends a text
    message naming the session of [user_a]; the request succeeds and both
    turns are appended to the history of that session. *)
Lemma chat_text_crosses_owners :
  fst (chat Scenario.quiet 0 "user_b" Scenario.text_request Scenario.library)
  = Ret (res_json (JsonReply Scenario.advice))
  /\ sessions (snd (chat Scenario.quiet 0 "user_b" Scenario.text_request Scenario.library))
     = [ Session.set_history
           (fun _ => [ {| role := "user"; text := "What beats Cover 3?" |};
                       {| role := "model"; text := Scenario.advice |} ])
           (Scenario.session_doc 1 "user_a" "sess_1");
         Scenario.session_doc 2 "user_b" "sess_2" ]
  /\ ~ others_untouched "user_b" Scenario.library
        (snd (chat Scenario.quiet 0 "user_b" Scenario.text_request Scenario.library)).
Proof.
  split; [reflexivity|]. split; [reflexivity|].
  intros Htheirs. vm_compute in Htheirs. discriminate Htheirs.
Qed.


(** ** Owner scoping of the handlers next to the text chat *)

Section Scoping.

Context (E : env) (userId : string).

Lemma filter_update_first {A} (keep q : A -> bool) (g : A -> A) (docs : list A) :
  (forall d, d ∈ docs -> q d = true -> keep d = false /\ keep (g d) = false) ->
  List.filter keep (update_first q g docs) = List.filter keep docs.
Proof.
  induction docs as [|d docs IH]; intros Hq; simpl; [done|].
  destruct (q d) eqn:Hd; simpl.
  - destruct (Hq d (list_elem_of_here _ _) Hd) as [-> ->]. done.
  - rewrite IH; [done|]. intros d' Hd'. apply Hq. by apply list_elem_of_further.
Qed.

Lemma filter_delete_first {A} (keep q : A -> bool) (docs : list A) :
  (forall d, d ∈ docs -> q d = true -> keep d = false) ->
  List.filter keep (delete_first q docs) = List.filter keep docs.
Proof.
  induction docs as [|d docs IH]; intros Hq; simpl; [done|].
  destruct (q d) eqn:Hd; simpl.
  - by rewrite (Hq d (list_elem_of_here _ _) Hd).
  - rewrite IH; [done|]. intros d' Hd'. apply Hq. by apply list_elem_of_further.
Qed.

Lemma filter_delete_all {A} (keep q : A -> bool) (docs : list A) :
  (forall d, q d = true -> keep d = false) ->
  List.filter keep (delete_all q docs) = List.filter keep docs.
Proof.
  intros Hq. unfold delete_all. induction docs as [|d docs IH]; simpl; [done|].
  destruct (q d) eqn:Hd; simpl.
  - by rewrite (Hq d Hd).
  - by rewrite IH.
Qed.

(** Among clips with distinct identifiers, a clip that has the identifier
    of a clip found for its owner is that clip, so it has that owner. *)
Lemma first_by_id (id : nat) (docs : list Clip.t) (c : Clip.t) :
  NoDup (Clip._id <$> docs) ->
  List.find (fun d => (Clip._id d =? id)%nat && String.eqb (Clip.owner d) userId) docs
  = Some c ->
  forall d, d ∈ docs -> (Clip._id d =? id)%nat = true ->
            negb (String.eqb (Clip.owner d) userId) = false.
Proof.
  intros Hnd Hfind d Hd Hid.
  apply find_some in Hfind as [Hc Hq]. apply andb_prop in Hq as [Hcid Hco].
  apply list_elem_of_In in Hc. apply Nat.eqb_eq in Hid, Hcid.
  assert (d = c) as ->; [|by rewrite Hco].
  apply list_elem_of_lookup in Hd as [i Hi]. apply list_elem_of_lookup in Hc as [j Hj].
  assert (i = j) as ->; [|congruence].
  eapply NoDup_lookup; [exact Hnd| |].
  - by rewrite list_lookup_fmap, Hi.
  - rewrite list_lookup_fmap, Hj. simpl. congruence.
Qed.

Lemma preserves_for_of {X A} (f : world -> X) (body : A -> M unit) (xs : list A) :
  (forall x, preserves f (body x)) -> preserves f (for_of xs body).
Proof.
  intros Hbody. induction xs as [|x xs IH]; simpl; [apply preserves_ret|].
  apply preserves_bind; [apply Hbody|]. by intros _.
Qed.

Lemma theirs_db_op : preserves (theirs userId) (db_op E).
Proof. intros w. by rewrite db_op_run. Qed.

Lemma theirs_destroy publicId :
  preserves (theirs userId) (cloudinary_uploader_destroy E publicId).
Proof.
  intros w. unfold cloudinary_uploader_destroy.
  by destruct (cloudinary_destroy E _ _).
Qed.

Lemma theirs_Clip_updateOne q g :
  (forall c, q c = true -> String.eqb (Clip.owner c) userId = true
                           /\ Clip.owner (g c) = Clip.owner c) ->
  preserves (theirs userId) (Clip_updateOne E q g).
Proof.
  intros Hq. apply preserves_bind; [apply theirs_db_op|]. intros _ w.
  unfold theirs. simpl. f_equal. apply filter_update_first.
  intros c _ Hc. destruct (Hq c Hc) as [Ho ->]. by rewrite Ho.
Qed.

Lemma theirs_delete_session sessionId :
  preserves (theirs userId) (delete_session E userId sessionId).
Proof.
  apply preserves_try_catch; [|intros e; apply preserves_ret].
  apply preserves_bind; [|intros _].
  { apply preserves_bind; [apply theirs_db_op|]. intros _ w.
    unfold theirs. simpl. f_equal. apply filter_delete_first.
    by intros s _ [_ ->]%andb_prop. }
  apply preserves_bind; [|intros found].
  { apply preserves_bind; [apply theirs_db_op|]. intros _. apply preserves_gets. }
  apply preserves_bind; [|intros _].
  { apply preserves_for_of. intros clip.
    destruct (Js.truthy (Clip.publicId clip)); [apply theirs_destroy|apply preserves_ret]. }
  apply preserves_bind; [|intros _; apply preserves_ret].
  apply preserves_bind; [apply theirs_db_op|]. intros _ w.
  unfold theirs. simpl. f_equal. apply filter_delete_all.
  by intros c [_ ->]%andb_prop.
Qed.

Lemma theirs_update_clip id section :
  preserves (theirs userId) (update_clip E userId id section).
Proof.
  apply preserves_try_catch; [|intros e; apply preserves_ret].
  apply preserves_bind; [|intros _; apply preserves_ret].
  apply theirs_Clip_updateOne. by intros c [_ ->]%andb_prop.
Qed.

Lemma theirs_save_snapshot clipId imageData :
  preserves (theirs userId) (save_snapshot E userId clipId imageData).
Proof.
  apply preserves_try_catch; [|intros e; apply preserves_ret].
  apply preserves_bind; [|intros _; apply preserves_ret].
  apply theirs_Clip_updateOne. by intros c [_ ->]%andb_prop.
Qed.

Lemma theirs_delete_clip id w :
  unique_ids w -> theirs userId (snd (delete_clip E userId id w)) = theirs userId w.
Proof.
  intros Hunique. unfold delete_clip, try_catch. rewrite Clip_findOne_bind.
  destruct (db_fault E (db_ops w)); simpl; [done|].
  destruct (List.find _ (clips w)) as [clip|] eqn:Hfind; simpl; [|done].
  assert (List.filter (fun c => negb (String.eqb (Clip.owner c) userId))
            (delete_first (fun c => (Clip._id c =? id)%nat) (clips w))
          = List.filter (fun c => negb (String.eqb (Clip.owner c) userId)) (clips w))
    as Hdel.
  { apply filter_delete_first. intros d Hd Hid.
    exact (first_by_id id (clips w) clip Hunique Hfind d Hd Hid). }
  unfold bind, cloudinary_uploader_destroy, Clip_deleteOne.
  destruct (Js.truthy (Clip.publicId clip)); simpl;
    [destruct (cloudinary_destroy E _ _); simpl; [done|]|];
    unfold bind; rewrite db_op_run; simpl;
    match goal with |- context [db_fault E ?n] => destruct (db_fault E n) end;
    simpl; unfold theirs; simpl; by rewrite ?Hdel.
Qed.

Lemma theirs_clip_chat req w :
  unique_ids w -> theirs userId (snd (clip_chat E userId req w)) = theirs userId w.
Proof.
  intros Hunique. destruct (clip_chat E userId req w) as [out w'] eqn:Hrun. simpl.
  destruct (clip_chat_clips E userId req w out w' Hrun)
    as [Hs [Hc|(reply & clip & Hfind & _ & Hc)]]; unfold theirs; rewrite Hs, Hc; [done|].
  f_equal. apply filter_update_first. intros d Hd Hid. split.
  - exact (first_by_id _ (clips w) clip Hunique Hfind d Hd Hid).
  - simpl. exact (first_by_id _ (clips w) clip Hunique Hfind d Hd Hid).
Qed.

(** The handlers that select by owner, or by the identifier of a clip they
    have just found for its owner, leave the documents of the other users
    as they are. *)
Lemma siblings_owner_scoped (w : world) :
  unique_ids w ->
  (forall sessionId, others_untouched userId w (snd (delete_session E userId sessionId w)))
  /\ (forall id section, others_untouched userId w (snd (update_clip E userId id section w)))
  /\ (forall id image, others_untouched userId w (snd (save_snapshot E userId id image w)))
  /\ (forall id, others_untouched userId w (snd (delete_clip E userId id w)))
  /\ (forall req, others_untouched userId w (snd (clip_chat E userId req w))).
Proof.
  intros Hunique. unfold others_untouched. repeat split.
  - intros sessionId. apply theirs_delete_session.
  - intros id section. apply theirs_update_clip.
  - intros id image. apply theirs_save_snapshot.
  - intros id. by apply theirs_delete_clip.
  - intros req. by apply theirs_clip_chat.
Qed.

End Scoping.

(** ** The model fallback, whatever the models answer *)

Section FallbackCalls.

Context (E : env).

Lemma fallback_from_calls models : forall lastError parts w,
  models <> [] ->
  exists n,
    1 <= n <= length models
    /\ snd (fallback_from E models lastError parts w)
       = set_gen_log (fun log => log ++ take n models) w
    /\ (forall i, i + 1 < n ->
          exists e, generateContent E (length (gen_log w) + i) (nth i models "") parts = inr e)
    /\ match fst (fallback_from E models lastError parts w) with
       | Ret result =>
           generateContent E (length (gen_log w) + (n - 1)) (nth (n - 1) models "") parts
           = inl result
       | Throw e =>
           n = length models
           /\ exists e',
                generateContent E (length (gen_log w) + (n - 1)) (nth (n - 1) models "") parts
                = inr e'
                /\ e = Error ("Analysis failed. Last error: " +:+ message e')
       | Pending => False
       end.
Proof.
induction models as [|m rest IH]; intros lastError parts w Hne; [done|].
cbn [fallback_from]. unfold try_catch, model_generateContent.
destruct (generateContent E (length (gen_log w)) m parts) as [result|e] eqn:Hcall.
- exists 1. cbn. rewrite Nat.add_0_r. split_and!; try lia; done.
- destruct rest as [|m2 rest'].
  + exists 1. cbn. rewrite Nat.add_0_r. split_and!; try lia; try done.
    by exists e.
  + destruct (IH (Some e) parts (set_gen_log (fun log => log ++ [m]) w))
      as (n & Hn & Hsnd & Hbefore & Hlast); [done|].
    assert (Hlen : length (gen_log (set_gen_log (fun log => log ++ [m]) w))
                   = S (length (gen_log w))).
    { cbn. rewrite length_app. cbn. lia. }
    rewrite Hlen in Hbefore, Hlast.
    exists (S n). split_and!.
    * lia.
    * cbn [length] in Hn |- *. lia.
    * rewrite Hsnd, set_gen_log_app. reflexivity.
    * intros [|i] Hi.
      -- exists e. by rewrite Nat.add_0_r.
      -- destruct (Hbefore i) as [e' He']; [lia|].
         exists e'.
         replace (length (gen_log w) + S i) with (S (length (gen_log w)) + i) by lia.
         exact He'.
    * replace (S n - 1) with (S (n - 1)) by lia.
      replace (length (gen_log w) + S (n - 1)) with (S (length (gen_log w)) + (n - 1)) by lia.
      change (nth (S (n - 1)) (m :: m2 :: rest') "") with (nth (n - 1) (m2 :: rest') "").
      destruct (fst (fallback_from E (m2 :: rest') (Some e) parts
                       (set_gen_log (fun log => log ++ [m]) w))) as [result|e2|];
        [exact Hlast| |exact Hlast].
      destruct Hlast as [-> Hlast]. split; [reflexivity|]. exact Hlast.
Qed.

End FallbackCalls.

(** X1.  Whatever the models answer, [generateWithFallback] settles after
    calling the first [n] models of [MODEL_FALLBACK_LIST] in order, for some
    [n] between one and three, and changes nothing else in the world.  The
    calls before the last one failed; when it returns, the result is that of
    the last model called; it throws only when all three models were called
    and failed, and the error then quotes the message of the third. *)
Theorem generateWithFallback_calls (E : env) (promptParts : list Part) (w : world) :
  let attempt i :=
    generateContent E (length (gen_log w) + i) (nth i MODEL_FALLBACK_LIST "") promptParts in
  exists n,
    1 <= n <= length MODEL_FALLBACK_LIST
    /\ snd (generateWithFallback E promptParts w)
       = set_gen_log (fun log => log ++ take n MODEL_FALLBACK_LIST) w
    /\ (forall i, i + 1 < n -> exists e, attempt i = inr e)
    /\ match fst (generateWithFallback E promptParts w) with
       | Ret result => attempt (n - 1) = inl result
       | Throw e =>
           n = length MODEL_FALLBACK_LIST
           /\ exists e', attempt (n - 1) = inr e'
                         /\ e = Error ("Analysis failed. Last error: " +:+ message e')
       | Pending => False
       end.
Proof.
intros attempt. unfold generateWithFallback.
by apply (fallback_from_calls E MODEL_FALLBACK_LIST None promptParts w).
Qed.

(** ** The roster merge over a whole clip *)

Section RosterMerge.

Context (today : Z).

Lemma merge_player_length roster p :
  length roster <= length (merge_player today roster p) <= S (length roster).
Proof.
unfold merge_player.
destruct (Js.findIndex _ roster) as [idx|].
- rewrite length_alter. lia.
- rewrite length_app. simpl. lia.
Qed.

Lemma merge_roster_identifiers players : forall roster,
  (forall x, x ∈ identifier <$> merge_roster today players roster
             <-> x ∈ identifier <$> roster \/ x ∈ dp_identifier <$> players)
  /\ (identifier <$> roster) `prefix_of` (identifier <$> merge_roster today players roster)
  /\ length roster <= length (merge_roster today players roster)
     <= length roster + length players.
Proof.
induction players as [|p rest IH]; intros roster.
- simpl. split_and!; try lia; [|done].
  intros x. rewrite elem_of_nil. tauto.
- change (merge_roster today (p :: rest) roster)
    with (merge_roster today rest (merge_player today roster p)).
  destruct (IH (merge_player today roster p)) as (Hin & Hpre & Hlen).
  pose proof (merge_player_length roster p) as Hone.
  pose proof (merge_player_identifiers today roster p) as Hids.
  split_and!.
  + intros x. rewrite Hin, Hids, fmap_cons, elem_of_cons.
    destruct (decide (dp_identifier p ∈ identifier <$> roster)) as [Hp|Hp].
    * split; [tauto|]. intros [H|[->|H]]; tauto.
    * rewrite elem_of_app, list_elem_of_singleton. tauto.
  + etrans; [|exact Hpre]. rewrite Hids.
    destruct (decide (dp_identifier p ∈ identifier <$> roster)); [done|].
    by apply prefix_app_r.
  + lia.
  + simpl. lia.
Qed.

Lemma merge_player_keeps roster p i r :
  roster !! i = Some r ->
  exists r',
    merge_player today roster p !! i = Some r'
    /\ identifier r' = identifier r /\ position r' = position r
    /\ notes r `prefix_of` notes r' /\ weaknesses r `prefix_of` weaknesses r'
    /\ (dp_identifier p <> identifier r -> r' = r).
Proof.
intros Hr. unfold merge_player.
destruct (Js.findIndex _ roster) as [idx|] eqn:Hidx.
- destruct (decide (i = idx)) as [->|Hne].
  + eexists. rewrite list_lookup_alter_eq, Hr. simpl.
    split_and!; try done; try by apply prefix_app_r.
    intros Hp. apply findIndex_Some in Hidx as (x & Hx & Hq & _).
    rewrite Hr in Hx. injection Hx as <-.
    apply String.eqb_eq in Hq. congruence.
  + exists r. by rewrite list_lookup_alter_ne.
- exists r. rewrite lookup_app_l; [done|]. by eapply lookup_lt_Some.
Qed.

Lemma merge_roster_keeps players : forall roster i r,
  roster !! i = Some r ->
  exists r',
    merge_roster today players roster !! i = Some r'
    /\ identifier r' = identifier r /\ position r' = position r
    /\ notes r `prefix_of` notes r' /\ weaknesses r `prefix_of` weaknesses r'
    /\ ((forall p, p ∈ players -> dp_identifier p <> identifier r) -> r' = r).
Proof.
induction players as [|p rest IH]; intros roster i r Hr.
- exists r. by split_and!.
- change (merge_roster today (p :: rest) roster)
    with (merge_roster today rest (merge_player today roster p)).
  destruct (merge_player_keeps roster p i r Hr) as (r1 & H1 & Hid1 & Hpos1 & Hn1 & Hw1 & Hsame1).
  destruct (IH _ i r1 H1) as (r2 & H2 & Hid2 & Hpos2 & Hn2 & Hw2 & Hsame2).
  exists r2. split_and!; try congruence.
  + by etrans.
  + by etrans.
  + intros Hall.
    rewrite Hsame2.
    * apply Hsame1, Hall. by left.
    * intros q Hq. rewrite Hid1. apply Hall. by right.
Qed.

Lemma merge_roster_known players : forall roster,
  (forall p, p ∈ players -> dp_identifier p ∈ identifier <$> roster) ->
  identifier <$> merge_roster today players roster = identifier <$> roster.
Proof.
induction players as [|p rest IH]; intros roster Hall; [done|].
change (merge_roster today (p :: rest) roster)
  with (merge_roster today rest (merge_player today roster p)).
assert (Hsame : identifier <$> merge_player today roster p = identifier <$> roster).
{ rewrite merge_player_identifiers. rewrite decide_True; [done|]. apply Hall. by left. }
rewrite IH, Hsame; [done|].
intros q Hq. rewrite Hsame. apply Hall. by right.
Qed.

Lemma sum_alter_succ {A} (f : A -> nat) (g : A -> A) (l : list A) : forall i x,
  l !! i = Some x -> f (g x) = S (f x) ->
  sum_list_with f (alter g i l) = S (sum_list_with f l).
Proof.
induction l as [|y l IH]; intros [|i] x Hx Hg; try done.
- injection Hx as ->. simpl. lia.
- simpl in Hx. change (alter g (S i) (y :: l)) with (y :: alter g i l).
  cbn [sum_list_with]. rewrite (IH i x Hx Hg). lia.
Qed.

Lemma merge_player_notes roster p :
  sum_list_with (fun r => length (notes r)) (merge_player today roster p)
  = S (sum_list_with (fun r => length (notes r)) roster).
Proof.
unfold merge_player.
destruct (Js.findIndex _ roster) as [idx|] eqn:Hidx.
- apply findIndex_Some in Hidx as (x & Hx & _).
  apply (sum_alter_succ _ _ _ _ x Hx). simpl. rewrite length_app. simpl. lia.
- rewrite sum_list_with_app. simpl. lia.
Qed.

End RosterMerge.

(** X2.  After the roster loop has run over the players of a clip, the
    identifiers on the roster are those that were on it before and those
    of the detected players, and no others; the entries that were on the
    roster come first, in their order; the roster grows by at most one
    entry for each detected player and never shrinks. *)
Theorem merge_roster_covers (today : Z) (players : list DetectedPlayer)
    (roster : list PlayerProfile) :
  let merged := merge_roster today players roster in
  (forall x, x ∈ identifier <$> merged
             <-> x ∈ identifier <$> roster \/ x ∈ dp_identifier <$> players)
  /\ (identifier <$> roster) `prefix_of` (identifier <$> merged)
  /\ length roster <= length merged <= length roster + length players.
Proof. apply merge_roster_identifiers. Qed.

(** X3.  An entry of the roster stays at its index through the loop and
    keeps its identifier and its position, also when a detected player of
    the same identifier reports another position; its notes and its
    weaknesses are only appended to.  When no detected player has its
    identifier the entry is unchanged, date included. *)
Theorem merge_roster_entry_kept (today : Z) (players : list DetectedPlayer)
    (roster : list PlayerProfile) (i : nat) (r : PlayerProfile) :
  roster !! i = Some r ->
  exists r',
    merge_roster today players roster !! i = Some r'
    /\ identifier r' = identifier r /\ position r' = position r
    /\ notes r `prefix_of` notes r' /\ weaknesses r `prefix_of` weaknesses r'
    /\ ((forall p, p ∈ players -> dp_identifier p <> identifier r) -> r' = r).
Proof. apply merge_roster_keeps. Qed.

Lemma merge_roster_entry_kept_witness :
  exists r',
    merge_roster 2000 [ {| dp_identifier := "QB #12"; dp_position := "WR"; dp_grade := "A";
                           dp_observation := "Late read"; dp_weakness := Some "Eyes" |} ]
                 Scenario.squad !! 0 = Some r'
    /\ identifier r' = "QB #12" /\ position r' = "QB"
    /\ ["Holds the ball"] `prefix_of` notes r' /\ ["Footwork"] `prefix_of` weaknesses r'.
Proof.
destruct (merge_roster_entry_kept 2000
            [ {| dp_identifier := "QB #12"; dp_position := "WR"; dp_grade := "A";
                 dp_observation := "Late read"; dp_weakness := Some "Eyes" |} ]
            Scenario.squad 0
            {| identifier := "QB #12"; position := "QB"; grade := "B";
               notes := ["Holds the ball"]; weaknesses := ["Footwork"]; last_updated := 1000 |}
            eq_refl)
  as (r' & H & Hid & Hpos & Hn & Hw & _).
exists r'. split_and!; assumption.
Defined.

(** X4.  Running the roster loop again over the same detected players, as
    when a clip is analysed a second time, adds no entry: the identifiers
    on the roster are the same after the second run as after the first. *)
Theorem merge_roster_again (today later : Z) (players : list DetectedPlayer)
    (roster : list PlayerProfile) :
  identifier <$> merge_roster later players (merge_roster today players roster)
  = identifier <$> merge_roster today players roster.
Proof.
apply merge_roster_known. intros p Hp.
apply (merge_roster_identifiers today players roster). right.
apply list_elem_of_fmap. by exists p.
Qed.

(** X5.  The roster loop records one note for each detected player, on a
    matched entry or on a new one: the number of notes on the roster grows
    by the number of detected players. *)
Theorem merge_roster_notes (today : Z) (players : list DetectedPlayer)
    (roster : list PlayerProfile) :
  sum_list_with (fun r => length (notes r)) (merge_roster today players roster)
  = sum_list_with (fun r => length (notes r)) roster + length players.
Proof.
revert roster. induction players as [|p rest IH]; intros roster.
- simpl. lia.
- change (merge_roster today (p :: rest) roster)
    with (merge_roster today rest (merge_player today roster p)).
  rewrite IH, merge_player_notes. simpl. lia.
Qed.

(** ** The handlers of one clip *)

Section ClipHandlers.

Context (E : env) (userId : string).

Lemma delete_first_unique (id : nat) (docs : list Clip.t) :
  NoDup (Clip._id <$> docs) ->
  delete_first (fun c => (Clip._id c =? id)%nat) docs
  = List.filter (fun c => negb (Clip._id c =? id)%nat) docs.
Proof.
induction docs as [|d rest IH]; intros Hnd; [done|].
rewrite fmap_cons in Hnd. apply NoDup_cons in Hnd as [Hd Hrest].
simpl. destruct (Clip._id d =? id)%nat eqn:Hid; simpl.
- apply Nat.eqb_eq in Hid. symmetry. apply forallb_filter_id.
  apply forallb_forall. intros c Hc. apply negb_true_iff, Nat.eqb_neq.
  intros Heq. apply Hd. apply list_elem_of_fmap. exists c.
  split; [congruence|]. by apply list_elem_of_In.
- by rewrite IH.
Qed.

Lemma own_clip_elem (id : nat) (w : world) (clip : Clip.t) :
  own_clip id userId w = Some clip ->
  clip ∈ clips w /\ Clip._id clip = id /\ Clip.owner clip = userId.
Proof.
unfold own_clip. intros Hfind. apply find_some in Hfind as [Hin Hq].
apply andb_true_iff in Hq as [Hid Hown].
split_and!; [by apply list_elem_of_In|by apply Nat.eqb_eq|by apply String.eqb_eq].
Qed.

Lemma delete_clip_run id w :
  delete_clip E userId id w
  = match db_fault E (db_ops w) with
    | Some e => (Ret (res_status 500 (JsonError "Delete failed")), set_db_ops S w)
    | None =>
        match own_clip id userId w with
        | None => (Ret (res_json JsonSuccess), set_db_ops S w)
        | Some clip =>
            try_catch
              ((if Js.truthy (Clip.publicId clip)
                then cloudinary_uploader_destroy E (default "" (Clip.publicId clip))
                else ret tt) ;;
               Clip_deleteOne E (fun c => (Clip._id c =? id)%nat) ;;
               ret (res_json JsonSuccess))
              (fun e => ret (res_status 500 (JsonError "Delete failed")))
              (set_db_ops S w)
        end
    end.
Proof.
unfold delete_clip, try_catch at 1. rewrite Clip_findOne_bind. fold (own_clip id userId w).
destruct (db_fault E (db_ops w)); [done|].
destruct (own_clip id userId w) as [clip|]; [|done].
unfold try_catch. rewrite bind_assoc. reflexivity.
Qed.

End ClipHandlers.

(** X6.  [delete-clip], when the database answers the lookup.  For a clip
    that does not exist or belongs to another user the handler reports
    success and changes no document, no stored video and no file.  For a
    clip of the caller, in a collection without repeated identifiers, when
    the storage service and the database accept the requests: the handler
    reports success, that clip and no other leaves the collection, the
    deletion of its video was requested exactly when it carries a
    non-empty video identifier, and that video is no longer in storage. *)
Theorem delete_clip_spec (E : env) (userId : string) (id : nat) (w : world) :
  db_fault E (db_ops w) = None ->
  (own_clip id userId w = None ->
   delete_clip E userId id w = (Ret (res_json JsonSuccess), set_db_ops S w))
  /\ (forall clip,
        unique_ids w ->
        own_clip id userId w = Some clip ->
        db_fault E (S (db_ops w)) = None ->
        (Js.truthy (Clip.publicId clip) = true ->
         cloudinary_destroy E (length (destroyed w)) (default "" (Clip.publicId clip)) = None) ->
        exists w',
          delete_clip E userId id w = (Ret (res_json JsonSuccess), w')
          /\ clips w' = List.filter (fun c => negb (Clip._id c =? id)%nat) (clips w)
          /\ (clip ∉ clips w')
          /\ destroyed w' = destroyed w ++ stored_videos [clip]
          /\ (forall p, Clip.publicId clip = Some p -> p <> "" -> (p ∉ cdn w'))
          /\ sessions w' = sessions w /\ files w' = files w).
Proof.
intros Hdb. rewrite delete_clip_run, Hdb. split.
- by intros ->.
- intros clip Hunique Hfind Hdb2 Hdestroy. rewrite Hfind.
  assert (Hgone : clip ∉ (List.filter (fun c => negb (Clip._id c =? id)%nat) (clips w))).
  { intros Hin. apply list_elem_of_In, filter_In in Hin as [_ Hin].
    apply own_clip_elem in Hfind as (_ & Hid & _).
    apply Nat.eqb_eq in Hid. by rewrite Hid in Hin. }
  unfold try_catch, bind, stored_videos. cbn [mbind list_bind].
  destruct (Js.truthy (Clip.publicId clip)) eqn:Htruthy.
  + unfold cloudinary_uploader_destroy.
    change (destroyed (set_db_ops S w)) with (destroyed w). rewrite (Hdestroy eq_refl).
    unfold Clip_deleteOne, bind, db_op, modify. cbn. rewrite Hdb2.
    eexists. split; [reflexivity|]. cbn.
    rewrite delete_first_unique by exact Hunique.
    split_and!; try done.
    intros p Hp _. rewrite Hp. cbn.
    rewrite elem_of_difference, elem_of_singleton. tauto.
  + unfold Clip_deleteOne, bind, db_op, modify, ret. cbn. rewrite Hdb2.
    eexists. split; [reflexivity|]. cbn.
    rewrite delete_first_unique by exact Hunique.
    split_and!; try done.
    * by rewrite app_nil_r.
    * intros p Hp Hne. rewrite Hp in Htruthy. cbn in Htruthy.
      apply negb_false_iff, String.eqb_eq in Htruthy. done.
Qed.

Lemma library_unique_ids : unique_ids Scenario.library.
Proof.
unfold unique_ids.
apply (bool_decide_unpack (NoDup (Clip._id <$> clips Scenario.library))).
vm_compute. exact I.
Qed.

Lemma delete_clip_spec_witness :
  delete_clip Scenario.quiet "user_b" 3 Scenario.library
  = (Ret (res_json JsonSuccess), set_db_ops S Scenario.library)
  /\ exists w',
       delete_clip Scenario.quiet "user_a" 3 Scenario.library = (Ret (res_json JsonSuccess), w')
       /\ clips w' = [Scenario.clip_doc 4 "user_a" "sess_1" None None;
                      Scenario.clip_doc 5 "user_b" "sess_1" (Some "vantage_vision/b1") None]
       /\ destroyed w' = ["vantage_vision/a1"]
       /\ ("vantage_vision/a1" ∉ cdn w').
Proof.
split.
- apply (delete_clip_spec Scenario.quiet "user_b" 3 Scenario.library); reflexivity.
- destruct (delete_clip_spec Scenario.quiet "user_a" 3 Scenario.library eq_refl) as [_ Hown].
  destruct (Hown (Scenario.clip_doc 3 "user_a" "sess_1" (Some "vantage_vision/a1")
                    (Some ANALYSIS_ERROR)))
    as (w' & Hrun & Hclips & _ & Hdestroyed & Hcdn & _).
  + exact library_unique_ids.
  + reflexivity.
  + reflexivity.
  + reflexivity.
  + exists w'. split_and!; [exact Hrun|exact Hclips|exact Hdestroyed|].
    apply (Hcdn "vantage_vision/a1"); [reflexivity|discriminate].
Defined.

(** X7.  [delete-clip] always answers, with success or with status 500 and
    [Delete failed]; it never changes a session or the upload directory,
    and when it answers 500 every clip is still in the collection.  The
    video is deleted before the document: when the storage service accepts
    the deletion and the database then rejects [deleteOne], the answer is
    500, the clip is still there and its video is gone from storage. *)
Theorem delete_clip_failure (E : env) (userId : string) (id : nat) (w : world) :
  (exists r w',
     delete_clip E userId id w = (Ret r, w')
     /\ (r = res_json JsonSuccess
         \/ r = res_status 500 (JsonError "Delete failed") /\ clips w' = clips w)
     /\ sessions w' = sessions w /\ files w' = files w)
  /\ (forall clip p e,
        db_fault E (db_ops w) = None ->
        own_clip id userId w = Some clip ->
        Clip.publicId clip = Some p -> p <> "" ->
        cloudinary_destroy E (length (destroyed w)) p = None ->
        db_fault E (S (db_ops w)) = Some e ->
        exists w',
          delete_clip E userId id w = (Ret (res_status 500 (JsonError "Delete failed")), w')
          /\ clip ∈ clips w' /\ (p ∉ cdn w') /\ destroyed w' = destroyed w ++ [p]).
Proof.
rewrite delete_clip_run. split.
- destruct (db_fault E (db_ops w)) as [e|]; [by eexists _, _; split_and!; [reflexivity|right|..]|].
  destruct (own_clip id userId w) as [clip|]; [|by eexists _, _; split_and!; [reflexivity|left|..]].
  unfold try_catch, bind, Clip_deleteOne, bind, db_op, modify, ret.
  destruct (Js.truthy (Clip.publicId clip)).
  + unfold cloudinary_uploader_destroy.
    destruct (cloudinary_destroy E _ _) as [e|].
    * by eexists _, _; split_and!; [reflexivity|right|..].
    * cbn. destruct (db_fault E (S (db_ops w))) as [e|].
      -- by eexists _, _; split_and!; [reflexivity|right|..].
      -- by eexists _, _; split_and!; [reflexivity|left|..].
  + cbn. destruct (db_fault E (S (db_ops w))) as [e|].
    * by eexists _, _; split_and!; [reflexivity|right|..].
    * by eexists _, _; split_and!; [reflexivity|left|..].
- intros clip p e Hdb Hfind Hp Hne Hdestroy Hdb2. rewrite Hdb, Hfind.
  assert (Htruthy : Js.truthy (Clip.publicId clip) = true).
  { rewrite Hp. cbn. apply negb_true_iff, String.eqb_neq. exact Hne. }
  unfold try_catch, bind. rewrite Htruthy, Hp. change (default "" (Some p)) with p.
  unfold cloudinary_uploader_destroy.
  change (destroyed (set_db_ops S w)) with (destroyed w). rewrite Hdestroy.
  unfold Clip_deleteOne, bind, db_op, modify, ret. cbn. rewrite Hdb2.
  eexists. split; [reflexivity|]. cbn. split_and!; [| |done].
  + by apply own_clip_elem in Hfind as (Hin & _).
  + rewrite elem_of_difference, elem_of_singleton. tauto.
Qed.

Lemma delete_clip_failure_witness :
  exists w',
    delete_clip (Scenario.scripted (Scenario.fault_at 1) Scenario.analysed Scenario.active)
                "user_a" 3 Scenario.library
    = (Ret (res_status 500 (JsonError "Delete failed")), w')
    /\ Scenario.clip_doc 3 "user_a" "sess_1" (Some "vantage_vision/a1") (Some ANALYSIS_ERROR)
       ∈ clips w'
    /\ ("vantage_vision/a1" ∉ cdn w')
    /\ destroyed w' = ["vantage_vision/a1"].
Proof.
destruct (delete_clip_failure
            (Scenario.scripted (Scenario.fault_at 1) Scenario.analysed Scenario.active)
            "user_a" 3 Scenario.library) as [_ Hdangling].
apply (Hdangling _ "vantage_vision/a1" (Error "connection lost"));
  [reflexivity|reflexivity|reflexivity|discriminate|reflexivity|reflexivity].
Defined.

(** ** [delete-session], step by step *)

Section DeleteSession.

Context (E : env) (userId sessionId : string).

Lemma preserves_destroy {X} (f : world -> X) publicId :
  (forall g w, f (set_destroyed g w) = f w) ->
  (forall g w, f (set_cdn g w) = f w) ->
  preserves f (cloudinary_uploader_destroy E publicId).
Proof.
intros Hd Hc w. unfold cloudinary_uploader_destroy.
destruct (cloudinary_destroy E _ _); simpl; by rewrite ?Hc, ?Hd.
Qed.

Lemma preserves_destroy_loop {X} (f : world -> X) docs :
  (forall g w, f (set_destroyed g w) = f w) ->
  (forall g w, f (set_cdn g w) = f w) ->
  preserves f (for_of docs (destroy_video E)).
Proof.
intros Hd Hc. apply preserves_for_of. intros clip. unfold destroy_video.
destruct (Js.truthy _); [by apply preserves_destroy|apply preserves_ret].
Qed.

Lemma settles_destroy_loop docs : settles (for_of docs (destroy_video E)).
Proof.
induction docs as [|clip rest IH]; [apply settles_ret|].
apply settles_bind; [|done]. unfold destroy_video.
destruct (Js.truthy _); [|apply settles_ret].
intros w. unfold cloudinary_uploader_destroy. by destruct (cloudinary_destroy E _ _).
Qed.

Lemma delete_session_run w :
  delete_session E userId sessionId w
  = match db_fault E (db_ops w) with
    | Some e => (Ret (res_status 500 (JsonError "Delete failed")), set_db_ops S w)
    | None =>
        let w1 := set_sessions (delete_first (session_of sessionId userId))
                               (set_db_ops S w) in
        match db_fault E (S (db_ops w)) with
        | Some e => (Ret (res_status 500 (JsonError "Delete failed")), set_db_ops S w1)
        | None =>
            match for_of (List.filter (clip_of sessionId userId) (clips w)) (destroy_video E)
                         (set_db_ops S w1) with
            | (Ret _, w3) =>
                match db_fault E (db_ops w3) with
                | Some e => (Ret (res_status 500 (JsonError "Delete failed")), set_db_ops S w3)
                | None => (Ret (res_json JsonSuccess),
                           set_clips (delete_all (clip_of sessionId userId)) (set_db_ops S w3))
                end
            | (Throw e, w3) => (Ret (res_status 500 (JsonError "Delete failed")), w3)
            | (Pending, w3) => (Pending, w3)
            end
        end
    end.
Proof.
unfold delete_session, try_catch, Session_deleteOne.
fold (session_of sessionId userId). rewrite bind_assoc, db_bind_run.
destruct (db_fault E (db_ops w)) as [e|]; [done|].
unfold bind at 1. unfold modify at 1.
unfold Clip_find. rewrite bind_assoc, db_bind_run.
change (db_ops (set_sessions _ (set_db_ops S w))) with (S (db_ops w)).
destruct (db_fault E (S (db_ops w))) as [e|]; [done|].
cbn zeta. unfold bind at 1. unfold gets at 1.
change (clips (set_db_ops S (set_sessions _ (set_db_ops S w)))) with (clips w).
unfold bind at 1. fold (destroy_video E). fold (clip_of sessionId userId).
destruct (for_of _ (destroy_video E) _) as [[u|e|] w3]; [|done|done].
unfold Clip_deleteMany. rewrite bind_assoc, db_bind_run.
by destruct (db_fault E (db_ops w3)).
Qed.

End DeleteSession.

(** X8.  [delete-session] always answers, with success or with status 500
    and [Delete failed], and never touches the upload directory.  It is
    not all-or-nothing: once the database has accepted the first
    operation the session document is removed whatever the answer turns
    out to be, while every answer of 500 leaves all the clips in the
    collection, so a failure of a later step leaves clips without their
    session. *)
Theorem delete_session_failure (E : env) (userId sessionId : string) (w : world) :
  exists r w',
    delete_session E userId sessionId w = (Ret r, w')
    /\ (r = res_json JsonSuccess
        \/ r = res_status 500 (JsonError "Delete failed") /\ clips w' = clips w)
    /\ files w' = files w
    /\ (db_fault E (db_ops w) = None ->
        sessions w' = delete_first (session_of sessionId userId) (sessions w)).
Proof.
rewrite delete_session_run.
destruct (db_fault E (db_ops w)) as [e|];
  [by eexists _, _; split_and!; [reflexivity|right|..]|].
cbn zeta.
destruct (db_fault E (S (db_ops w))) as [e|];
  [by eexists _, _; split_and!; [reflexivity|right|..]|].
set (w2 := set_db_ops S (set_sessions _ (set_db_ops S w))).
set (docs := List.filter (clip_of sessionId userId) (clips w)).
pose proof (preserves_destroy_loop E clips docs (fun _ _ => eq_refl) (fun _ _ => eq_refl) w2)
  as Hclips.
pose proof (preserves_destroy_loop E sessions docs (fun _ _ => eq_refl) (fun _ _ => eq_refl) w2)
  as Hsessions.
pose proof (preserves_destroy_loop E files docs (fun _ _ => eq_refl) (fun _ _ => eq_refl) w2)
  as Hfiles.
pose proof (settles_destroy_loop E docs w2) as Hsettles.
destruct (for_of docs (destroy_video E) w2) as [[u|e|] w3]; cbn in *; [| |done].
- destruct (db_fault E (db_ops w3)) as [e|].
  + by eexists _, _; split_and!; [reflexivity|right|..].
  + by eexists _, _; split_and!; [reflexivity|left|..].
- by eexists _, _; split_and!; [reflexivity|right|..].
Qed.

Lemma delete_session_failure_witness :
  exists w',
    delete_session (Outage.storage_rejects_delete Scenario.quiet) "user_a" "sess_1"
                   Scenario.library
    = (Ret (res_status 500 (JsonError "Delete failed")), w')
    /\ clips w' = clips Scenario.library
    /\ sessions w' = [Scenario.session_doc 2 "user_b" "sess_2"].
Proof.
destruct (delete_session_failure (Outage.storage_rejects_delete Scenario.quiet)
            "user_a" "sess_1" Scenario.library)
  as (r & w' & Hrun & Hcases & _ & Hsessions).
assert (Hfst : fst (delete_session (Outage.storage_rejects_delete Scenario.quiet)
                      "user_a" "sess_1" Scenario.library)
               = Ret (res_status 500 (JsonError "Delete failed"))) by reflexivity.
rewrite Hrun in Hfst. injection Hfst as ->.
exists w'. split_and!; [exact Hrun| |exact (Hsessions eq_refl)].
destruct Hcases as [Hcase|[_ Hclips]]; [discriminate Hcase|exact Hclips].
Defined.

(** ** Updates of one clip *)

Section ClipUpdates.

Context (E : env).

Lemma find_update_first {A} (q : A -> bool) (g : A -> A) (docs : list A) :
  (forall d, q (g d) = q d) ->
  List.find q (update_first q g docs) = g <$> List.find q docs.
Proof.
intros Hq. induction docs as [|d rest IH]; [done|].
simpl. destruct (q d) eqn:Hd; simpl.
- by rewrite Hq, Hd.
- by rewrite Hd.
Qed.

Lemma find_update_first_other {A} (q' q : A -> bool) (g : A -> A) (docs : list A) :
  (forall d, q d = true -> q' d = false /\ q' (g d) = false) ->
  List.find q' (update_first q g docs) = List.find q' docs.
Proof.
intros Hq. induction docs as [|d rest IH]; [done|].
simpl. destruct (q d) eqn:Hd; simpl.
- destruct (Hq d Hd) as [-> ->]. reflexivity.
- by rewrite IH.
Qed.

Lemma elem_of_update_first_other {A} (q : A -> bool) (g : A -> A) (docs : list A) (d : A) :
  d ∈ docs -> q d = false -> d ∈ update_first q g docs.
Proof.
intros Hin Hd. induction docs as [|x rest IH]; [done|].
simpl. apply elem_of_cons in Hin as [->|Hin].
- rewrite Hd. by left.
- destruct (q x); right; [done|by apply IH].
Qed.

Lemma length_update_first {A} (q : A -> bool) (g : A -> A) (docs : list A) :
  length (update_first q g docs) = length docs.
Proof. induction docs as [|d rest IH]; [done|]. simpl. destruct (q d); simpl; congruence. Qed.

(** What the update of the clip [id] of [userId] by [g] does to the
    collection, when [g] keeps the identity and the owner of a clip. *)
Lemma own_clip_updated (userId : string) (id : nat) (g : Clip.t -> Clip.t) (w : world) :
  (forall c, Clip._id (g c) = Clip._id c /\ Clip.owner (g c) = Clip.owner c) ->
  let w' := set_clips (update_first (fun c => (Clip._id c =? id)%nat
                                              && String.eqb (Clip.owner c) userId) g)
                      (set_db_ops S w) in
  own_clip id userId w' = g <$> own_clip id userId w
  /\ (forall id' uid, id' <> id \/ uid <> userId -> own_clip id' uid w' = own_clip id' uid w)
  /\ (forall c, c ∈ clips w -> Clip._id c <> id \/ Clip.owner c <> userId -> c ∈ clips w')
  /\ length (clips w') = length (clips w)
  /\ sessions w' = sessions w.
Proof.
intros Hg w'. unfold own_clip, w'. cbn [clips set_clips set_db_ops sessions].
split_and!.
- apply find_update_first. intros d. destruct (Hg d) as [-> ->]. reflexivity.
- intros id' uid Hne. apply find_update_first_other. intros d Hd.
  apply andb_true_iff in Hd as [Hid Hown].
  apply Nat.eqb_eq in Hid. apply String.eqb_eq in Hown.
  destruct (Hg d) as [-> ->]. rewrite Hid, Hown.
  assert (Hno : (id =? id')%nat && String.eqb userId uid = false).
  { apply andb_false_iff. destruct Hne as [Hne|Hne].
    - left. apply Nat.eqb_neq. congruence.
    - right. apply String.eqb_neq. congruence. }
  by rewrite Hno.
- intros c Hc Hne. apply elem_of_update_first_other; [done|].
  apply andb_false_iff. destruct Hne as [Hne|Hne].
  + left. by apply Nat.eqb_neq.
  + right. by apply String.eqb_neq.
- apply length_update_first.
- reflexivity.
Qed.

End ClipUpdates.

(** X9.  [update-clip].  When the database accepts the operation the
    handler reports success whether or not a clip matched: the clip that
    the caller sees under [id] afterwards is the one seen before with its
    section replaced, or still none; what any other lookup by identifier
    and owner returns is unchanged, and every clip of another identifier
    or another owner is still in the collection.  When the database
    rejects the operation the answer is 500 with [Update failed] and no
    document changes. *)
Theorem update_clip_spec (E : env) (userId : string) (id : nat) (section : string)
    (w : world) :
  (db_fault E (db_ops w) = None ->
   exists w',
     update_clip E userId id section w = (Ret (res_json JsonSuccess), w')
     /\ own_clip id userId w' = Clip.set_section section <$> own_clip id userId w
     /\ (forall id' uid, id' <> id \/ uid <> userId -> own_clip id' uid w' = own_clip id' uid w)
     /\ (forall c, c ∈ clips w -> Clip._id c <> id \/ Clip.owner c <> userId -> c ∈ clips w')
     /\ length (clips w') = length (clips w)
     /\ sessions w' = sessions w)
  /\ (forall e,
        db_fault E (db_ops w) = Some e ->
        update_clip E userId id section w
        = (Ret (res_status 500 (JsonError "Update failed")), set_db_ops S w)).
Proof.
unfold update_clip, try_catch. rewrite Clip_updateOne_bind. split.
- intros ->. eexists. split; [reflexivity|].
  by apply (own_clip_updated userId id (Clip.set_section section) w).
- by intros e ->.
Qed.

Lemma update_clip_spec_witness :
  (exists w',
     update_clip Scenario.quiet "user_a" 4 "Red Zone" Scenario.library
     = (Ret (res_json JsonSuccess), w')
     /\ (Clip.section <$> own_clip 4 "user_a" w') = Some "Red Zone"
     /\ own_clip 5 "user_b" w' = own_clip 5 "user_b" Scenario.library)
  /\ update_clip (Scenario.scripted (Scenario.fault_at 0) Scenario.analysed Scenario.active)
                 "user_a" 4 "Red Zone" Scenario.library
     = (Ret (res_status 500 (JsonError "Update failed")), set_db_ops S Scenario.library).
Proof.
split.
- destruct (update_clip_spec Scenario.quiet "user_a" 4 "Red Zone" Scenario.library)
    as [Hok _].
  destruct (Hok eq_refl) as (w' & Hrun & Hown & Hother & _).
  exists w'. split_and!; [exact Hrun| |].
  + rewrite Hown. reflexivity.
  + apply Hother. left. discriminate.
- apply (update_clip_spec
           (Scenario.scripted (Scenario.fault_at 0) Scenario.analysed Scenario.active)
           "user_a" 4 "Red Zone" Scenario.library) with (e := Error "connection lost").
  reflexivity.
Defined.

(** X10.  [save-snapshot].  When the database accepts the operation the
    handler reports success, and the clip the caller sees under [clipId]
    afterwards is the one seen before with the image appended after the
    snapshots it had; no other lookup by identifier and owner changes.  So
    two snapshots saved one after the other are both kept, in the order of
    the requests.  When the database rejects the operation the answer is
    500 with [Save failed] and no document changes. *)
Theorem save_snapshot_spec (E : env) (userId : string) (clipId : nat) (w : world) :
  (forall imageData,
      db_fault E (db_ops w) = None ->
      exists w',
        save_snapshot E userId clipId imageData w = (Ret (res_json JsonSuccess), w')
        /\ own_clip clipId userId w'
           = Clip.set_snapshots (fun shots => shots ++ [imageData]) <$> own_clip clipId userId w
        /\ (forall id' uid, id' <> clipId \/ uid <> userId ->
              own_clip id' uid w' = own_clip id' uid w)
        /\ sessions w' = sessions w)
  /\ (forall first second,
        db_fault E (db_ops w) = None ->
        db_fault E (S (db_ops w)) = None ->
        own_clip clipId userId
          (snd (save_snapshot E userId clipId second
                  (snd (save_snapshot E userId clipId first w))))
        = Clip.set_snapshots (fun shots => shots ++ [first; second])
            <$> own_clip clipId userId w)
  /\ (forall imageData e,
        db_fault E (db_ops w) = Some e ->
        save_snapshot E userId clipId imageData w
        = (Ret (res_status 500 (JsonError "Save failed")), set_db_ops S w)).
Proof.
assert (Hone : forall imageData v,
  db_fault E (db_ops v) = None ->
  exists v',
    save_snapshot E userId clipId imageData v = (Ret (res_json JsonSuccess), v')
    /\ db_ops v' = S (db_ops v)
    /\ own_clip clipId userId v'
       = Clip.set_snapshots (fun shots => shots ++ [imageData]) <$> own_clip clipId userId v
    /\ (forall id' uid, id' <> clipId \/ uid <> userId ->
          own_clip id' uid v' = own_clip id' uid v)
    /\ sessions v' = sessions v).
{ intros imageData v Hdb. unfold save_snapshot, try_catch.
  rewrite Clip_updateOne_bind, Hdb. eexists. split; [reflexivity|]. split; [reflexivity|].
  destruct (own_clip_updated userId clipId
              (Clip.set_snapshots (fun shots => shots ++ [imageData])) v)
    as (H1 & H2 & _ & _ & H5); [done|by split_and!]. }
split_and!.
- intros imageData Hdb.
  destruct (Hone imageData w Hdb) as (w' & Hrun & _ & Hown & Hother & Hs).
  by exists w'.
- intros first second Hdb Hdb2.
  destruct (Hone first w Hdb) as (w1 & Hrun1 & Hops & Hown1 & _).
  rewrite Hrun1. cbn [snd].
  destruct (Hone second w1) as (w2 & Hrun2 & _ & Hown2 & _); [by rewrite Hops|].
  rewrite Hrun2. cbn [snd]. rewrite Hown2, Hown1.
  destruct (own_clip clipId userId w) as [clip|]; [|done].
  cbn. unfold Clip.set_snapshots. cbn. by rewrite <- app_assoc.
- intros imageData e Hdb. unfold save_snapshot, try_catch.
  by rewrite Clip_updateOne_bind, Hdb.
Qed.

Lemma save_snapshot_spec_witness :
  (Clip.snapshots
     <$> own_clip 4 "user_a"
           (snd (save_snapshot Scenario.quiet "user_a" 4 "data:image/png;base64,BBBB"
                   (snd (save_snapshot Scenario.quiet "user_a" 4 "data:image/png;base64,AAAA"
                           Scenario.library)))))
  = Some ["data:image/png;base64,AAAA"; "data:image/png;base64,BBBB"]
  /\ save_snapshot (Scenario.scripted (Scenario.fault_at 0) Scenario.analysed Scenario.active)
                   "user_a" 4 "data:image/png;base64,AAAA" Scenario.library
     = (Ret (res_status 500 (JsonError "Save failed")), set_db_ops S Scenario.library).
Proof.
split.
- destruct (save_snapshot_spec Scenario.quiet "user_a" 4 Scenario.library) as (_ & Htwo & _).
  rewrite (Htwo "data:image/png;base64,AAAA" "data:image/png;base64,BBBB" eq_refl eq_refl).
  reflexivity.
- destruct (save_snapshot_spec
              (Scenario.scripted (Scenario.fault_at 0) Scenario.analysed Scenario.active)
              "user_a" 4 Scenario.library) as (_ & _ & Hfail).
  apply (Hfail _ (Error "connection lost")). reflexivity.
Defined.

(** ** The text-only chat *)

Section ChatText.

Context (E : env) (fuel : nat) (userId : string) (req : ChatBody).

Lemma chat_text_run w :
  Js.truthy (cb_fileData req) = false ->
  chat E fuel userId req w
  = match db_fault E (db_ops w) with
    | Some e =>
        (Ret (res_status 500 (JsonError (Js.or_else (Some (message e)) "Analysis failed."))),
         set_db_ops S w)
    | None =>
        let ask := {| role := "user"; text := cb_message req |} in
        let w1 := set_sessions (update_first (session_named (cb_sessionId req)) (push_turn ask))
                               (set_db_ops S w) in
        match generateWithFallback E (text_prompt E req) w1 with
        | (Ret result, w2) =>
            let answer := {| role := "model"; text := response_text result |} in
            match db_fault E (db_ops w2) with
            | Some e =>
                (Ret (res_status 500
                        (JsonError (Js.or_else (Some (message e)) "Analysis failed."))),
                 set_db_ops S w2)
            | None =>
                (Ret (res_json (JsonReply (response_text result))),
                 set_sessions (update_first (session_named (cb_sessionId req))
                                            (push_turn answer))
                              (set_db_ops S w2))
            end
        | (Throw e, w2) =>
            (Ret (res_status 500 (JsonError (Js.or_else (Some (message e)) "Analysis failed."))),
             w2)
        | (Pending, w2) => (Pending, w2)
        end
    end.
Proof.
intros Hfile. unfold chat. rewrite Hfile. cbn [negb].
unfold try_catch, chat_text. rewrite Session_updateOne_bind.
destruct (db_fault E (db_ops w)) as [e|]; [done|].
cbn zeta. unfold bind at 1. fold (text_prompt E req).
fold (session_named (cb_sessionId req)).
destruct (generateWithFallback E (text_prompt E req) _) as [[result|e|] w2]; [|done|done].
rewrite Session_updateOne_bind.
by destruct (db_fault E (db_ops w2)).
Qed.

End ChatText.

(** X11.  The text-only chat is not all-or-nothing.  When the database
    accepts the first append and every model fails, the answer is 500 with
    [Analysis failed. Last error: ] and the message of the third model,
    all three models have been called, and the question of the user is
    already in the history of the session, without a reply; clips and
    stored videos are untouched. *)
Theorem chat_text_question_kept (E : env) (fuel : nat) (userId : string) (req : ChatBody)
    (w : world) :
  Js.truthy (cb_fileData req) = false ->
  db_fault E (db_ops w) = None ->
  (forall i, i < length MODEL_FALLBACK_LIST -> fails_at E w i) ->
  exists e' w',
    generateContent E (length (gen_log w) + 2) "gemini-2.0-flash" (text_prompt E req) = inr e'
    /\ chat E fuel userId req w
       = (Ret (res_status 500 (JsonError ("Analysis failed. Last error: " +:+ message e'))), w')
    /\ sessions w'
       = update_first (session_named (cb_sessionId req))
           (push_turn {| role := "user"; text := cb_message req |}) (sessions w)
    /\ gen_log w' = gen_log w ++ MODEL_FALLBACK_LIST
    /\ media w' = media w.
Proof.
intros Hfile Hdb Hfail. rewrite (chat_text_run E fuel userId req w Hfile), Hdb. cbn zeta.
set (w1 := set_sessions _ (set_db_ops S w)).
destruct (fallback_from_failure E MODEL_FALLBACK_LIST None (text_prompt E req) w1)
  as (final & Hrun & Hfinal).
{ intros i modelName Hi. apply (Hfail i). by eapply lookup_lt_Some. }
unfold generateWithFallback. rewrite Hrun.
cbn [last MODEL_FALLBACK_LIST length Nat.sub] in Hfinal.
change (length (gen_log w1)) with (length (gen_log w)) in Hfinal.
destruct (Hfail 2 ltac:(simpl; lia) "gemini-2.0-flash" (text_prompt E req)) as [e' He'].
rewrite He' in Hfinal. subst final.
exists e'. eexists. split; [exact He'|]. split; [reflexivity|]. by split_and!.
Qed.

Lemma chat_text_question_kept_witness :
  exists w',
    chat Scenario.silent_env 0 "user_a" Scenario.text_request Scenario.library
    = (Ret (res_status 500
              (JsonError "Analysis failed. Last error: gemini-2.0-flash unavailable")), w')
    /\ (Session.history <$> List.find (session_named "sess_1") (sessions w'))
       = Some [ {| role := "user"; text := "What beats Cover 3?" |} ].
Proof.
destruct (chat_text_question_kept Scenario.silent_env 0 "user_a" Scenario.text_request
            Scenario.library eq_refl eq_refl)
  as (e' & w' & He' & Hrun & Hsessions & _).
{ intros i _ modelName parts. by eexists. }
injection He' as <-.
exists w'. split; [exact Hrun|]. rewrite Hsessions. reflexivity.
Defined.

(** X12.  The text-only chat, when the database accepts both appends and
    one of the models answers: the reply is the text of that model; the
    first session that carries the [sessionId] of the request has the
    question and the reply appended to its history, in this order, and
    every session of another [sessionId] is still in the collection.
    When no session carries that [sessionId] the reply is given all the
    same and the exchange is stored nowhere.  Clips, stored videos and
    the upload directory are untouched. *)
Theorem chat_text_spec (E : env) (fuel : nat) (userId : string) (req : ChatBody)
    (w : world) (n : nat) (result : GenResult) :
  Js.truthy (cb_fileData req) = false ->
  db_fault E (db_ops w) = None ->
  db_fault E (S (db_ops w)) = None ->
  n < length MODEL_FALLBACK_LIST ->
  (forall i, i < n -> fails_at E w i) ->
  answers_at E w n result ->
  exists w',
    chat E fuel userId req w = (Ret (res_json (JsonReply (response_text result))), w')
    /\ List.find (session_named (cb_sessionId req)) (sessions w')
       = Session.set_history
           (fun h => h ++ [ {| role := "user"; text := cb_message req |};
                            {| role := "model"; text := response_text result |} ])
         <$> List.find (session_named (cb_sessionId req)) (sessions w)
    /\ (forall s, s ∈ sessions w -> Session.sessionId s <> cb_sessionId req -> s ∈ sessions w')
    /\ (List.find (session_named (cb_sessionId req)) (sessions w) = None ->
        sessions w' = sessions w)
    /\ media w' = media w /\ files w' = files w.
Proof.
intros Hfile Hdb Hdb2 Hn Hfail Hanswer.
rewrite (chat_text_run E fuel userId req w Hfile), Hdb. cbn zeta.
set (w1 := set_sessions _ (set_db_ops S w)).
rewrite (generateWithFallback_up E (text_prompt E req) w1 n result Hn Hfail Hanswer).
cbn [db_ops set_gen_log w1 set_sessions set_db_ops]. rewrite Hdb2.
eexists. split; [reflexivity|]. cbn [sessions set_sessions set_gen_log set_db_ops w1].
split_and!.
- rewrite !find_update_first by done.
  destruct (List.find _ (sessions w)) as [s|]; [|done].
  cbn. unfold push_turn, Session.set_history. cbn. by rewrite <- app_assoc.
- intros s Hs Hne.
  assert (Hq : session_named (cb_sessionId req) s = false) by by apply String.eqb_neq.
  by do 2 (apply elem_of_update_first_other; [|done]).
- intros Hnone.
  assert (Hsame : forall g, update_first (session_named (cb_sessionId req)) g (sessions w)
                            = sessions w).
  { intros g. revert Hnone. generalize (sessions w) as docs.
    induction docs as [|d rest IH]; [done|]. simpl.
    destruct (session_named (cb_sessionId req) d); [done|]. intros Hnone. by rewrite IH. }
  by rewrite !Hsame.
- reflexivity.
- reflexivity.
Qed.

Lemma chat_text_spec_witness :
  exists w',
    chat Scenario.quiet 0 "user_a" Scenario.text_request Scenario.library
    = (Ret (res_json (JsonReply Scenario.advice)), w')
    /\ (Session.history <$> List.find (session_named "sess_1") (sessions w'))
       = Some [ {| role := "user"; text := "What beats Cover 3?" |};
                {| role := "model"; text := Scenario.advice |} ]
    /\ Scenario.session_doc 2 "user_b" "sess_2" ∈ sessions w'.
Proof.
destruct (chat_text_spec Scenario.quiet 0 "user_a" Scenario.text_request Scenario.library
            2 {| response_text := Scenario.advice |} eq_refl eq_refl eq_refl)
  as (w' & Hrun & Hfind & Hothers & _).
- simpl. lia.
- intros [|[|i]] Hi modelName parts; [by eexists|by eexists|lia].
- intros modelName parts. reflexivity.
- exists w'. split_and!; [exact Hrun| |].
  + etrans; [exact (f_equal (fmap Session.history) Hfind)|reflexivity].
  + apply Hothers; [|discriminate]. right. left.
Defined.

(** ** The video branch, forwards *)

Section VideoSteps.

Context (E : env) (fuel : nat) (userId : string) (req : ChatBody).

Lemma chat_upload_run tempPath w :
  chat_upload E userId req tempPath w
  = let w0 := set_files (fun fs => {[tempPath]} ∪ fs) w in
    match cloudinary_upload E tempPath with
    | inr e => (Throw e, w0)
    | inl cloud =>
        let w1 := set_cdn (fun vs => {[public_id cloud]} ∪ vs) w0 in
        match gemini_upload E tempPath (cb_mimeType req) with
        | inr e => (Throw e, w1)
        | inl uploaded =>
            match db_fault E (db_ops w) with
            | Some e => (Throw e, set_db_ops S w1)
            | None =>
                let c := placeholder_clip userId req cloud (now w) (next_id w) in
                (Ret (uploaded, c),
                 set_next_id S (set_clips (fun docs => docs ++ [c]) (set_db_ops S w1)))
            end
        end
    end.
Proof.
unfold chat_upload, bind, fs_writeFile, modify, Promise_all2, cloudinary_uploader_upload,
  fileManager_uploadFile, gets, Clip_create, bind, db_op, ret.
destruct (cloudinary_upload E tempPath) as [cloud|e].
- destruct (gemini_upload E tempPath (cb_mimeType req)) as [uploaded|e]; [|done].
  cbn. by destruct (db_fault E (db_ops w)).
- by destruct (gemini_upload E tempPath (cb_mimeType req)).
Qed.

(** The [catch] of the handler when the temporary file is in the upload
    directory. *)
Lemma chat_catch_written path e v :
  path ∈ files v ->
  chat_catch (Some path) e v
  = (Ret (res_status 500 (JsonError (Js.or_else (Some (message e)) "Analysis failed."))),
     set_files (fun fs => fs ∖ {[path]}) v).
Proof.
intros Hin. unfold chat_catch, bind, catch_log, try_catch, fs_unlink, ret.
by rewrite bool_decide_eq_true_2.
Qed.

(** A failure of the upload step is answered by the [catch]. *)
Lemma chat_upload_throws w e v :
  Js.truthy (cb_fileData req) = true ->
  chat_upload E userId req (tempPath_of (now w)) w = (Throw e, v) ->
  tempPath_of (now w) ∈ files v ->
  chat E fuel userId req w
  = (Ret (res_status 500 (JsonError (Js.or_else (Some (message e)) "Analysis failed."))),
     set_files (fun fs => fs ∖ {[tempPath_of (now w)]}) v).
Proof.
intros Hfile Hup Hin. rewrite (chat_video_eq E userId req fuel w Hfile).
unfold try_catch, chat_video, chat_video_output.
rewrite (bind_throw_eq _ _ w e v); [by apply chat_catch_written|].
by apply bind_throw_eq.
Qed.

End VideoSteps.

(** X13.  A video whose upload the storage service rejects while the
    ingestion service accepts it: the answer is 500 with the message of
    the rejection ([Analysis failed.] when it is empty), no clip is
    created, no database operation is issued, no model is called, no
    status query is made, and the temporary file is removed again. *)
Theorem chat_storage_rejects (E : env) (fuel : nat) (userId : string) (req : ChatBody)
    (w : world) (e : error) (uploaded : GeminiUpload) :
  Js.truthy (cb_fileData req) = true ->
  cloudinary_upload E (tempPath_of (now w)) = inr e ->
  gemini_upload E (tempPath_of (now w)) (cb_mimeType req) = inl uploaded ->
  exists w',
    chat E fuel userId req w
    = (Ret (res_status 500 (JsonError (Js.or_else (Some (message e)) "Analysis failed."))), w')
    /\ clips w' = clips w /\ sessions w' = sessions w /\ cdn w' = cdn w
    /\ db_ops w' = db_ops w /\ gen_log w' = gen_log w /\ polls w' = polls w
    /\ (tempPath_of (now w) ∉ files w').
Proof.
intros Hfile Hup _.
rewrite (chat_upload_throws E fuel userId req w e
           (set_files (fun fs => {[tempPath_of (now w)]} ∪ fs) w) Hfile).
- eexists. split; [reflexivity|]. cbn. split_and!; try done.
  rewrite elem_of_difference, elem_of_singleton. tauto.
- by rewrite chat_upload_run, Hup.
- cbn. apply elem_of_union. left. by apply elem_of_singleton.
Qed.

Lemma chat_storage_rejects_witness :
  exists w',
    chat (Outage.storage_rejects_upload Scenario.quiet) 0 "user_a" Scenario.video_request
         Scenario.library
    = (Ret (res_status 500 (JsonError "storage unavailable")), w')
    /\ clips w' = clips Scenario.library /\ gen_log w' = [].
Proof.
destruct (chat_storage_rejects (Outage.storage_rejects_upload Scenario.quiet) 0 "user_a"
            Scenario.video_request Scenario.library (Error "storage unavailable")
            {| file_name := "files/abc" |} eq_refl eq_refl eq_refl)
  as (w' & Hrun & Hclips & _ & _ & _ & Hlog & _).
exists w'. by split_and!.
Defined.

(** X14.  The two uploads are started together.  When the storage service
    accepts the video and the ingestion service rejects it, the answer is
    500 with the message of the rejection, no clip is created and no
    database operation is issued, yet the video is in storage and no
    deletion of it is requested: it stays there with no clip that refers
    to it. *)
Theorem chat_ingestion_rejects (E : env) (fuel : nat) (userId : string) (req : ChatBody)
    (w : world) (cloud : CloudUpload) (e : error) :
  Js.truthy (cb_fileData req) = true ->
  cloudinary_upload E (tempPath_of (now w)) = inl cloud ->
  gemini_upload E (tempPath_of (now w)) (cb_mimeType req) = inr e ->
  exists w',
    chat E fuel userId req w
    = (Ret (res_status 500 (JsonError (Js.or_else (Some (message e)) "Analysis failed."))), w')
    /\ clips w' = clips w /\ db_ops w' = db_ops w
    /\ public_id cloud ∈ cdn w' /\ destroyed w' = destroyed w
    /\ (tempPath_of (now w) ∉ files w').
Proof.
intros Hfile Hcloud Hup.
rewrite (chat_upload_throws E fuel userId req w e
           (set_cdn (fun vs => {[public_id cloud]} ∪ vs)
              (set_files (fun fs => {[tempPath_of (now w)]} ∪ fs) w)) Hfile).
- eexists. split; [reflexivity|]. cbn. split_and!; try done.
  + apply elem_of_union. left. by apply elem_of_singleton.
  + rewrite elem_of_difference, elem_of_singleton. tauto.
- by rewrite chat_upload_run, Hcloud, Hup.
- cbn. apply elem_of_union. left. by apply elem_of_singleton.
Qed.

Lemma chat_ingestion_rejects_witness :
  exists w',
    chat (Outage.ingestion_rejects_upload Scenario.quiet) 0 "user_a" Scenario.video_request
         Scenario.library
    = (Ret (res_status 500 (JsonError "ingestion unavailable")), w')
    /\ clips w' = clips Scenario.library
    /\ public_id Scenario.stored ∈ cdn w' /\ destroyed w' = [].
Proof.
destruct (chat_ingestion_rejects (Outage.ingestion_rejects_upload Scenario.quiet) 0 "user_a"
            Scenario.video_request Scenario.library Scenario.stored
            (Error "ingestion unavailable") eq_refl eq_refl eq_refl)
  as (w' & Hrun & Hclips & _ & Hcdn & Hdestroyed & _).
exists w'. by split_and!.
Defined.

Section VideoFlow.

Context (E : env) (fuel : nat) (userId : string) (req : ChatBody).

Lemma chat_video_output_run rulesContext playbookContext w cloud file k :
  ingested E fuel req w cloud file k ->
  chat_video_output E fuel userId req rulesContext playbookContext (tempPath_of (now w)) w
  = bind (chat_generate E userId req rulesContext playbookContext file)
         (fun gen => ret (placeholder_clip userId req cloud (now w) (next_id w),
                          file, fst gen, snd gen))
         (waited k (uploaded_world userId req cloud w)).
Proof.
intros (uploaded & Hcloud & Hup & Hdb & Hk & Hprocessing & Hfile & Hactive).
unfold chat_video_output.
rewrite (bind_ret_eq _ _ w (uploaded, placeholder_clip userId req cloud (now w) (next_id w))
           (uploaded_world userId req cloud w)).
2: { by rewrite chat_upload_run, Hcloud, Hup, Hdb. }
cbn [fst snd].
rewrite (bind_ret_eq _ _ _ file (waited k (uploaded_world userId req cloud w))); [done|].
rewrite (await_ingestion_leaves E (file_name uploaded) fuel k file
           (uploaded_world userId req cloud w) Hk Hprocessing Hfile).
- rewrite Hactive. reflexivity.
- rewrite Hactive. discriminate.
Qed.

Lemma chat_generate_missing rulesContext playbookContext file v :
  db_fault E (db_ops v) = None ->
  List.find (session_of (cb_sessionId req) userId) (sessions v) = None ->
  chat_generate E userId req rulesContext playbookContext file v
  = (Throw (Error "Cannot read properties of null (reading 'roster')"), set_db_ops S v).
Proof.
intros Hdb Hnone. unfold chat_generate. rewrite Session_findOne_bind, Hdb.
fold (session_of (cb_sessionId req) userId). by rewrite Hnone.
Qed.

End VideoFlow.

(** X15.  A video sent to a session that the caller does not own, or that
    does not exist: once the uploads are accepted and the file is
    ingested, reading the roster of the missing session throws, and the
    answer is 500 with [Cannot read properties of null (reading 'roster')].
    No model has been called and no session has changed, while the
    placeholder clip and the stored video stay behind; the temporary file
    is removed. *)
Theorem chat_video_without_session (E : env) (fuel : nat) (userId : string) (req : ChatBody)
    (w : world) (cloud : CloudUpload) (file : File) (k : nat) :
  Js.truthy (cb_fileData req) = true ->
  ingested E fuel req w cloud file k ->
  db_fault E (S (db_ops w)) = None ->
  List.find (session_of (cb_sessionId req) userId) (sessions w) = None ->
  exists w',
    chat E fuel userId req w
    = (Ret (res_status 500
              (JsonError "Cannot read properties of null (reading 'roster')")), w')
    /\ clips w' = clips w ++ [placeholder_clip userId req cloud (now w) (next_id w)]
    /\ sessions w' = sessions w /\ gen_log w' = gen_log w
    /\ public_id cloud ∈ cdn w' /\ destroyed w' = destroyed w
    /\ (tempPath_of (now w) ∉ files w').
Proof.
intros Hfile Hingested Hdb Hnone.
rewrite (chat_video_eq E userId req fuel w Hfile).
unfold try_catch, chat_video.
rewrite (bind_throw_eq _ _ w (Error "Cannot read properties of null (reading 'roster')")
           (set_db_ops S (waited k (uploaded_world userId req cloud w)))).
- rewrite chat_catch_written.
  + eexists. split; [reflexivity|]. cbn. split_and!; try done.
    * apply elem_of_union. left. by apply elem_of_singleton.
    * rewrite elem_of_difference, elem_of_singleton. tauto.
  + cbn. apply elem_of_union. left. by apply elem_of_singleton.
- rewrite (chat_video_output_run E fuel userId req _ _ w cloud file k Hingested).
  apply bind_throw_eq. by apply chat_generate_missing.
Qed.

Lemma chat_video_without_session_witness :
  exists w',
    chat Scenario.quiet 0 "user_b" Scenario.video_request Scenario.library
    = (Ret (res_status 500
              (JsonError "Cannot read properties of null (reading 'roster')")), w')
    /\ clips w'
       = clips Scenario.library
         ++ [placeholder_clip "user_b" Scenario.video_request Scenario.stored 1700000000000 6]
    /\ sessions w' = sessions Scenario.library /\ gen_log w' = [].
Proof.
destruct (chat_video_without_session Scenario.quiet 0 "user_b" Scenario.video_request
            Scenario.library Scenario.stored
            {| state := ACTIVE; uri := "gemini://files/abc" |} 0 eq_refl)
  as (w' & Hrun & Hclips & Hsessions & Hlog & _).
- exists {| file_name := "files/abc" |}. split_and!; try reflexivity.
  intros i Hi. lia.
- reflexivity.
- reflexivity.
- exists w'. by split_and!.
Defined.

Section VideoRecord.

Context (E : env) (req : ChatBody).

Lemma chat_merge_run session json v :
  db_fault E (db_ops v) = None ->
  existsb (fun d => (Session._id d =? Session._id session)%nat) (sessions v) = true ->
  exists v',
    chat_merge E session json v = (Ret tt, v')
    /\ sessions v' = roster_saved (now v) session json (sessions v)
    /\ (db_ops v' = db_ops v \/ db_ops v' = S (db_ops v))
    /\ clips v' = clips v /\ files v' = files v /\ cdn v' = cdn v
    /\ destroyed v' = destroyed v /\ gen_log v' = gen_log v.
Proof.
intros Hdb Hexists. unfold chat_merge, roster_saved.
destruct (a_players_detected json) as [[|p rest]|];
  [by exists v; split_and!; try done; left| |by exists v; split_and!; try done; left].
unfold bind, gets, Session_save, bind, db_op. rewrite Hdb.
cbn [sessions set_db_ops Session._id Session.set_roster]. rewrite Hexists.
eexists. split; [reflexivity|]. split_and!; try done. by right.
Qed.

Lemma chat_history_run json v :
  db_fault E (db_ops v) = None ->
  db_fault E (S (db_ops v)) = None ->
  chat_history E req json v
  = (Ret tt,
     set_sessions (update_first (session_named (cb_sessionId req))
                                (push_turn {| role := "model"; text := JSON_stringify E json |}))
       (set_db_ops S
          (set_sessions (update_first (session_named (cb_sessionId req))
                           (push_turn {| role := "user"; text := "Uploaded Video Analysis" |}))
             (set_db_ops S v)))).
Proof.
intros Hdb Hdb2. unfold chat_history. rewrite Session_updateOne_bind, Hdb.
unfold Session_updateOne. rewrite db_bind_run.
cbn [db_ops set_sessions set_db_ops]. by rewrite Hdb2.
Qed.

Lemma catch_log_unlink_written path v :
  path ∈ files v ->
  catch_log (fs_unlink path) v = (Ret tt, set_files (fun fs => fs ∖ {[path]}) v).
Proof.
intros Hin. unfold catch_log, try_catch, fs_unlink. by rewrite bool_decide_eq_true_2.
Qed.

(** The second half of the video branch when the text of the model
    parses and the database answers. *)
Lemma chat_video_record_run tempPath savedClip file session text json0 v :
  JSON_parse E text = Some json0 ->
  (forall i, i < 4 -> db_fault E (db_ops v + i) = None) ->
  existsb (fun d => (Session._id d =? Session._id session)%nat) (sessions v) = true ->
  existsb (fun d => (Clip._id d =? Clip._id savedClip)%nat) (clips v) = true ->
  tempPath ∈ files v ->
  let json := parse_analysis E text in
  let data := default {| o_formation := Some "Unknown"; d_formation := Some "Unknown" |}
                      (a_data json0) in
  exists w',
    chat_video_record E req tempPath savedClip file session text v
    = (Ret (res_json (JsonAnalysis (JSON_stringify E json)
                                   (analysed_clip savedClip json data file))), w')
    /\ clips w' = update_first (fun d => (Clip._id d =? Clip._id savedClip)%nat)
                               (fun _ => analysed_clip savedClip json data file) (clips v)
    /\ sessions w' = analysis_logged E (cb_sessionId req) json
                       (roster_saved (now v) session json (sessions v))
    /\ files w' = files v ∖ {[tempPath]} /\ cdn w' = cdn v
    /\ destroyed w' = destroyed v /\ gen_log w' = gen_log v.
Proof.
intros Hparse Hdb Hsession Hclip Hfile json data.
assert (Hdata : a_data json = Some data).
{ unfold json, data, parse_analysis. rewrite Hparse.
  destruct (a_data json0) as [d|] eqn:Hd; [exact Hd|reflexivity]. }
unfold chat_video_record. fold json.
destruct (chat_merge_run session json v) as (v1 & Hmerge & Hs1 & Hops1 & Hc1 & Hf1 & Hv1 & Hd1 & Hg1);
  [by rewrite <- (Hdb 0), Nat.add_0_r by lia|done|].
assert (Hdb1 : forall j, j < 3 -> db_fault E (db_ops v1 + j) = None).
{ intros j Hj. destruct Hops1 as [->| ->]; [apply Hdb; lia|].
  replace (S (db_ops v) + j) with (db_ops v + S j) by lia. apply Hdb. lia. }
rewrite (bind_ret_eq _ _ v tt v1 Hmerge).
set (clip := analysed_clip savedClip json data file).
set (v2 := set_clips (update_first (fun d => (Clip._id d =? Clip._id savedClip)%nat)
                                   (fun _ => clip)) (set_db_ops S v1)).
rewrite (bind_ret_eq _ _ v1 clip v2).
2: { unfold chat_persist. rewrite Hdata. fold clip. unfold bind. rewrite Clip_save_run.
     rewrite <- (Nat.add_0_r (db_ops v1)), (Hdb1 0) by lia.
     change (Clip._id clip) with (Clip._id savedClip). by rewrite Hc1, Hclip. }
assert (Hhistory := chat_history_run json v2).
cbn [db_ops v2 set_clips set_db_ops] in Hhistory.
rewrite (bind_ret_eq _ _ v2 tt _ (Hhistory ltac:(rewrite <- Nat.add_1_r; apply Hdb1; lia)
                                           ltac:(rewrite <- Nat.add_1_r, <- Nat.add_1_r,
                                                   <- Nat.add_assoc; apply Hdb1; lia))).
erewrite bind_ret_eq; [|apply catch_log_unlink_written; cbn; rewrite Hf1; exact Hfile].
eexists. split; [reflexivity|]. cbn.
rewrite Hc1, Hs1, Hf1, Hv1, Hd1, Hg1. by split_and!.
Qed.

End VideoRecord.

Section VideoSuccess.

Context (E : env) (fuel : nat) (userId : string) (req : ChatBody).

Lemma chat_generate_run rulesContext playbookContext file v session n result :
  db_fault E (db_ops v) = None ->
  List.find (session_of (cb_sessionId req) userId) (sessions v) = Some session ->
  n < length MODEL_FALLBACK_LIST ->
  (forall i, i < n -> fails_at E v i) ->
  answers_at E v n result ->
  chat_generate E userId req rulesContext playbookContext file v
  = (Ret (session, strip_fences E (response_text result)),
     set_gen_log (fun log => log ++ take (S n) MODEL_FALLBACK_LIST) (set_db_ops S v)).
Proof.
intros Hdb Hfind Hn Hfail Hanswer. unfold chat_generate.
rewrite Session_findOne_bind, Hdb. fold (session_of (cb_sessionId req) userId).
rewrite Hfind. cbn zeta.
erewrite bind_ret_eq; [reflexivity|].
by apply generateWithFallback_up.
Qed.

Lemma existsb_found (session : Session.t) (q : Session.t -> bool) (docs : list Session.t) :
  List.find q docs = Some session ->
  existsb (fun d => (Session._id d =? Session._id session)%nat) docs = true.
Proof.
intros Hfind. apply find_some in Hfind as [Hin _].
apply existsb_exists. exists session. split; [done|apply Nat.eqb_refl].
Qed.

End VideoSuccess.

(** X16.  The video branch when every step succeeds: the uploads are
    accepted, the file is ingested, the session of the caller is found,
    one of the models answers with text that parses to an analysis whose
    [data] names both formations, as the prompt prescribes, and the
    database accepts its operations.  The answer carries the analysis and
    the clip; the placeholder has become that clip, with the title of the
    analysis or [Untitled Clip] when it has none, the two formations, the
    formation line [o vs d] and the analysis itself; the roster merged
    with the detected players is saved on the session of the caller when
    there are any; the two history entries are appended to the first
    session that carries the [sessionId]; the temporary file is removed
    and the video is in storage. *)
Theorem chat_video_spec (E : env) (fuel : nat) (userId : string) (req : ChatBody)
    (w : world) (cloud : CloudUpload) (file : File) (k n : nat) (session : Session.t)
    (result : GenResult) (json : Analysis) (o d : string) :
  Js.truthy (cb_fileData req) = true ->
  fresh_ids w ->
  ingested E fuel req w cloud file k ->
  (forall i, i < 6 -> db_fault E (db_ops w + i) = None) ->
  List.find (session_of (cb_sessionId req) userId) (sessions w) = Some session ->
  n < length MODEL_FALLBACK_LIST ->
  (forall i, i < n -> fails_at E w i) ->
  answers_at E w n result ->
  JSON_parse E (strip_fences E (response_text result)) = Some json ->
  a_data json = Some {| o_formation := Some o; d_formation := Some d |} ->
  let clip := analysed_clip (placeholder_clip userId req cloud (now w) (next_id w))
                            json {| o_formation := Some o; d_formation := Some d |} file in
  exists w',
    chat E fuel userId req w = (Ret (res_json (JsonAnalysis (JSON_stringify E json) clip)), w')
    /\ Clip.title clip = Some (Js.or_else (a_title json) "Untitled Clip")
    /\ Clip.o_formation clip = Some o /\ Clip.d_formation clip = Some d
    /\ Clip.formation clip = Some (o +:+ " vs " +:+ d)
    /\ Clip.fullData clip = Some json
    /\ Clip.owner clip = userId /\ Clip.publicId clip = Some (public_id cloud)
    /\ clips w' = clips w ++ [clip]
    /\ sessions w'
       = analysis_logged E (cb_sessionId req) json
           (roster_saved (now w + 2000 * Z.of_nat k) session json (sessions w))
    /\ gen_log w' = gen_log w ++ take (S n) MODEL_FALLBACK_LIST
    /\ public_id cloud ∈ cdn w' /\ (tempPath_of (now w) ∉ files w').
Proof.
intros Hfile Hfresh Hingested Hdb Hfind Hn Hfail Hanswer Hparse Hdata clip.
set (text := strip_fences E (response_text result)) in *.
set (c := placeholder_clip userId req cloud (now w) (next_id w)) in *.
set (v := waited k (uploaded_world userId req cloud w)).
set (v2 := set_gen_log (fun log => log ++ take (S n) MODEL_FALLBACK_LIST) (set_db_ops S v)).
assert (Hjson : parse_analysis E text = json).
{ unfold parse_analysis. by rewrite Hparse, Hdata. }
destruct (chat_video_record_run E req (tempPath_of (now w)) c file session text json v2 Hparse)
  as (w' & Hrecord & Hclips & Hsessions & Hfiles & Hcdn & _ & Hlog).
{ intros i Hi. cbn. replace (S (S (db_ops w + i))) with (db_ops w + (2 + i)) by lia.
  apply Hdb. lia. }
{ by apply (existsb_found _ _ _ Hfind). }
{ cbn. apply existsb_snoc. apply Nat.eqb_refl. }
{ cbn. apply elem_of_union. left. by apply elem_of_singleton. }
rewrite Hjson, Hdata in Hrecord, Hclips. rewrite Hjson in Hsessions.
cbn [default from_option id] in Hrecord, Hclips. fold clip in Hrecord, Hclips.
exists w'. split_and!.
- rewrite (chat_video_eq E userId req fuel w Hfile). unfold try_catch, chat_video.
  rewrite (bind_ret_eq _ _ w (c, file, session, text) v2);
    [cbn [fst snd]; by rewrite Hrecord|].
  rewrite (chat_video_output_run E fuel userId req _ _ w cloud file k Hingested).
  rewrite (bind_ret_eq _ _ _ (session, text) v2); [reflexivity|].
  apply chat_generate_run; try done.
  cbn. replace (S (db_ops w)) with (db_ops w + 1) by lia. apply Hdb. lia.
- reflexivity.
- reflexivity.
- reflexivity.
- reflexivity.
- reflexivity.
- reflexivity.
- reflexivity.
- rewrite Hclips. cbn. apply update_first_fresh; [|apply Nat.eqb_refl].
  intros x Hx. apply Nat.eqb_neq. specialize (Hfresh x Hx). cbn. lia.
- rewrite Hsessions. reflexivity.
- rewrite Hlog. reflexivity.
- rewrite Hcdn. cbn. apply elem_of_union. left. by apply elem_of_singleton.
- rewrite Hfiles. rewrite elem_of_difference, elem_of_singleton. tauto.
Qed.

Lemma chat_video_spec_witness :
  exists clip w',
    chat Film.scouting_env 0 "user_a" Scenario.video_request Scenario.library
    = (Ret (res_json (JsonAnalysis Film.scouted_text clip)), w')
    /\ Clip.title clip = Some "Untitled Clip"
    /\ Clip.formation clip = Some "Shotgun vs Cover 3"
    /\ clips w' = clips Scenario.library ++ [clip]
    /\ (Session.roster <$> List.find (session_named "sess_1") (sessions w'))
       = Some [ {| identifier := "QB #12"; position := "QB"; grade := "A";
                   notes := ["Holds the ball"; "Late read"];
                   weaknesses := ["Footwork"; "Eyes"]; last_updated := 1700000000000 |};
                {| identifier := "WR #80"; position := "WR"; grade := "C";
                   notes := ["Rounded break"]; weaknesses := [];
                   last_updated := 1700000000000 |} ]
    /\ (Session.history <$> List.find (session_named "sess_1") (sessions w'))
       = Some [ {| role := "user"; text := "Uploaded Video Analysis" |};
                {| role := "model"; text := Film.scouted_text |} ].
Proof.
destruct (chat_video_spec Film.scouting_env 0 "user_a" Scenario.video_request
            Scenario.library Scenario.stored
            {| state := ACTIVE; uri := "gemini://files/abc" |} 0 0
            (Scenario.session_doc 1 "user_a" "sess_1")
            {| response_text := Film.scouted_text |} Film.scouted "Shotgun" "Cover 3"
            eq_refl library_fresh_ids)
  as (w' & Hrun & Htitle & _ & _ & Hformation & _ & _ & _ & Hclips & Hsessions & _).
- exists {| file_name := "files/abc" |}. split_and!; try reflexivity.
  intros i Hi. lia.
- intros i Hi. reflexivity.
- reflexivity.
- simpl. lia.
- intros i Hi. lia.
- intros modelName parts. reflexivity.
- reflexivity.
- reflexivity.
- eexists. exists w'. split_and!.
  + exact Hrun.
  + exact Htitle.
  + exact Hformation.
  + exact Hclips.
  + rewrite Hsessions. reflexivity.
  + rewrite Hsessions. reflexivity.
Defined.

(** ** Names made from the clock *)

Lemma of_time_inj (a b : Z) : Js.of_time a = Js.of_time b -> a = b.
Proof.
unfold Js.of_time. intros Heq.
assert (Hnonnil : forall z, Z.to_int z <> Decimal.Pos Decimal.Nil
                            /\ Z.to_int z <> Decimal.Neg Decimal.Nil).
{ intros [|p|p]; split; try discriminate; intros [= Hp];
    by apply (DecimalPos.Unsigned.to_uint_nonnil p). }
apply (f_equal NilZero.int_of_string) in Heq.
rewrite !NilZero.isi in Heq by apply Hnonnil.
injection Heq as Heq. by apply DecimalZ.to_int_inj.
Qed.

Lemma append_inj_l (s t1 t2 : string) : s +:+ t1 = s +:+ t2 -> t1 = t2.
Proof. induction s as [|c s IH]; [done|]. simpl. intros [= H]. by apply IH. Qed.

Lemma append_length (s t : string) :
  String.length (s +:+ t) = String.length s + String.length t.
Proof. induction s as [|c s IH]; [done|]. simpl. by rewrite IH. Qed.

Lemma append_inj_r (t s1 s2 : string) : s1 +:+ t = s2 +:+ t -> s1 = s2.
Proof.
revert s2. induction s1 as [|c s1 IH]; intros [|d s2] Heq; [done| | |].
- apply (f_equal String.length) in Heq. cbn in Heq. rewrite !append_length in Heq.
  cbn in Heq. lia.
- apply (f_equal String.length) in Heq. cbn in Heq. rewrite !append_length in Heq.
  cbn in Heq. lia.
- simpl in Heq. injection Heq as -> Heq. f_equal. by apply IH.
Qed.

(** X17.  The temporary file of an upload is named after the clock alone:
    two uploads write to the same path exactly when they begin in the same
    millisecond, whoever sends them. *)
Theorem tempPath_of_clock (t1 t2 : Z) : tempPath_of t1 = tempPath_of t2 <-> t1 = t2.
Proof.
split; [|by intros ->].
unfold tempPath_of. intros Heq.
apply append_inj_l, append_inj_l, append_inj_r in Heq.
by apply of_time_inj.
Qed.

(** ** The handlers of sessions and the search *)

Section SessionHandlers.

Context (E : env) (userId : string).

Lemma create_session_run req w :
  create_session E userId req w
  = match db_fault E (db_ops w) with
    | Some e => (Ret (send_status 500 (DataError (message e))), set_db_ops S w)
    | None =>
        let s := new_session userId req (now w) (next_id w) in
        (Ret (send (DataSession s)),
         set_next_id S (set_sessions (fun docs => docs ++ [s]) (set_db_ops S w)))
    end.
Proof.
unfold create_session, try_catch, bind, gets, Session_create, bind, db_op.
by destruct (db_fault E (db_ops w)).
Qed.

Lemma list_sessions_run type w :
  list_sessions E userId type w
  = (Ret (send (DataSessions
                  match db_fault E (db_ops w) with
                  | Some _ => []
                  | None => map item_of (merge_sort newer_first
                                           (List.filter (listed userId type) (sessions w)))
                  end)),
     set_db_ops S w).
Proof.
unfold list_sessions, try_catch, bind, Session_find, bind, db_op, gets.
by destruct (db_fault E (db_ops w)).
Qed.

Lemma get_session_run id w :
  get_session E userId id w
  = (Ret (send match db_fault E (db_ops w) with
               | Some _ => DataView [] []
               | None =>
                   let session := List.find (session_of id userId) (sessions w) in
                   DataView (from_option Session.history [] session)
                            (from_option Session.roster [] session)
               end),
     set_db_ops S w).
Proof.
unfold get_session, try_catch. rewrite Session_findOne_bind.
by destruct (db_fault E (db_ops w)).
Qed.

Lemma search_run sessionId w :
  search E userId sessionId w
  = if Js.truthy sessionId
    then (Ret (send (DataClips
                       match db_fault E (db_ops w) with
                       | Some _ => []
                       | None => merge_sort by_section
                                   (List.filter (searched userId (default "" sessionId))
                                                (clips w))
                       end)),
          set_db_ops S w)
    else (Ret (send (DataClips [])), w).
Proof.
unfold search, try_catch. destruct (Js.truthy sessionId); [|done].
cbn [negb]. unfold bind, Clip_find, bind, db_op, gets.
by destruct (db_fault E (db_ops w)).
Qed.

End SessionHandlers.

Global Instance newer_first_total : Total newer_first.
Proof. intros a b. unfold newer_first. lia. Qed.

Global Instance newer_first_trans : Transitive newer_first.
Proof. intros a b c. unfold newer_first. lia. Qed.

Global Instance by_section_total : Total by_section.
Proof.
intros a b. unfold by_section.
rewrite (String.compare_antisym (Clip.section a) (Clip.section b)).
destruct (String.compare (Clip.section b) (Clip.section a)); simpl; try tauto. lia.
Qed.

(** X18.  [create-session].  When the database accepts the operation the
    answer is the new document: it belongs to the caller, has an empty
    history and an empty roster, the title and the type of the request or
    [New Session] and [team] when they are missing or empty, and it is
    appended to the collection, every other document staying as it is.
    When the database rejects the operation the answer is 500 with the
    message of the database, and nothing is created. *)
Theorem create_session_spec (E : env) (userId : string) (req : CreateBody) (w : world) :
  (db_fault E (db_ops w) = None ->
   exists session w',
     create_session E userId req w = (Ret (send (DataSession session)), w')
     /\ Session.owner session = userId
     /\ Session.history session = [] /\ Session.roster session = []
     /\ Session.title session
        = match cr_title req with Some t => if decide (t = "") then "New Session" else t
                                | None => "New Session" end
     /\ Session.type session
        = match cr_type req with Some t => if decide (t = "") then "team" else t
                               | None => "team" end
     /\ Session._id session = next_id w
     /\ sessions w' = sessions w ++ [session] /\ clips w' = clips w)
  /\ (forall e,
        db_fault E (db_ops w) = Some e ->
        create_session E userId req w
        = (Ret (send_status 500 (DataError (message e))), set_db_ops S w)).
Proof.
rewrite create_session_run. split.
- intros ->. eexists _, _. split; [reflexivity|]. cbn. split_and!; try done.
  + destruct (cr_title req) as [t|]; [|done]. cbn.
    destruct (decide (t = "")) as [->|Hne]; [done|].
    by apply String.eqb_neq in Hne as ->.
  + destruct (cr_type req) as [t|]; [|done]. cbn.
    destruct (decide (t = "")) as [->|Hne]; [done|].
    by apply String.eqb_neq in Hne as ->.
- by intros e ->.
Qed.

Lemma create_session_spec_witness :
  (exists session w',
     create_session Scenario.quiet "user_b" {| cr_title := Some ""; cr_type := Some "qb" |}
                    Scenario.library
     = (Ret (send (DataSession session)), w')
     /\ Session.owner session = "user_b"
     /\ Session.title session = "New Session" /\ Session.type session = "qb"
     /\ sessions w' = sessions Scenario.library ++ [session])
  /\ create_session (Scenario.scripted (Scenario.fault_at 0) Scenario.analysed Scenario.active)
                    "user_b" {| cr_title := None; cr_type := None |} Scenario.library
     = (Ret (send_status 500 (DataError "connection lost")), set_db_ops S Scenario.library).
Proof.
split.
- destruct (create_session_spec Scenario.quiet "user_b"
              {| cr_title := Some ""; cr_type := Some "qb" |} Scenario.library) as [Hok _].
  destruct (Hok eq_refl) as (session & w' & Hrun & Howner & _ & _ & Htitle & Htype & _ & Hs & _).
  exists session, w'. by split_and!.
- destruct (create_session_spec
              (Scenario.scripted (Scenario.fault_at 0) Scenario.analysed Scenario.active)
              "user_b" {| cr_title := None; cr_type := None |} Scenario.library) as [_ Hfail].
  apply (Hfail (Error "connection lost")). reflexivity.
Defined.

(** X19.  The identifier of a session is made from the clock alone: two
    sessions, of the same user or of two users, get the same [sessionId]
    exactly when they are created in the same millisecond, while their
    document identifiers differ when one is created after the other. *)
Theorem session_ids_from_clock (E : env) (user1 user2 : string) (req1 req2 : CreateBody)
    (w1 w2 v1 v2 : world) (s1 s2 : Session.t) :
  create_session E user1 req1 w1 = (Ret (send (DataSession s1)), v1) ->
  create_session E user2 req2 w2 = (Ret (send (DataSession s2)), v2) ->
  (Session.sessionId s1 = Session.sessionId s2 <-> now w1 = now w2)
  /\ (w2 = v1 -> Session._id s2 = S (Session._id s1) /\ now w2 = now w1).
Proof.
rewrite !create_session_run.
destruct (db_fault E (db_ops w1)); [discriminate|].
destruct (db_fault E (db_ops w2)); [discriminate|].
cbn zeta. intros [= <- <-] [= <- Hv2]. cbn. split.
- split; [|by intros ->]. intros Heq. by apply append_inj_l, of_time_inj in Heq.
- by intros ->.
Qed.

Lemma session_ids_from_clock_witness :
  exists s1 s2,
    fst (create_session Scenario.quiet "user_a" {| cr_title := None; cr_type := None |}
           Scenario.library) = Ret (send (DataSession s1))
    /\ fst (create_session Scenario.quiet "user_b" {| cr_title := None; cr_type := None |}
              (snd (create_session Scenario.quiet "user_a"
                      {| cr_title := None; cr_type := None |} Scenario.library)))
       = Ret (send (DataSession s2))
    /\ Session.sessionId s1 = Session.sessionId s2
    /\ Session.sessionId s1 = "sess_1700000000000"
    /\ Session.owner s1 = "user_a" /\ Session.owner s2 = "user_b".
Proof.
set (blank := {| cr_title := None; cr_type := None |}).
set (s1 := new_session "user_a" blank 1700000000000 6).
set (s2 := new_session "user_b" blank 1700000000000 7).
assert (H1 : create_session Scenario.quiet "user_a" blank Scenario.library
             = (Ret (send (DataSession s1)),
                snd (create_session Scenario.quiet "user_a" blank Scenario.library)))
  by (apply run_eq; reflexivity).
assert (H2 : create_session Scenario.quiet "user_b" blank
               (snd (create_session Scenario.quiet "user_a" blank Scenario.library))
             = (Ret (send (DataSession s2)),
                snd (create_session Scenario.quiet "user_b" blank
                       (snd (create_session Scenario.quiet "user_a" blank Scenario.library)))))
  by (apply run_eq; reflexivity).
destruct (session_ids_from_clock Scenario.quiet "user_a" "user_b" blank blank _ _ _ _ s1 s2
            H1 H2) as [Hsame _].
exists s1, s2.
split; [reflexivity|]. split; [reflexivity|]. split; [exact (proj2 Hsame eq_refl)|].
split_and!; reflexivity.
Defined.

(** X20.  [session/:id] always answers with status 200 and a view, and
    writes nothing.  Whatever it shows is the history and the roster of a
    session that the caller owns and that carries the identifier asked
    for; for a session of another user, for a session that does not exist
    and when the database fails, the view is empty, so these cases cannot
    be told apart. *)
Theorem get_session_scoped (E : env) (userId id : string) (w : world) :
  exists history roster,
    get_session E userId id w = (Ret (send (DataView history roster)), set_db_ops S w)
    /\ (history <> [] \/ roster <> [] ->
        exists s, s ∈ sessions w /\ Session.owner s = userId /\ Session.sessionId s = id
                  /\ history = Session.history s /\ roster = Session.roster s)
    /\ (forall s, db_fault E (db_ops w) = None ->
                  List.find (session_of id userId) (sessions w) = Some s ->
                  history = Session.history s /\ roster = Session.roster s)
    /\ (db_fault E (db_ops w) <> None \/ List.find (session_of id userId) (sessions w) = None ->
        history = [] /\ roster = []).
Proof.
rewrite get_session_run.
destruct (db_fault E (db_ops w)) as [e|].
- exists [], []. split; [reflexivity|]. split_and!; [|done|done].
  intros [H|H]; done.
- cbn zeta. destruct (List.find (session_of id userId) (sessions w)) as [s|] eqn:Hfind; cbn.
  + exists (Session.history s), (Session.roster s). split; [reflexivity|]. split_and!.
    * intros _. exists s. apply find_some in Hfind as [Hin Hq].
      apply andb_true_iff in Hq as [Hid Hown].
      apply String.eqb_eq in Hid, Hown. split_and!; try done. by apply list_elem_of_In.
    * by intros s' _ [= <-].
    * intros [H|H]; done.
  + exists [], []. split; [reflexivity|]. split_and!; [|done|done].
    intros [H|H]; done.
Qed.

Lemma get_session_scoped_witness :
  get_session Scenario.quiet "user_a" "sess_1" Scenario.library
  = (Ret (send (DataView [] Scenario.squad)), set_db_ops S Scenario.library)
  /\ get_session Scenario.quiet "user_b" "sess_1" Scenario.library
     = (Ret (send (DataView [] [])), set_db_ops S Scenario.library).
Proof.
split.
- destruct (get_session_scoped Scenario.quiet "user_a" "sess_1" Scenario.library)
    as (history & roster & Hrun & _ & Hfound & _).
  destruct (Hfound (Scenario.session_doc 1 "user_a" "sess_1") eq_refl eq_refl) as [-> ->].
  exact Hrun.
- destruct (get_session_scoped Scenario.quiet "user_b" "sess_1" Scenario.library)
    as (history & roster & Hrun & _ & _ & Hnone).
  destruct (Hnone (or_intror eq_refl)) as [-> ->].
  exact Hrun.
Defined.

(** X21.  [sessions] always answers with status 200 and a list, and writes
    nothing.  When the database answers, the list has one entry for each
    session of the caller, of the type asked for when the query names one,
    and for no other session; the entries are ordered from the session
    created last to the one created first.  When the database fails the
    list is empty. *)
Theorem list_sessions_spec (E : env) (userId : string) (type : option string) (w : world) :
  exists items,
    list_sessions E userId type w = (Ret (send (DataSessions items)), set_db_ops S w)
    /\ (db_fault E (db_ops w) = None ->
        exists found,
          items = map item_of found
          /\ found ≡ₚ List.filter (listed userId type) (sessions w)
          /\ StronglySorted newer_first found
          /\ (forall s, s ∈ found <->
                        s ∈ sessions w /\ Session.owner s = userId
                        /\ (forall t, type = Some t -> t <> "" -> Session.type s = t)))
    /\ (db_fault E (db_ops w) <> None -> items = []).
Proof.
rewrite list_sessions_run. eexists. split; [reflexivity|]. split.
- intros ->. eexists. split; [reflexivity|].
  pose proof (merge_sort_Permutation newer_first
                (List.filter (listed userId type) (sessions w))) as Hperm.
  split_and!; [exact Hperm|apply (StronglySorted_merge_sort newer_first)|].
  intros s. rewrite Hperm, list_elem_of_In, filter_In, <- list_elem_of_In.
  unfold listed. rewrite andb_true_iff, String.eqb_eq.
  destruct type as [t|]; cbn.
  + destruct (String.eqb t "") eqn:Ht; cbn.
    * apply String.eqb_eq in Ht as ->. split; [|tauto].
      intros (Hin & Hown & _). split_and!; try done. by intros t [= <-].
    * apply String.eqb_neq in Ht. rewrite String.eqb_eq. split.
      -- intros (Hin & Hown & Htype). split_and!; try done. by intros t' [= <-].
      -- intros (Hin & Hown & Htype). split_and!; try done. by apply Htype.
  + split; [|tauto]. intros (Hin & Hown & _). split_and!; try done.
- by destruct (db_fault E (db_ops w)).
Qed.

Lemma list_sessions_spec_witness :
  exists items found,
    list_sessions Scenario.quiet "user_a" None Film.season
    = (Ret (send (DataSessions items)), set_db_ops S Film.season)
    /\ items = map item_of found
    /\ found ≡ₚ [Scenario.session_doc 1 "user_a" "sess_1"; Film.practice]
    /\ StronglySorted newer_first found.
Proof.
destruct (list_sessions_spec Scenario.quiet "user_a" None Film.season)
  as (items & Hrun & Hok & _).
destruct (Hok eq_refl) as (found & Hitems & Hperm & Hsorted & _).
exists items, found. split_and!; [exact Hrun|exact Hitems|exact Hperm|exact Hsorted].
Defined.

(** X22.  [search] always answers with status 200 and a list of clips, and
    writes nothing.  Without a [sessionId], or with an empty one, the list
    is empty and the database is not asked.  Otherwise, when the database
    answers, the list holds the clips of the caller in that session, each
    once and no other clip, ordered by section and within a section from
    the latest clip to the earliest; when the database fails the list is
    empty. *)
Theorem search_spec (E : env) (userId : string) (sessionId : option string) (w : world) :
  (Js.truthy sessionId = false ->
   search E userId sessionId w = (Ret (send (DataClips [])), w))
  /\ (forall sid,
        sessionId = Some sid -> sid <> "" ->
        exists found,
          search E userId sessionId w = (Ret (send (DataClips found)), set_db_ops S w)
          /\ (db_fault E (db_ops w) = None ->
              found ≡ₚ List.filter (searched userId sid) (clips w)
              /\ Sorted by_section found
              /\ (forall c, c ∈ found <->
                            c ∈ clips w /\ Clip.owner c = userId /\ Clip.sessionId c = sid))
          /\ (db_fault E (db_ops w) <> None -> found = [])).
Proof.
rewrite search_run. split.
- by intros ->.
- intros sid -> Hne.
  assert (Htruthy : Js.truthy (Some sid) = true).
  { cbn. by apply negb_true_iff, String.eqb_neq. }
  rewrite Htruthy. eexists. split; [reflexivity|]. split.
  + intros ->. cbn [default].
    pose proof (merge_sort_Permutation by_section
                  (List.filter (searched userId sid) (clips w))) as Hperm.
    split_and!; [exact Hperm|apply (Sorted_merge_sort by_section)|].
    intros c. rewrite Hperm, list_elem_of_In, filter_In, <- list_elem_of_In.
    unfold searched. by rewrite andb_true_iff, !String.eqb_eq.
  + by destruct (db_fault E (db_ops w)).
Qed.

Lemma search_spec_witness :
  search Scenario.quiet "user_a" None Film.season = (Ret (send (DataClips [])), Film.season)
  /\ exists found,
       search Scenario.quiet "user_a" (Some "sess_1") Film.season
       = (Ret (send (DataClips found)), set_db_ops S Film.season)
       /\ found ≡ₚ [Film.filed 3 "user_a" "Inbox" 1000; Film.filed 4 "user_a" "Inbox" 2000;
                    Film.filed 8 "user_a" "Blitz" 500]
       /\ Sorted by_section found.
Proof.
destruct (search_spec Scenario.quiet "user_a" None Film.season) as [Hnone _].
destruct (search_spec Scenario.quiet "user_a" (Some "sess_1") Film.season) as [_ Hsome].
split; [exact (Hnone eq_refl)|].
destruct (Hsome "sess_1" eq_refl) as (found & Hrun & Hok & _); [discriminate|].
destruct (Hok eq_refl) as (Hperm & Hsorted & _).
exists found. split_and!; [exact Hrun|exact Hperm|exact Hsorted].
Defined.

(** X23.  A session just created is the first entry of the list of the
    sessions of its owner: in a collection whose document identifiers were
    all issued before, with the database accepting both operations,
    [sessions] called after [create-session] answers with a list that
    begins with the new session. *)
Theorem created_session_listed_first (E : env) (userId : string) (req : CreateBody)
    (w : world) :
  (forall s, s ∈ sessions w -> Session._id s < next_id w) ->
  db_fault E (db_ops w) = None ->
  db_fault E (S (db_ops w)) = None ->
  exists session v rest w',
    create_session E userId req w = (Ret (send (DataSession session)), v)
    /\ list_sessions E userId None v
       = (Ret (send (DataSessions (item_of session :: rest))), w').
Proof.
intros Hfresh Hdb Hdb2. rewrite create_session_run, Hdb. cbn zeta.
set (session := new_session userId req (now w) (next_id w)).
set (v := set_next_id S _).
set (found := merge_sort newer_first (List.filter (listed userId None) (sessions v))).
assert (Hperm : found ≡ₚ List.filter (listed userId None) (sessions v))
  by apply merge_sort_Permutation.
assert (Hin : forall s, s ∈ found -> s = session \/ Session._id s < Session._id session).
{ intros s. rewrite Hperm, list_elem_of_In, filter_In, <- list_elem_of_In.
  intros [Hs _]. cbn in Hs. apply elem_of_app in Hs as [Hs|Hs].
  - right. by apply Hfresh.
  - left. by apply list_elem_of_singleton in Hs. }
assert (Hnew : session ∈ found).
{ rewrite Hperm, list_elem_of_In, filter_In, <- list_elem_of_In. split.
  - cbn. apply elem_of_app. right. by apply list_elem_of_singleton.
  - unfold listed. cbn. by rewrite String.eqb_refl. }
pose proof (StronglySorted_merge_sort newer_first
              (List.filter (listed userId None) (sessions v))) as Hsorted.
fold found in Hsorted.
exists session, v. rewrite list_sessions_run.
change (db_ops v) with (S (db_ops w)). rewrite Hdb2. fold found.
destruct found as [|x rest]; [by apply elem_of_nil in Hnew|].
exists (map item_of rest). eexists. split; [reflexivity|].
apply StronglySorted_inv in Hsorted as [_ Hhead].
assert (x = session) as ->; [|reflexivity].
destruct (Hin x) as [Hx|Hx]; [by left|done|].
apply elem_of_cons in Hnew as [Hnew|Hnew]; [done|].
rewrite Forall_forall in Hhead. specialize (Hhead session Hnew).
unfold newer_first in Hhead. lia.
Qed.

Lemma created_session_listed_first_witness :
  exists session v rest w',
    create_session Scenario.quiet "user_a" {| cr_title := Some "Week 3"; cr_type := None |}
                   Film.season
    = (Ret (send (DataSession session)), v)
    /\ list_sessions Scenario.quiet "user_a" None v
       = (Ret (send (DataSessions (item_of session :: rest))), w').
Proof.
apply (created_session_listed_first Scenario.quiet "user_a"
         {| cr_title := Some "Week 3"; cr_type := None |} Film.season);
  [|reflexivity|reflexivity].
intros s Hs. cbn in Hs.
repeat (apply elem_of_cons in Hs as [->|Hs]; [cbn; lia|]).
by apply elem_of_nil in Hs.
Defined.

(** X24.  The handlers that put the owner in the filter of every
    operation they issue leave the documents of the other users as they
    are, however they end: the sessions and the clips of every other user
    are the same after [create-session], [sessions], [session/:id],
    [search], [delete-session], [update-clip] and [save-snapshot] as
    before. *)
Theorem handlers_owner_scoped (E : env) (userId : string) (w : world) :
  (forall req, others_untouched userId w (snd (create_session E userId req w)))
  /\ (forall type, others_untouched userId w (snd (list_sessions E userId type w)))
  /\ (forall id, others_untouched userId w (snd (get_session E userId id w)))
  /\ (forall sessionId, others_untouched userId w (snd (search E userId sessionId w)))
  /\ (forall sessionId, others_untouched userId w (snd (delete_session E userId sessionId w)))
  /\ (forall id section, others_untouched userId w (snd (update_clip E userId id section w)))
  /\ (forall id image, others_untouched userId w (snd (save_snapshot E userId id image w))).
Proof.
unfold others_untouched. split_and!.
- intros req. rewrite create_session_run.
  destruct (db_fault E (db_ops w)); [done|].
  unfold theirs. cbn. rewrite List.filter_app. cbn.
  by rewrite String.eqb_refl, app_nil_r.
- intros type. by rewrite list_sessions_run.
- intros id. by rewrite get_session_run.
- intros sessionId. rewrite search_run. by destruct (Js.truthy sessionId).
- intros sessionId. apply theirs_delete_session.
- intros id section. apply theirs_update_clip.
- intros id image. apply theirs_save_snapshot.
Qed.

(** X25.  The poll loop of the video branch has no limit.  When the
    uploads are accepted and the ingestion service reports the file as
    processing at every query, the handler has not answered after any
    number of rounds: it has slept two seconds and queried once more in
    each round, called no model, and the temporary file and the
    placeholder clip are still there. *)
Theorem chat_waits_for_ingestion (E : env) (userId : string) (req : ChatBody) (w : world)
    (cloud : CloudUpload) (uploaded : GeminiUpload) :
  Js.truthy (cb_fileData req) = true ->
  cloudinary_upload E (tempPath_of (now w)) = inl cloud ->
  gemini_upload E (tempPath_of (now w)) (cb_mimeType req) = inl uploaded ->
  db_fault E (db_ops w) = None ->
  (forall i, processing_at E (file_name uploaded) w i) ->
  forall fuel,
    exists w',
      chat E fuel userId req w = (Pending, w')
      /\ polls w' = polls w + S fuel
      /\ now w' = (now w + 2000 * Z.of_nat fuel)%Z
      /\ gen_log w' = gen_log w
      /\ tempPath_of (now w) ∈ files w'
      /\ placeholder_clip userId req cloud (now w) (next_id w) ∈ clips w'.
Proof.
intros Hfile Hcloud Hup Hdb Hprocessing fuel.
exists (waited fuel (uploaded_world userId req cloud w)).
split.
- rewrite (chat_video_eq E userId req fuel w Hfile).
  unfold try_catch, chat_video.
  rewrite (bind_pending_eq _ _ w (waited fuel (uploaded_world userId req cloud w)));
    [done|].
  unfold chat_video_output.
  rewrite (bind_ret_eq _ _ w (uploaded, placeholder_clip userId req cloud (now w) (next_id w))
             (uploaded_world userId req cloud w)).
  2: { by rewrite chat_upload_run, Hcloud, Hup, Hdb. }
  apply bind_pending_eq. cbn [fst].
  apply await_ingestion_pending. intros i _. apply Hprocessing.
- cbn. split_and!; try done; try lia.
  + apply elem_of_union. left. by apply elem_of_singleton.
  + apply elem_of_app. right. by apply list_elem_of_singleton.
Qed.

Lemma chat_waits_for_ingestion_witness :
  exists w',
    chat (Scenario.scripted Scenario.no_fault Scenario.analysed Scenario.stuck) 30 "user_a"
         Scenario.video_request Scenario.library
    = (Pending, w')
    /\ polls w' = 31 /\ now w' = 1700000060000%Z /\ gen_log w' = []
    /\ Scenario.pending_clip ∈ clips w'.
Proof.
destruct (chat_waits_for_ingestion
            (Scenario.scripted Scenario.no_fault Scenario.analysed Scenario.stuck)
            "user_a" Scenario.video_request Scenario.library Scenario.stored
            {| file_name := "files/abc" |} eq_refl eq_refl eq_refl eq_refl) with (fuel := 30)
  as (w' & Hrun & Hpolls & Hnow & Hlog & _ & Hclip).
- intros i. by eexists.
- exists w'. by split_and!.
Defined.

(** X26.  After [delete-session] has reported success, [search] finds no
    clip of the caller in that session. *)
Theorem deleted_session_has_no_clips (E : env) (userId sessionId : string) (w w' : world) :
  delete_session E userId sessionId w = (Ret (res_json JsonSuccess), w') ->
  exists v, search E userId (Some sessionId) w' = (Ret (send (DataClips [])), v)
            /\ clips v = clips w'.
Proof.
rewrite delete_session_run.
destruct (db_fault E (db_ops w)); [discriminate|]. cbn zeta.
destruct (db_fault E (S (db_ops w))); [discriminate|].
destruct (for_of _ (destroy_video E) _) as [[u|e|] w3]; [|discriminate|discriminate].
destruct (db_fault E (db_ops w3)); [discriminate|].
intros [= <-]. rewrite search_run.
destruct (Js.truthy (Some sessionId)); [|by eexists].
match goal with |- exists v, (_, ?x) = _ /\ _ => exists x end.
split; [|reflexivity]. do 3 f_equal.
destruct (db_fault E _); [done|]. cbn [clips set_clips set_db_ops].
change (default "" (Some sessionId)) with sessionId.
assert (Hnone : List.filter (searched userId sessionId)
                  (delete_all (clip_of sessionId userId) (clips w3)) = []).
{ assert (Hsame : forall c, searched userId sessionId c = clip_of sessionId userId c)
    by (intros c; unfold searched, clip_of; apply andb_comm).
  unfold delete_all. induction (clips w3) as [|c rest IH]; [done|].
  cbn. destruct (clip_of sessionId userId c) eqn:Hc; cbn; [exact IH|].
  rewrite Hsame, Hc. exact IH. }
by rewrite Hnone.
Qed.

Lemma deleted_session_has_no_clips_witness :
  exists v,
    search Scenario.quiet "user_a" (Some "sess_1")
           (snd (delete_session Scenario.quiet "user_a" "sess_1" Scenario.library))
    = (Ret (send (DataClips [])), v).
Proof.
destruct (deleted_session_has_no_clips Scenario.quiet "user_a" "sess_1" Scenario.library
            (snd (delete_session Scenario.quiet "user_a" "sess_1" Scenario.library)))
  as (v & Hrun & _).
- apply run_eq. reflexivity.
- by exists v.
Defined.
